(** * Codeception test adapter: result reconciliation engine

    A shallow embedding of the streaming classifier
    ([StreamingTestExecutor]), the JUnit report parser ([JunitParser]) and
    the result marking of [CodeceptionTestProvider], followed by the
    properties of the specification that concern them and by further
    properties of the same code: the carry-over buffer, the names the
    patterns capture, the name index, the map of the report, the
    verdicts of files and of the item being run, the command of a run
    and the Docker and fatal errors.

    Conventions of the embedding:
    - a JavaScript string is the list of its UTF-16 code units ([jstring]);
    - a JavaScript [Map] is an insertion-ordered association list with
      unique keys ([JsMap]), a [Set<string>] is a [gset];
    - a [vscode.TestItem] is identified by its position below the item
      being run (a path of child indices), which is how object identity of
      the items of one tree is rendered;
    - a [vscode.TestRun] is the table of the last state reported for each
      item ([started], [passed], [failed], [skipped]); messages attached to
      failures are not part of the table;
    - an asynchronous function that is awaited is run to its end where it
      is called; [onComplete], which the executor calls without waiting
      for it, comes as what it does before its first wait
      ([onCompleteStart]) and as a whole ([onComplete]);
    - what the code reads from outside (files, the XML reader, the output
      of the child process, buffer by buffer) is an argument;
    - a regular expression is the syntax tree of its literal, run by a
      backtracking matcher ([Regex]). *)

From Stdlib Require Import NArith ZArith Ascii String List Bool Lia.
From Stdlib Require Strings.Byte.
From stdpp Require Import gmap list.

Local Open Scope N_scope.
Set Warnings "-register-all".

(** ** JavaScript strings *)

Module JsString.

Definition jstring := list N.

(** ASCII literal to code units. *)
Definition str (s : string) : jstring :=
  map N_of_ascii (list_ascii_of_string s).

Definition checkmark : N := 10003.   (* U+2713 *)
Definition crossmark : N := 10007.   (* U+2717 *)
Definition newline : N := 10.

Definition between (lo hi c : N) : bool := (lo <=? c) && (c <=? hi).

Definition lower1 (c : N) : N := if between 65 90 c then c + 32 else c.
Definition upper1 (c : N) : N := if between 97 122 c then c - 32 else c.

(** [String.prototype.toLowerCase] / [toUpperCase], exact on strings of
    ASCII code units: the letters [A-Z] and [a-z] are mapped, every other
    code unit is kept, also the cased characters outside ASCII that the
    language maps (U+00C9, or U+212A, which it lowers to [k]). *)
Definition toLowerCase (s : jstring) : jstring := map lower1 s.
Definition toUpperCase (s : jstring) : jstring := map upper1 s.

(** White space and line terminators: the set of [\s] and of [trim]. *)
Definition isSpace (c : N) : bool :=
  between 9 13 c || (c =? 32) || (c =? 160) || (c =? 5760)
  || between 8192 8202 c || (c =? 8232) || (c =? 8233) || (c =? 8239)
  || (c =? 8287) || (c =? 12288) || (c =? 65279).

Definition isDigit (c : N) : bool := between 48 57 c.

(** [\w] is [A-Za-z0-9_]. *)
Definition isWord (c : N) : bool :=
  between 65 90 c || between 97 122 c || isDigit c || (c =? 95).

(** [.] matches anything but a line terminator. *)
Definition isDot (c : N) : bool :=
  negb ((c =? 10) || (c =? 13) || (c =? 8232) || (c =? 8233)).

Fixpoint eqb (a b : jstring) : bool :=
  match a, b with
  | [], [] => true
  | x :: a', y :: b' => (x =? y) && eqb a' b'
  | _, _ => false
  end.

Fixpoint startsWith (s p : jstring) : bool :=
  match p, s with
  | [], _ => true
  | x :: p', y :: s' => (x =? y) && startsWith s' p'
  | _ :: _, [] => false
  end.

Fixpoint includes (s sub : jstring) : bool :=
  startsWith s sub ||
  match s with
  | [] => false
  | _ :: s' => includes s' sub
  end.

Definition substring (n : nat) (s : jstring) : jstring := drop n s.

Fixpoint trimStart (s : jstring) : jstring :=
  match s with
  | c :: s' => if isSpace c then trimStart s' else s
  | [] => []
  end.

Definition trimEnd (s : jstring) : jstring := rev (trimStart (rev s)).

Definition trim (s : jstring) : jstring := trimEnd (trimStart s).

(** [s.split('\n')]: the pieces between the newlines, never empty as a
    list ([''.split('\n')] is [['']]). *)
Fixpoint split (s : jstring) : list jstring :=
  match s with
  | [] => [[]]
  | c :: s' =>
      if c =? newline then [] :: split s'
      else match split s' with
           | l :: ls => (c :: l) :: ls
           | [] => [[c]]
           end
  end.

(** [parts.join(sep)]. *)
Fixpoint join (sep : jstring) (parts : list jstring) : jstring :=
  match parts with
  | [] => []
  | [p] => p
  | p :: ps => p ++ sep ++ join sep ps
  end.

(** [parseInt(s, 10)] on a string of decimal digits, where the language
    gives the nearest double: the two agree below 2^53. *)
Definition parseInt (s : jstring) : N :=
  fold_left (fun acc c => 10 * acc + (c - 48)) s 0.

(** Truthiness of a string. *)
Definition nonEmpty (s : jstring) : bool :=
  match s with [] => false | _ => true end.

End JsString.
Import JsString.

(** ** Regular expressions

    The fragment of the JavaScript regular expressions the sources use,
    with the backtracking semantics of the language: alternatives are tried
    left to right, a greedy quantifier tries one more iteration first, a
    lazy one tries to stop first, an iteration that consumes nothing is
    rejected, and an unanchored pattern is tried at every start position
    from the left. *)

Module Regex.

Inductive regex : Type :=
| Eps
| Chr (p : N -> bool)
| Cat (a b : regex)
| Alt (a b : regex)
| Star (greedy : bool) (a : regex)
| Group (n : nat) (a : regex)
| Bol
| Eol.

(** Captures, most recent first. *)
Definition captures := list (nat * jstring).

Definition orElse {A} (x y : option A) : option A :=
  match x with Some _ => x | None => y end.

(** [run r i s c k]: match [r] at offset [i], where [s] is the rest of
    the input, then continue with [k]. *)
Fixpoint run (r : regex) (i : nat) (s : jstring) (c : captures)
    (k : nat -> jstring -> captures -> option captures) {struct r}
    : option captures :=
  match r with
  | Eps => k i s c
  | Chr p =>
      match s with
      | x :: s' => if p x then k (S i) s' c else None
      | [] => None
      end
  | Cat a b => run a i s c (fun i' s' c' => run b i' s' c' k)
  | Alt a b => orElse (run a i s c k) (run b i s c k)
  | Star greedy a =>
      (fix loop (fuel : nat) (i : nat) (s : jstring) (c : captures)
         : option captures :=
         match fuel with
         | O => k i s c
         | S fuel' =>
             let more :=
               run a i s c (fun i' s' c' =>
                 if Nat.ltb i i' then loop fuel' i' s' c' else None) in
             if greedy then orElse more (k i s c)
             else orElse (k i s c) more
         end) (S (length s)) i s c
  | Group n a =>
      run a i s c (fun i' s' c' => k i' s' ((n, take (i' - i) s) :: c'))
  | Bol => match i with O => k i s c | S _ => None end
  | Eol => match s with [] => k i s c | _ :: _ => None end
  end.

Definition matchAt (r : regex) (i : nat) (s : jstring) : option captures :=
  run r i s [] (fun _ _ c => Some c).

(** First match scanning the start positions from the left. *)
Fixpoint scan (r : regex) (i : nat) (s : jstring) : option captures :=
  orElse (matchAt r i s)
         match s with
         | [] => None
         | _ :: s' => scan r (S i) s'
         end.

(** [s.match(r)] for a pattern without the [g] flag: the captures of
    the first match, or [None] for [null]. *)
Definition exec (r : regex) (s : jstring) : option captures := scan r 0%nat s.

(** [r.test(s)]. *)
Definition test (r : regex) (s : jstring) : bool :=
  match exec r s with Some _ => true | None => false end.

(** [m[n]] of a successful match. *)
Fixpoint group (n : nat) (c : captures) : jstring :=
  match c with
  | [] => []
  | (m, v) :: c' => if Nat.eqb n m then v else group n c'
  end.

(** Pattern builders. *)
Definition chr (x : N) : regex := Chr (N.eqb x).
Definition chri (x : N) : regex := Chr (fun c => upper1 c =? upper1 x).
Definition seq (rs : list regex) : regex := fold_right Cat Eps rs.
Definition lit (s : string) : regex := seq (map chr (str s)).
(** A literal under the [i] flag. *)
Definition liti (s : string) : regex := seq (map chri (str s)).
Definition alts (rs : list regex) : regex :=
  match rs with
  | [] => Eps
  | r :: rs' => fold_left Alt rs' r
  end.
Definition star (r : regex) : regex := Star true r.
Definition plus (r : regex) : regex := Cat r (Star true r).
Definition lazyPlus (r : regex) : regex := Cat r (Star false r).
Definition opt (r : regex) : regex := Alt r Eps.
Definition notChr (x : N) : regex := Chr (fun c => negb (c =? x)).

Definition s_ : regex := Chr isSpace.
Definition w_ : regex := Chr isWord.
Definition d_ : regex := Chr isDigit.
Definition nonSpace : regex := Chr (fun c => negb (isSpace c)).

End Regex.
Import Regex.

(** ** StreamingTestExecutor (streamingExecutor.ts) *)

Module StreamingTestExecutor.

(** The callbacks of [StreamingOptions], as the events the executor
    hands to its caller, in the order of the calls. *)
Inductive Callback : Type :=
| OnOutput (data : jstring)
| OnTestResult (testName : jstring) (passed : bool) (output : jstring)
| OnComplete (exitCode : Z)
| OnError (message : jstring).

Record Executor : Type := mkExecutor {
  lineBuffer : jstring;
  stderrBuffer : jstring
}.

Definition fresh : Executor := mkExecutor [] [].

Definition glyph : regex :=
  Chr (fun c => (c =? checkmark) || (c =? crossmark)).

Definition status : regex :=
  alts [liti "OK"; liti "FAILED"; liti "PASSED"; liti "ERROR"].

(** [/[✓✗]\s+(\w+)(?:\s+\([^)]+\))?/] *)
Definition checkmarkRe : regex :=
  seq [glyph; plus s_; Group 1 (plus w_);
       opt (seq [plus s_; lit "("; plus (notChr 41); lit ")"])].

(** [/^(\w+):\s*(OK|FAILED|PASSED|ERROR)/i] *)
Definition colonRe : regex :=
  seq [Bol; Group 1 (plus w_); liti ":"; star s_; Group 2 status].

(** [/^(\w+)\s+\([^)]+\)\s+\.\.\.\s+(OK|FAILED|PASSED|ERROR)/i] *)
Definition verboseRe : regex :=
  seq [Bol; Group 1 (plus w_); plus s_; liti "("; plus (notChr 41);
       liti ")"; plus s_; liti "..."; plus s_; Group 2 status].

(** [/^ok\s+\d+\s+-\s+(\w+)/i] *)
Definition tapOkRe : regex :=
  seq [Bol; liti "ok"; plus s_; plus d_; plus s_; liti "-"; plus s_;
       Group 1 (plus w_)].

(** [/^not\s+ok\s+\d+\s+-\s+(\w+)/i] *)
Definition tapFailRe : regex :=
  seq [Bol; liti "not"; plus s_; liti "ok"; plus s_; plus d_; plus s_;
       liti "-"; plus s_; Group 1 (plus w_)].

(** [/Test\s+[^\s]+:([A-Za-z0-9_]+)/] *)
Definition detailedRe : regex :=
  seq [lit "Test"; plus s_; plus nonSpace; lit ":"; Group 1 (plus w_)].

Definition statusPassed (s : jstring) : bool :=
  let status := toUpperCase s in
  JsString.eqb status (str "OK") || JsString.eqb status (str "PASSED").

(** [parseLine]: the [onTestResult] call the line gives rise to, if any. *)
Definition parseLine (line : jstring) : list Callback :=
  if negb (nonEmpty line) then [] else
  match exec checkmarkRe line with
  | Some m => [OnTestResult (group 1 m) (includes line [checkmark]) line]
  | None =>
  match exec colonRe line with
  | Some m => [OnTestResult (group 1 m) (statusPassed (group 2 m)) line]
  | None =>
  match exec verboseRe line with
  | Some m => [OnTestResult (group 1 m) (statusPassed (group 2 m)) line]
  | None =>
  match exec tapOkRe line with
  | Some m => [OnTestResult (group 1 m) true line]
  | None =>
  match exec tapFailRe line with
  | Some m => [OnTestResult (group 1 m) false line]
  | None =>
  match exec detailedRe line with
  | Some m => [OnTestResult (group 1 m) false line]
  | None => []
  end end end end end end.

(** [processChunk]: append to the carry-over buffer, keep the last
    fragment, classify every complete line. *)
Definition processChunk (e : Executor) (chunk : jstring)
    : Executor * list Callback :=
  let buffer := lineBuffer e ++ chunk in
  let lines := split buffer in
  (mkExecutor (List.last lines []) (stderrBuffer e),
   flat_map (fun line => parseLine (trim line)) (removelast lines)).

(** Deliver the chunks of one stream, one at a time. *)
Fixpoint processChunks (e : Executor) (chunks : list jstring)
    : Executor * list Callback :=
  match chunks with
  | [] => (e, [])
  | chunk :: rest =>
      let '(e1, cbs1) := processChunk e chunk in
      let '(e2, cbs2) := processChunks e1 rest in
      (e2, cbs1 ++ cbs2)
  end.

(** The ['data'] handlers of the two pipes, from the decoded chunk on. *)
Definition onStdout (e : Executor) (data : jstring)
    : Executor * list Callback :=
  let '(e', cbs) := processChunk e data in
  (e', OnOutput data :: cbs).

Definition onStderr (e : Executor) (data : jstring)
    : Executor * list Callback :=
  let e1 := mkExecutor (lineBuffer e) (stderrBuffer e ++ data) in
  let '(e', cbs) := processChunk e1 data in
  (e', OnOutput data :: cbs).

Definition cleanup (e : Executor) : Executor := mkExecutor [] [].

(** The two pipes of the child process. *)
Inductive Channel : Type := Stdout | Stderr.

Definition onData (ch : Channel) : Executor -> jstring -> Executor * list Callback :=
  match ch with
  | Stdout => onStdout
  | Stderr => onStderr
  end.

(** Deliver a sequence of chunks. *)
Fixpoint feed (e : Executor) (chunks : list (Channel * jstring))
    : Executor * list Callback :=
  match chunks with
  | [] => (e, [])
  | (ch, data) :: rest =>
      let '(e1, cbs1) := onData ch e data in
      let '(e2, cbs2) := feed e1 rest in
      (e2, cbs1 ++ cbs2)
  end.

(** How the process ends: the ['close'] event with an exit code or a
    signal; the ['error'] event, which the ['close'] event of the
    process follows; or the timer of 300000 ms, which kills the process
    with [SIGTERM]. An exit code can be negative (that of a process
    that could not be spawned is). *)
Inductive Ending : Type :=
| Close (code : option Z) (signal : option jstring)
| ProcessError (message : jstring) (code : option Z) (signal : option jstring)
| TimedOut.

(** The promise of [executeWithStreaming]: resolved, or rejected with
    the message of the error. *)
Inductive Settled : Type :=
| Resolved
| Rejected (message : jstring).

(** The calls the ending gives rise to until the promise is settled. *)
Definition onEnding (e : Executor) (end_ : Ending)
    : Executor * list Callback * Settled :=
  match end_ with
  | Close code signal =>
      match signal with
      | Some sg =>
          if JsString.eqb sg (str "SIGTERM")
          then (cleanup e, [], Rejected (str "Process was terminated"))
          else (cleanup e, [OnComplete (default 0%Z code)], Resolved)
      | None => (cleanup e, [OnComplete (default 0%Z code)], Resolved)
      end
  | ProcessError msg _ _ => (cleanup e, [OnError msg], Rejected msg)
  | TimedOut =>
      (e, [OnOutput ([13; 10] ++ str "[Streaming] Timeout after 300000ms, killing process"
                     ++ [13; 10])],
       Rejected (str "Command timed out after 300000ms"))
  end.

(** The calls made once the promise is settled: the handler of ['close']
    does not look at what the handler of ['error'] did, so the
    ['close'] event that follows an ['error'] event still calls
    [onComplete], unless the signal is [SIGTERM]. *)
Definition afterSettled (end_ : Ending) : list Callback :=
  match end_ with
  | ProcessError _ code signal =>
      snd (fst (onEnding fresh (Close code signal)))
  | Close _ _ | TimedOut => []
  end.

(** [chunk.toString()] on a [Buffer]: the bytes decoded as UTF-8 into
    UTF-16 code units, each maximal ill-formed part replaced by U+FFFD;
    a sequence cut off by the end of the buffer is ill-formed. *)
Definition replacement : N := 65533.

Definition utf16 (codePoint : N) : jstring :=
  if codePoint <? 65536 then [codePoint]
  else [55296 + (codePoint - 65536) / 1024;
        56320 + (codePoint - 65536) mod 1024].

(** A sequence under way: the code point so far, the bytes still
    needed, and the bounds of the next byte. *)
Record Utf8Sequence : Type := mkUtf8Sequence {
  codePoint : N;
  bytesNeeded : nat;
  lowerBoundary : N;
  upperBoundary : N
}.

(** A byte met outside a sequence. *)
Definition leadByte (b : N) : jstring * option Utf8Sequence :=
  if b <=? 127 then ([b], None)
  else if between 194 223 b
  then ([], Some (mkUtf8Sequence (N.land b 31) 1 128 191))
  else if between 224 239 b
  then ([], Some (mkUtf8Sequence (N.land b 15) 2
                    (if b =? 224 then 160 else 128)
                    (if b =? 237 then 159 else 191)))
  else if between 240 244 b
  then ([], Some (mkUtf8Sequence (N.land b 7) 3
                    (if b =? 240 then 144 else 128)
                    (if b =? 244 then 143 else 191)))
  else ([replacement], None).

Fixpoint decodeUtf8 (bytes : list N) (st : option Utf8Sequence) : jstring :=
  match bytes with
  | [] => match st with Some _ => [replacement] | None => [] end
  | b :: rest =>
      match st with
      | None =>
          let '(out, st') := leadByte b in out ++ decodeUtf8 rest st'
      | Some sq =>
          if between (lowerBoundary sq) (upperBoundary sq) b then
            let cp := codePoint sq * 64 + N.land b 63 in
            match bytesNeeded sq with
            | S (S n) => decodeUtf8 rest (Some (mkUtf8Sequence cp (S n) 128 191))
            | _ => utf16 cp ++ decodeUtf8 rest None
            end
          else
            (* the byte starts anew *)
            let '(out, st') := leadByte b in
            replacement :: out ++ decodeUtf8 rest st'
      end
  end.

Definition toString (chunk : list Byte.byte) : jstring :=
  decodeUtf8 (map Byte.to_N chunk) None.

(** Deliver a sequence of buffers: each ['data'] handler decodes the
    buffer it is given on its own. *)
Definition feedBuffers (e : Executor)
    (chunks : list (Channel * list Byte.byte))
    : Executor * list Callback :=
  feed e (map (fun c => (fst c, toString (snd c))) chunks).

(** The classified results among the callbacks. *)
Definition results (cbs : list Callback) : list (jstring * bool) :=
  flat_map (fun cb => match cb with
                      | OnTestResult n p _ => [(n, p)]
                      | _ => []
                      end) cbs.

End StreamingTestExecutor.

Import StreamingTestExecutor.

(** ** JavaScript maps *)

Module JsMap.

(** A [Map<string, V>]: unique keys, iterated in insertion order. *)
Definition t (V : Type) : Type := list (jstring * V).

Definition empty {V} : t V := [].

Fixpoint get {V} (m : t V) (k : jstring) : option V :=
  match m with
  | [] => None
  | (k', v) :: m' => if decide (k' = k) then Some v else get m' k
  end.

Definition has {V} (m : t V) (k : jstring) : bool :=
  match get m k with Some _ => true | None => false end.

(** [m.set(k, v)]: an existing key keeps its place. *)
Fixpoint set {V} (m : t V) (k : jstring) (v : V) : t V :=
  match m with
  | [] => [(k, v)]
  | (k', v') :: m' =>
      if decide (k' = k) then (k', v) :: m' else (k', v') :: set m' k v
  end.

Definition size {V} (m : t V) : nat := length m.

Definition entries {V} (m : t V) : list (jstring * V) := m.

Definition values {V} (m : t V) : list V := map snd m.

End JsMap.

(** ** Exceptions *)

Inductive Exc (A : Type) : Type :=
| Throw (message : jstring)
| Ret (a : A).
Arguments Throw {A} message.
Arguments Ret {A} a.

Definition bindExc {A B} (x : Exc A) (f : A -> Exc B) : Exc B :=
  match x with
  | Throw m => Throw m
  | Ret a => f a
  end.

(** [try { body } catch (error) { handler }]. *)
Definition tryCatch {A} (body : Exc A) (handler : jstring -> Exc A) : Exc A :=
  match body with
  | Throw m => handler m
  | Ret a => Ret a
  end.

#[global] Instance exc_bind : MBind Exc := fun A B f x => bindExc x f.
#[global] Instance exc_ret : MRet Exc := fun A a => Ret a.
#[global] Instance exc_fmap : FMap Exc :=
  fun A B f x => match x with Throw m => Throw m | Ret a => Ret (f a) end.

(** ** JunitParser (junitParser.ts) *)

Module JunitParser.

(** A child element of a [testcase] as the XML reader hands it over
    (attributes merged, no explicit arrays): no such child, an element
    without attributes (its text, the empty string for an empty
    element), an element with attributes (its text under the key [_]),
    or several elements of the same name. *)
Inductive XmlChild : Type :=
| Absent
| Text (s : jstring)
| Elem (attrs : list (jstring * jstring))
| Many (items : list XmlChild).

(** Truthiness of such a value. *)
Definition truthy (v : XmlChild) : bool :=
  match v with
  | Absent => false
  | Text s => nonEmpty s
  | Elem _ => true
  | Many _ => true
  end.

Record RawTestCase : Type := mkRawTestCase {
  tc_name : option jstring;
  tc_classname : option jstring;
  tc_class : option jstring;
  tc_time : option jstring;
  tc_failure : XmlChild;
  tc_error : XmlChild;
  tc_skipped : XmlChild
}.

Record RawTestSuite : Type := mkRawTestSuite {
  ts_name : option jstring;
  ts_testcase : list RawTestCase
}.

(** The parsed document, by its root element. *)
Inductive ParsedXml : Type :=
| Testsuites (suites : list RawTestSuite)
| Testsuite (suite : RawTestSuite)
| OtherRoot.

Inductive Status : Type := passed | failed | skipped | error.

#[global] Instance Status_eq_dec : EqDecision Status.
Proof. solve_decision. Defined.

Record Detail : Type := mkDetail {
  message : jstring;
  type : jstring;
  content : jstring
}.

(** [JUnitTestResult] of types.ts; [time] is the text [parseFloat] is
    applied to, where there is one. *)
Record JUnitTestResult : Type := mkResult {
  name : jstring;
  className : option jstring;
  status : Status;
  time : option jstring;
  failure : option Detail;
  error_ : option Detail
}.

(** [a || b] on optional strings. *)
Definition orStr (a b : option jstring) : option jstring :=
  match a with
  | Some s => if nonEmpty s then a else b
  | None => b
  end.

Definition attr (attrs : list (jstring * jstring)) (k : string)
    : option jstring :=
  JsMap.get attrs (str k).

Definition parseFailureOrError (element : XmlChild) : Detail :=
  match element with
  | Text s => mkDetail s (str "AssertionError") s
  | Elem attrs =>
      mkDetail
        (default [] (orStr (orStr (attr attrs "message") (attr attrs "_")) (Some [])))
        (default [] (orStr (attr attrs "type") (Some (str "Error"))))
        (default [] (orStr (orStr (attr attrs "_") (attr attrs "message")) (Some [])))
  | _ => mkDetail [] (str "Error") []
  end.

Definition setStatus (r : JUnitTestResult) (s : Status) : JUnitTestResult :=
  mkResult (name r) (className r) s (time r) (failure r) (error_ r).
Definition setFailure (r : JUnitTestResult) (d : Detail) : JUnitTestResult :=
  mkResult (name r) (className r) (status r) (time r) (Some d) (error_ r).
Definition setError (r : JUnitTestResult) (d : Detail) : JUnitTestResult :=
  mkResult (name r) (className r) (status r) (time r) (failure r) (Some d).

Definition parseTestCase (testcase : RawTestCase) (suiteName : option jstring)
    : JUnitTestResult :=
  let result :=
    mkResult (default [] (tc_name testcase))
             (orStr (orStr (tc_classname testcase) (tc_class testcase)) suiteName)
             passed
             (match tc_time testcase with
              | Some t => if nonEmpty t then Some t else None
              | None => None
              end) None None in
  (* Check for failure *)
  let result :=
    if truthy (tc_failure testcase)
    then setFailure (setStatus result failed)
                    (parseFailureOrError (tc_failure testcase))
    else result in
  (* Check for error *)
  let result :=
    if truthy (tc_error testcase)
    then setError (setStatus result error)
                  (parseFailureOrError (tc_error testcase))
    else result in
  (* Check for skipped *)
  let result :=
    if truthy (tc_skipped testcase)
    then setStatus result skipped
    else result in
  result.

Definition extractTestSuites (parsedXml : ParsedXml) : list RawTestSuite :=
  match parsedXml with
  | Testsuites suites => suites
  | Testsuite suite => [suite]
  | OtherRoot => []
  end.

(** The entries one testcase adds to the result map. *)
Definition store (results : JsMap.t JUnitTestResult) (result : JUnitTestResult)
    : JsMap.t JUnitTestResult :=
  let results := JsMap.set results (name result) result in
  let results := JsMap.set results (toLowerCase (name result)) result in
  if startsWith (toLowerCase (name result)) (str "test") then
    let withoutTest := substring 4 (name result) in
    let results := JsMap.set results withoutTest result in
    JsMap.set results (toLowerCase withoutTest) result
  else results.

Definition hasName (testcase : RawTestCase) : bool :=
  match tc_name testcase with
  | Some n => nonEmpty n
  | None => false
  end.

Definition collect (testsuites : list RawTestSuite)
    : JsMap.t JUnitTestResult :=
  fold_left
    (fun results testsuite =>
       fold_left
         (fun results testcase =>
            if hasName testcase
            then store results (parseTestCase testcase (ts_name testsuite))
            else results)
         (ts_testcase testsuite) results)
    testsuites JsMap.empty.

(** What the parser reads from: the host file system, the container and
    the XML reader. Reading the host file and parsing may throw. *)
Record Files : Type := mkFiles {
  existsSync : jstring -> bool;
  readFile : jstring -> Exc jstring;
  readFileFromContainer : jstring -> jstring -> option jstring;
  parseString : jstring -> Exc ParsedXml
}.

Definition truthyStr (s : option jstring) : bool :=
  match s with Some x => nonEmpty x | None => false end.

(** The statements of the [try] block of [parseJUnitXml]; [results] is
    still empty wherever they throw or return early. *)
Definition parseJUnitXmlBody (fs : Files)
    (xmlPath : jstring) (containerPath container : option jstring)
    : Exc (JsMap.t JUnitTestResult) :=
  let results : JsMap.t JUnitTestResult := JsMap.empty in
  let xmlContent : option jstring :=
    match container, containerPath with
    | Some c, Some p =>
        if nonEmpty c && nonEmpty p then readFileFromContainer fs c p else None
    | _, _ => None
    end in
  xmlContent ←
    (if truthyStr xmlContent then Ret xmlContent
     else if negb (existsSync fs xmlPath) then Ret None
     else content ← readFile fs xmlPath; Ret (Some content));
  match xmlContent with
  | None => Ret results
  | Some content =>
      if negb (nonEmpty content) || negb (nonEmpty (trim content))
      then Ret results
      else
        parsedXml ← parseString fs content;
        let testsuites := extractTestSuites parsedXml in
        match testsuites with
        | [] => Ret results
        | _ => Ret (collect testsuites)
        end
  end.

(** [parseJUnitXml]: an error is logged and the map is returned. *)
Definition parseJUnitXml (fs : Files)
    (xmlPath : jstring) (containerPath container : option jstring)
    : Exc (JsMap.t JUnitTestResult) :=
  tryCatch (parseJUnitXmlBody fs xmlPath containerPath container)
           (fun _ => Ret JsMap.empty).

Definition getDefaultXmlPath (workspaceRoot : jstring) : jstring :=
  workspaceRoot ++ str "/tests/_output/report.xml".

End JunitParser.

(** ** CodeceptionTestProvider (testProvider.ts) *)

Module TestProvider.

(** *** Test items and test runs *)

Inductive TestItem : Type :=
| Item (id : jstring) (fsPath : option jstring) (children : list TestItem).

Definition id (t : TestItem) : jstring :=
  match t with Item i _ _ => i end.
Definition fsPath (t : TestItem) : option jstring :=
  match t with Item _ p _ => p end.
Definition children (t : TestItem) : list TestItem :=
  match t with Item _ _ cs => cs end.

(** The position of an item below the item being run: [[]] is that item,
    [[i]] its [i]-th child, [[i; j]] the [j]-th child of that one. *)
Abbreviation path := (list nat).

Inductive Outcome : Type := Unset | Running | Passed | Failed | Skipped.

#[global] Instance Outcome_eq_dec : EqDecision Outcome.
Proof. solve_decision. Defined.

Definition terminal (o : Outcome) : bool :=
  match o with
  | Passed | Failed | Skipped => true
  | Unset | Running => false
  end.

(** A [vscode.TestRun]: the last state reported for each item. *)
Abbreviation Run := (gmap (list nat) Outcome).

Definition stateOf (run : Run) (p : path) : Outcome :=
  default Unset (run !! p).

Definition started (p : path) (run : Run) : Run := <[p := Running]> run.
Definition markPassed (p : path) (run : Run) : Run := <[p := Passed]> run.
Definition markFailed (p : path) (run : Run) : Run := <[p := Failed]> run.
Definition markSkipped (p : path) (run : Run) : Run := <[p := Skipped]> run.

(** *** Test names *)

(** [s.split(sep)] for a separator of at least one code unit; [skip]
    counts the code units of a separator still to be dropped. *)
Fixpoint splitOn (sep s : jstring) (skip : nat) : list jstring :=
  match s with
  | [] => [[]]
  | c :: s' =>
      match skip with
      | S n => splitOn sep s' n
      | O =>
          if startsWith s sep
          then [] :: splitOn sep s' (length sep - 1)
          else match splitOn sep s' 0 with
               | l :: ls => (c :: l) :: ls
               | [] => [[c]]
               end
      end
  end.

(** [testId.split('::').pop() || ''] *)
Definition extractMethodName (testId : jstring) : jstring :=
  List.last (splitOn (str "::") testId 0) [].

(** The name variants under which [buildTestNameMap] and the report
    parser register a name. *)
Definition register (m : JsMap.t path) (methodName : jstring) (test : path)
    : JsMap.t path :=
  let m := JsMap.set m methodName test in
  let m := JsMap.set m (toLowerCase methodName) test in
  if startsWith (toLowerCase methodName) (str "test") then
    let withoutTest := substring 4 methodName in
    let m := JsMap.set m withoutTest test in
    JsMap.set m (toLowerCase withoutTest) test
  else m.

Fixpoint addTest (test : TestItem) (p : path) (m : JsMap.t path)
    {struct test} : JsMap.t path :=
  match test with
  | Item testId _ cs =>
      let m :=
        if includes testId (str "::") then
          let methodName := extractMethodName testId in
          if nonEmpty methodName then register m methodName p else m
        else m in
      (fix each (cs : list TestItem) (i : nat) (m : JsMap.t path) :=
         match cs with
         | [] => m
         | child :: cs' => each cs' (S i) (addTest child (p ++ [i]) m)
         end) cs 0%nat m
  end.

Definition buildTestNameMap (parentTest : TestItem) : JsMap.t path :=
  (fix each (cs : list TestItem) (i : nat) (m : JsMap.t path) :=
     match cs with
     | [] => m
     | child :: cs' => each cs' (S i) (addTest child [i] m)
     end) (children parentTest) 0%nat JsMap.empty.

(** *** Streaming run *)

Record Streaming : Type := mkStreaming {
  run : Run;
  seenTests : gset jstring;
  testResults : JsMap.t (bool * jstring);
  allOutput : jstring
}.

Definition withRun (s : Streaming) (r : Run) : Streaming :=
  mkStreaming r (seenTests s) (testResults s) (allOutput s).

(** The callback of [testNameMap.forEach] in [markUnseenTests]. *)
Definition markIfUnseen (seenTests : gset jstring) (run : Run)
    (entry : jstring * path) : Run :=
  let '(testName, testItem) := entry in
  if decide (testName ∈ seenTests) then run
  else markPassed testItem (started testItem run).

(** [markUnseenTests] *)
Definition markUnseenTests (run : Run) (seenTests : gset jstring)
    (testNameMap : JsMap.t path) : Run :=
  fold_left (markIfUnseen seenTests) (JsMap.entries testNameMap) run.

(** The [onOutput] callback. *)
Definition onOutput (s : Streaming) (data : jstring) : Streaming :=
  mkStreaming (run s) (seenTests s) (testResults s) (allOutput s ++ data).

(** The [onTestResult] callback. *)
Definition onTestResult (testNameMap : JsMap.t path) (s : Streaming)
    (testName : jstring) (passed : bool) (output : jstring) : Streaming :=
  match JsMap.get testNameMap testName with
  | Some testItem =>
      if decide (testName ∈ seenTests s) then s
      else
        let run := started testItem (run s) in
        let run := if passed then markPassed testItem run
                   else markFailed testItem run in
        mkStreaming run ({[testName]} ∪ seenTests s)
                    (JsMap.set (testResults s) testName (passed, output))
                    (allOutput s)
  | None => s
  end.

(** The configuration and the files a run depends on. *)
Record Config : Type := mkConfig {
  workspaceRoot : jstring;
  dockerConfig : option (jstring * jstring);   (* container, workdir *)
  files : JunitParser.Files
}.

Definition xmlPassed (xmlResult : JunitParser.JUnitTestResult) : bool :=
  match JunitParser.status xmlResult with
  | JunitParser.passed => true
  | _ => false
  end.

(** [testName.toLowerCase() !== testName &&
     xmlResults.has(testName.toLowerCase())] *)
Definition isDuplicateVariant (xmlResults : JsMap.t JunitParser.JUnitTestResult)
    (testName : jstring) : bool :=
  negb (bool_decide (toLowerCase testName = testName))
  && JsMap.has xmlResults (toLowerCase testName).

(** One iteration of the loop of [reconcileWithXmlResults]. *)
Definition reconcileEntry
    (xmlResults : JsMap.t JunitParser.JUnitTestResult)
    (testNameMap : JsMap.t path)
    (testResults : JsMap.t (bool * jstring))
    (acc : Run * gset jstring) (entry : jstring * JunitParser.JUnitTestResult)
    : Run * gset jstring :=
  let '(run, seenTests) := acc in
  let '(testName, xmlResult) := entry in
  (* Skip duplicate entries *)
  if isDuplicateVariant xmlResults testName then acc else
  match JsMap.get testNameMap testName with
  | None => acc
  | Some testItem =>
      let streamingResult := JsMap.get testResults testName in
      let xmlPassed := xmlPassed xmlResult in
      let streamingPassed := default true (fst <$> streamingResult) in
      (* Check for mismatch *)
      let run :=
        if negb (Bool.eqb xmlPassed streamingPassed) then
          if xmlPassed then markPassed testItem run
          else markFailed testItem run
        else run in
      (* Mark test as seen *)
      if decide (testName ∈ seenTests) then (run, seenTests)
      else
        let run := started testItem run in
        let run := if xmlPassed then markPassed testItem run
                   else markFailed testItem run in
        (run, {[testName]} ∪ seenTests)
  end.

Definition reconcileLoop
    (xmlResults : JsMap.t JunitParser.JUnitTestResult)
    (testNameMap : JsMap.t path)
    (testResults : JsMap.t (bool * jstring))
    (run : Run) (seenTests : gset jstring) : Run * gset jstring :=
  fold_left (reconcileEntry xmlResults testNameMap testResults)
            (JsMap.entries xmlResults) (run, seenTests).

Definition xmlPath (cfg : Config) : jstring :=
  JunitParser.getDefaultXmlPath (workspaceRoot cfg).

Definition containerXmlPath (cfg : Config) : option jstring :=
  match dockerConfig cfg with
  | Some (_, workdir) =>
      if nonEmpty workdir
      then Some (workdir ++ str "/tests/_output/report.xml")
      else None
  | None => None
  end.

(** The call of [parseJUnitXml] made by the provider. *)
Definition readReport (cfg : Config) : Exc (JsMap.t JunitParser.JUnitTestResult) :=
  JunitParser.parseJUnitXml (files cfg) (xmlPath cfg) (containerXmlPath cfg)
                            (fst <$> dockerConfig cfg).

(** [reconcileWithXmlResults]; the wait before the file is looked for is
    not part of the model. *)
Definition reconcileWithXmlResults (cfg : Config)
    (run : Run) (seenTests : gset jstring)
    (testNameMap : JsMap.t path)
    (testResults : JsMap.t (bool * jstring))
    : Exc (Run * gset jstring) :=
  tryCatch
    (if negb (JunitParser.existsSync (files cfg) (xmlPath cfg))
     then Ret (run, seenTests)
     else
       xmlResults ← readReport cfg;
       if Nat.eqb (JsMap.size xmlResults) 0 then Ret (run, seenTests)
       else Ret (reconcileLoop xmlResults testNameMap testResults
                               run seenTests))
    (fun _ => Ret (run, seenTests)).

(** [detectFatalError] *)
Definition fatalErrorPatterns : list regex :=
  [liti "PHP Fatal Error"; liti "PHP Fatal error:"; liti "Fatal error:";
   liti "<pre>PHP Fatal"].

Definition detectFatalError (stdout stderr : jstring) : bool :=
  let combinedOutput := stdout ++ [newline] ++ stderr in
  existsb (fun pattern => test pattern combinedOutput) fatalErrorPatterns.

(** The statements of the [onComplete] callback before its first wait:
    what has happened when the call made by the executor returns. *)
Definition onCompleteStart (testNameMap : JsMap.t path) (s : Streaming)
    (exitCode : Z) : Streaming :=
  withRun s (markUnseenTests (run s) (seenTests s) testNameMap).

(** The [onComplete] callback, run to its end. *)
Definition onComplete (cfg : Config) (testNameMap : JsMap.t path)
    (s : Streaming) (exitCode : Z) : Exc Streaming :=
  let run := markUnseenTests (run s) (seenTests s) testNameMap in
  r ← reconcileWithXmlResults cfg run (seenTests s) testNameMap
        (testResults s);
  let '(run, seenTests) := r in
  let hasFatalError := detectFatalError (allOutput s) [] in
  let hasFailures :=
    negb (exitCode =? 0)%Z || hasFatalError
    || existsb (fun r => negb (fst r)) (JsMap.values (testResults s)) in
  let run := if hasFailures then markFailed [] run else markPassed [] run in
  Ret (mkStreaming run seenTests (testResults s) (allOutput s)).

(** The [onError] callback. *)
Definition onError (s : Streaming) (message : jstring) : Streaming :=
  withRun s (markFailed [] (run s)).

(** [isDockerError] *)
Definition isDockerError (errorMessage stderr : jstring) : bool :=
  let combinedError := toLowerCase (errorMessage ++ str " " ++ stderr) in
  includes combinedError (str "docker") &&
  (includes combinedError (str "command not found")
   || includes combinedError (str "not recognized")
   || includes combinedError (str "cannot connect to the docker daemon")
   || includes combinedError (str "no such container")
   || includes combinedError (str "is not running")
   || includes combinedError (str "permission denied")
   || includes combinedError (str "enoent")).

(** Dispatch of the executor's callbacks to the handlers above, each
    up to the return of the call: the executor does not wait for the
    promise of [onComplete], which has then run up to its first wait. *)
Definition handle (cfg : Config) (testNameMap : JsMap.t path)
    (s : Streaming) (cb : Callback) : Exc Streaming :=
  match cb with
  | OnOutput data => Ret (onOutput s data)
  | OnTestResult testName passed output =>
      Ret (onTestResult testNameMap s testName passed output)
  | OnComplete exitCode => Ret (onCompleteStart testNameMap s exitCode)
  | OnError message => Ret (onError s message)
  end.

Fixpoint handleAll (cfg : Config) (testNameMap : JsMap.t path)
    (s : Streaming) (cbs : list Callback) : Exc Streaming :=
  match cbs with
  | [] => Ret s
  | cb :: rest =>
      s' ← handle cfg testNameMap s cb;
      handleAll cfg testNameMap s' rest
  end.

(** The [catch] block of [executeTestWithStreaming]. *)
Definition onRejected (testNameMap : JsMap.t path) (s : Streaming)
    (errorMessage : jstring) (isCancellationRequested : bool) : Streaming :=
  if isDockerError errorMessage (allOutput s)
  then withRun s (markFailed [] (run s))
  else if isCancellationRequested
  then (* Mark remaining tests as skipped *)
       withRun s (markUnseenTests (run s) (seenTests s) testNameMap)
  else withRun s (markFailed [] (run s)).

(** [executeTestWithStreaming], up to its return: the chunks the process
    writes, the way it ends, and whether the cancellation token is set
    when the promise is rejected. When the promise is resolved the call
    of [onComplete] is still at its first wait: the reconciliation and
    the verdict of the item being run come after the return. *)
Definition executeTestWithStreaming (cfg : Config) (test : TestItem)
    (run : Run) (chunks : list (Channel * jstring)) (ending : Ending)
    (isCancellationRequested : bool) : Exc Run :=
  let testNameMap := buildTestNameMap test in
  let s0 := mkStreaming run ∅ JsMap.empty [] in
  let '(e, cbs) := feed StreamingTestExecutor.fresh chunks in
  let '(_, cbs', settled) := onEnding e ending in
  s ← handleAll cfg testNameMap s0 (cbs ++ cbs');
  match settled with
  | Resolved => Ret (TestProvider.run s)
  | Rejected message =>
      Ret (TestProvider.run
             (onRejected testNameMap s message isCancellationRequested))
  end.

(** *** Buffered run: results parsed from the whole output *)

Record TestResult : Type := mkTestResult {
  passed : bool;
  output : jstring;
  file : option jstring
}.

(** [/^(tests\/[^\s]+\.php)/] *)
Definition fileRe : regex :=
  seq [Bol; Group 1 (seq [lit "tests/"; plus nonSpace; lit ".php"])].

(** [/[✓✗]\s+(\w+)/] *)
Definition checkmarkRe : regex :=
  seq [StreamingTestExecutor.glyph; plus s_; Group 1 (plus w_)].

(** [/(\w+):\s*(OK|FAILED|PASSED|ERROR)/i] *)
Definition colonRe : regex :=
  seq [Group 1 (plus w_); liti ":"; star s_;
       Group 2 StreamingTestExecutor.status].

(** [/(\w+)\s*\(/] *)
Definition parenRe : regex :=
  seq [Group 1 (plus w_); star s_; lit "("].

(** [/Test\s+[^\s]+:([A-Za-z0-9_]+)/] *)
Definition detailedErrorRe : regex :=
  seq [lit "Test"; plus s_; plus nonSpace; lit ":"; Group 1 (plus w_)].

(** The body of the loop of [parseTestResults] for one line; [next] is
    the line after it, if there is one. *)
Definition parseResultLine (line : jstring) (next : option jstring)
    (acc : JsMap.t TestResult * option jstring)
    : JsMap.t TestResult * option jstring :=
  let '(results, currentFile) := acc in
  let currentFile :=
    match exec fileRe line with
    | Some m => Some (group 1 m)
    | None => currentFile
    end in
  match exec checkmarkRe line with
  | Some m =>
      (JsMap.set results (group 1 m)
         (mkTestResult (includes line [checkmark]) line currentFile),
       currentFile)
  | None =>
  match exec colonRe line with
  | Some m =>
      (JsMap.set results (group 1 m)
         (mkTestResult (statusPassed (group 2 m)) line currentFile),
       currentFile)
  | None =>
  match exec parenRe line, next with
  | Some m, Some nextLine =>
      let isSuccess :=
        includes nextLine (str "OK") || includes nextLine (str "PASSED") in
      let isFailure :=
        includes nextLine (str "FAILED") || includes nextLine (str "FAILURE")
        || includes nextLine (str "ERROR") in
      if isSuccess || isFailure
      then (JsMap.set results (group 1 m)
              (mkTestResult isSuccess (line ++ [newline] ++ nextLine)
                            currentFile),
            currentFile)
      else (results, currentFile)
  | _, _ =>
  match exec detailedErrorRe line with
  | Some m =>
      (JsMap.set results (group 1 m) (mkTestResult false line currentFile),
       currentFile)
  | None => (results, currentFile)
  end end end end.

Fixpoint parseResultLines (lines : list jstring)
    (acc : JsMap.t TestResult * option jstring)
    : JsMap.t TestResult * option jstring :=
  match lines with
  | [] => acc
  | line :: rest =>
      parseResultLines rest (parseResultLine line (head rest) acc)
  end.

(** [parseTestResults] *)
Definition parseTestResults (stdout stderr : jstring) : JsMap.t TestResult :=
  let combinedOutput := join [newline] (filter (fun s => nonEmpty s = true) [stdout; stderr]) in
  let lines := split combinedOutput in
  fst (parseResultLines lines (JsMap.empty, None)).

Record FatalErrorInfo : Type := mkFatalErrorInfo {
  fe_message : jstring;
  fe_file : option jstring;
  fe_line : option N
}.

Definition fatalWord : regex := Alt (liti "Error") (liti "error").

(** The first pattern of [extractFatalErrorInfo], flag [i]: the text
    [<pre>PHP Fatal ] and [Error] or [error]; anything but quotes; the
    error class between quotes (group 1); anything but quotes;
    [with message], white space, the message between quotes (group 2);
    anything but [<]; [in], white space, the file, free of white space
    and colons (group 3); a colon and the digits of the line (group 4). *)
Definition htmlErrorRe : regex :=
  seq [liti "<pre>PHP Fatal "; fatalWord; star (notChr 39); liti "'";
       Group 1 (star (notChr 39)); liti "'"; star (notChr 39);
       liti "with message"; plus s_; liti "'";
       Group 2 (star (notChr 39)); liti "'"; star (notChr 60);
       liti "in"; plus s_;
       Group 3 (plus (Chr (fun c => negb (isSpace c || (c =? 58)))));
       liti ":"; Group 4 (plus d_)].

(** [/PHP Fatal error:\s+(.+?)\s+in\s+([^\s]+)\s+on line\s+(\d+)/i] *)
Definition plainErrorRe : regex :=
  seq [liti "PHP Fatal error:"; plus s_; Group 1 (lazyPlus (Chr isDot));
       plus s_; liti "in"; plus s_; Group 2 (plus nonSpace); plus s_;
       liti "on line"; plus s_; Group 3 (plus d_)].

(** [/PHP Fatal (?:Error|error):\s+(.+?)(?:\n|$)/i] *)
Definition genericErrorRe : regex :=
  seq [liti "PHP Fatal "; fatalWord; liti ":"; plus s_;
       Group 1 (lazyPlus (Chr isDot)); Alt (chr newline) Eol].

(** [extractFatalErrorInfo] *)
Definition extractFatalErrorInfo (stdout stderr : jstring)
    : option FatalErrorInfo :=
  let combinedOutput := stdout ++ [newline] ++ stderr in
  match exec htmlErrorRe combinedOutput with
  | Some m =>
      Some (mkFatalErrorInfo (group 1 m ++ str ": " ++ group 2 m)
              (Some (group 3 m)) (Some (parseInt (group 4 m))))
  | None =>
  match exec plainErrorRe combinedOutput with
  | Some m =>
      Some (mkFatalErrorInfo (group 1 m) (Some (group 2 m))
              (Some (parseInt (group 3 m))))
  | None =>
  match exec genericErrorRe combinedOutput with
  | Some m => Some (mkFatalErrorInfo (group 1 m) None None)
  | None => None
  end end end.

(** [items.forEach] with the position of each item. *)
Fixpoint forEach {A St : Type} (f : St -> nat -> A -> St) (l : list A)
    (i : nat) (s : St) : St :=
  match l with
  | [] => s
  | x :: l' => forEach f l' (S i) (f s i x)
  end.

(** The counters [parseAndMarkChildren] keeps for the item being run. *)
Record Tally : Type := mkTally {
  foundAnyResults : bool;
  allChildrenPassed : bool;
  someChildrenFailed : bool;
  ranChildrenCount : nat
}.

(** The counters kept for one file. *)
Record FileTally : Type := mkFileTally {
  fileHadResults : bool;
  fileAllPassed : bool;
  fileSomeFailed : bool;
  fileRanCount : nat
}.

(** [childFilePath && childFilePath.includes(fatalErrorInfo.file || '')] *)
Definition isFatalErrorFile (child : TestItem) (info : FatalErrorInfo) : bool :=
  match fsPath child with
  | Some childFilePath =>
      nonEmpty childFilePath
      && includes childFilePath (default [] (fe_file info))
  | None => false
  end.

(** The callback that fails one method of the file of a fatal error. *)
Definition failMethod (i : nat) (run : Run) (j : nat)
    (methodTest : TestItem) : Run :=
  markFailed [i; j] (started [i; j] run).

(** The branch taken when execution stopped early: one child. *)
Definition markFatal (info : FatalErrorInfo)
    (acc : Run * Tally) (i : nat) (child : TestItem) : Run * Tally :=
  let '(run, t) := acc in
  if isFatalErrorFile child info && Nat.ltb 0 (length (children child)) then
    let run := started [i] run in
    let t := mkTally true (allChildrenPassed t) true (ranChildrenCount t) in
    (* Mark all methods in this file as failed *)
    let run := forEach (failMethod i) (children child) 0%nat run in
    (* Mark the file as failed *)
    (markFailed [i] run, t)
  else acc.

(** Normal execution: one method of a file. *)
Definition markMethod (testResults : JsMap.t TestResult) (i : nat)
    (acc : Run * Tally * FileTally) (j : nat) (methodTest : TestItem)
    : Run * Tally * FileTally :=
  let '(run, t, f) := acc in
  let run := started [i; j] run in
  let methodName := extractMethodName (id methodTest) in
  match JsMap.get testResults methodName with
  | Some result =>
      let t := mkTally true (allChildrenPassed t) (someChildrenFailed t)
                       (S (ranChildrenCount t)) in
      let f := mkFileTally true (fileAllPassed f) (fileSomeFailed f)
                           (S (fileRanCount f)) in
      if passed result then (markPassed [i; j] run, t, f)
      else
        (markFailed [i; j] run,
         mkTally (foundAnyResults t) false true (ranChildrenCount t),
         mkFileTally (fileHadResults f) false true (fileRanCount f))
  | None =>
      (* Not mentioned in output -> assume success *)
      (markPassed [i; j] run,
       mkTally (foundAnyResults t) (allChildrenPassed t)
               (someChildrenFailed t) (S (ranChildrenCount t)),
       mkFileTally true (fileAllPassed f) (fileSomeFailed f)
                   (S (fileRanCount f)))
  end.

(** Normal execution: one child of the item being run. *)
Definition markChild (testResults : JsMap.t TestResult)
    (acc : Run * Tally) (i : nat) (child : TestItem) : Run * Tally :=
  let '(run, t) := acc in
  let run := started [i] run in
  if Nat.ltb 0 (length (children child)) then
    let '(run, t, f) :=
      forEach (markMethod testResults i) (children child) 0%nat
              (run, t, mkFileTally false true false 0) in
    (* Mark the file item based on its children's results *)
    if fileHadResults f then
      if fileSomeFailed f then (markFailed [i] run, t)
      else if fileAllPassed f
              && Nat.eqb (fileRanCount f) (length (children child))
      then (markPassed [i] run, t)
      else (run, t)
    else (run, t)
  else
    (* Leaf node (method level) *)
    let methodName := extractMethodName (id child) in
    match JsMap.get testResults methodName with
    | Some result =>
        let t := mkTally true (allChildrenPassed t) (someChildrenFailed t)
                         (S (ranChildrenCount t)) in
        if passed result then (markPassed [i] run, t)
        else (markFailed [i] run,
              mkTally (foundAnyResults t) false true (ranChildrenCount t))
    | None =>
        (markPassed [i] run,
         mkTally (foundAnyResults t) (allChildrenPassed t)
                 (someChildrenFailed t) (S (ranChildrenCount t)))
    end.

Definition totalChildren (parentTest : TestItem) : nat :=
  fold_left
    (fun count child =>
       (count + (if Nat.ltb 0 (length (children child))
                 then length (children child) else 1))%nat)
    (children parentTest) 0%nat.

(** The marking of the item being run, at the end. *)
Definition markParent (parentTest : TestItem) (hasFailures : bool)
    (acc : Run * Tally) : Run :=
  let '(run, t) := acc in
  if foundAnyResults t then
    if someChildrenFailed t || hasFailures then markFailed [] run
    else if allChildrenPassed t then
      if Nat.eqb (ranChildrenCount t) (totalChildren parentTest)
      then markPassed [] run
      else run
    else run
  else run.

(** [parseAndMarkChildren], given what [parseTestResults],
    [detectFatalError] and [extractFatalErrorInfo] return. *)
Definition markChildren (parentTest : TestItem) (run : Run)
    (testResults : JsMap.t TestResult) (hasFatalError : bool)
    (extracted : option FatalErrorInfo) (hasFailures : bool) : Run :=
  let fatalErrorInfo := if hasFatalError then extracted else None in
  let executionStoppedEarly :=
    hasFatalError && Nat.eqb (JsMap.size testResults) 0 in
  let t0 := mkTally false true false 0 in
  let acc :=
    match executionStoppedEarly, fatalErrorInfo with
    | true, Some info =>
        forEach (markFatal info) (children parentTest) 0%nat (run, t0)
    | _, _ =>
        forEach (markChild testResults) (children parentTest) 0%nat (run, t0)
    end in
  markParent parentTest hasFailures acc.

(** [parseAndMarkChildren] *)
Definition parseAndMarkChildren (parentTest : TestItem) (run : Run)
    (stdout stderr : jstring) (hasFailures : bool) : Run :=
  markChildren parentTest run
    (parseTestResults stdout stderr)
    (detectFatalError stdout stderr)
    (extractFatalErrorInfo stdout stderr)
    hasFailures.

(** *** Docker errors *)

(** [getDockerErrorMessage] *)
Definition getDockerErrorMessage (errorMessage stderr : jstring) : jstring :=
  let combinedError := toLowerCase (errorMessage ++ str " " ++ stderr) in
  if includes combinedError (str "command not found")
     || includes combinedError (str "not recognized")
     || includes combinedError (str "enoent")
  then str "Docker command not found. Please ensure Docker is installed and in your PATH."
  else if includes combinedError (str "cannot connect to the docker daemon")
  then str "Cannot connect to Docker daemon. Please ensure Docker Desktop or Docker service is running."
  else if includes combinedError (str "no such container")
  then str "Container not found. The configured container may have stopped. Please select a running container."
  else if includes combinedError (str "is not running")
  then str "Container is not running. Please start the container or select a different one."
  else if includes combinedError (str "permission denied")
  then str "Permission denied accessing Docker. You may need to add your user to the docker group."
  else errorMessage.

(** *** The command of a run *)

(** The settings [buildTestCommand] reads: [binary.args] (['--steps']
    when unset), [docker.enabled], [docker.container] and
    [docker.workdir]. *)
Record Settings : Type := mkSettings {
  binaryArgs : jstring;
  dockerEnabled : bool;
  dockerContainer : jstring;
  dockerWorkdir : jstring
}.

(** An element of a destructured array inside a template: the text
    [undefined] when the array is too short. *)
Definition element (parts : list jstring) (n : nat) : jstring :=
  nth n parts (str "undefined").

(** [buildTestCommand] *)
Definition buildTestCommand (workspaceRoot : jstring) (config : Settings)
    (binary testId : jstring) (coverageFilePath : option jstring) : jstring :=
  let hasMethodSeparator := includes testId (str "::") in
  let hasFileSeparator := includes testId (str ":") in
  let command :=
    if hasMethodSeparator then
      (* Method level: "suite:file::method" *)
      let parts := splitOn (str "::") testId 0 in
      let fileId := element parts 0 in
      let method := element parts 1 in
      let parts := take 2 (splitOn (str ":") fileId 0) in
      binary ++ str " run " ++ element parts 0 ++ str " " ++ element parts 1
        ++ str ":" ++ method
    else if hasFileSeparator then
      (* File level: "suite:file" *)
      let parts := take 2 (splitOn (str ":") testId 0) in
      binary ++ str " run " ++ element parts 0 ++ str " " ++ element parts 1
    else
      (* Suite level: "suite" *)
      binary ++ str " run " ++ testId in
  (* Add user-specified arguments/flags *)
  let command :=
    if nonEmpty (binaryArgs config)
    then command ++ str " " ++ binaryArgs config else command in
  (* Add XML output flag *)
  let command := command ++ str " --xml" in
  let coverage :=
    match coverageFilePath with Some f => nonEmpty f | None => false end in
  let command :=
    if coverage then command ++ str " --coverage --coverage-xml"
    else command in
  if dockerEnabled config then
    if negb (nonEmpty (dockerContainer config)) then command
    else
      let workdir :=
        if nonEmpty (dockerWorkdir config) then dockerWorkdir config
        else workspaceRoot in
      let envFlag :=
        if coverage then str "-e XDEBUG_MODE=coverage " else [] in
      str "docker exec " ++ envFlag ++ str "-w " ++ [34] ++ workdir ++ [34]
        ++ str " " ++ dockerContainer config ++ str " " ++ command
  else command.

(** *** Running one item *)

(** [parseXmlForSingleTest]: the run and whether the report decided the
    test; the test is the item being run. *)
Definition parseXmlForSingleTest (cfg : Config) (test : TestItem) (run : Run)
    : Exc (Run * bool) :=
  tryCatch
    (if negb (JunitParser.existsSync (files cfg) (xmlPath cfg))
     then Ret (run, false)
     else
       xmlResults ← readReport cfg;
       if Nat.eqb (JsMap.size xmlResults) 0 then Ret (run, false)
       else
         let methodName := extractMethodName (id test) in
         match JsMap.get xmlResults methodName with
         | None => Ret (run, false)
         | Some xmlResult =>
             if xmlPassed xmlResult then Ret (markPassed [] run, true)
             else Ret (markFailed [] run, true)
         end)
    (fun _ => Ret (run, false)).

(** What [execAsync] gives: the output of a command that exited with
    code 0, or the error of one that did not, with its message and the
    output it carries. *)
Inductive ExecResult : Type :=
| Exited (stdout stderr : jstring)
| ExecFailed (message stdout stderr : jstring).

(** The fallback of [runTest] for a method when the report did not decide. *)
Definition leafFallback (stdout stderr : jstring) (run : Run) : Run :=
  let hasFatalError := detectFatalError stdout stderr in
  let hasFailures :=
    includes stdout (str "FAILURES!") || includes stdout (str "FAILED")
    || includes stderr (str "FAILED") || hasFatalError in
  let hasPassed :=
    includes stdout (str "OK (") || includes stdout (str "PASSED")
    || includes stdout [checkmark] in
  if hasFailures then markFailed [] run
  else if hasPassed then markPassed [] run
  else markPassed [] run.

(** The [catch] block of [runTest]. *)
Definition runTestCatch (test : TestItem) (run : Run)
    (errorMessage stdout stderr : jstring) : Run :=
  if isDockerError errorMessage stderr then markFailed [] run
  else
    let hasFatalError := detectFatalError stdout stderr in
    let hasFailures :=
      includes stdout (str "FAILURES!") || includes stdout (str "ERRORS!")
      || includes stderr (str "FAILED")
      || includes stdout (str "There was 1 error")
      || includes stdout (str "There were") || hasFatalError in
    if Nat.ltb 0 (length (children test)) && nonEmpty stdout
    then parseAndMarkChildren test run stdout stderr hasFailures
    else markFailed [] run.

(** [runTest]: an item with children is run with streaming, a method
    with [execAsync]. *)
Definition runTest (cfg : Config) (test : TestItem) (run : Run)
    (exec : ExecResult)
    (chunks : list (Channel * jstring)) (ending : Ending)
    (isCancellationRequested : bool) : Exc Run :=
  let run := started [] run in
  tryCatch
    (if Nat.ltb 0 (length (children test))
     then executeTestWithStreaming cfg test run chunks ending
                                   isCancellationRequested
     else
       match exec with
       | Exited stdout stderr =>
           r ← parseXmlForSingleTest cfg test run;
           let run : Run := fst r in
           let xmlParsed : bool := snd r in
           if xmlParsed then Ret run
           else Ret (leafFallback stdout stderr run)
       | ExecFailed message stdout stderr =>
           Ret (runTestCatch test run message stdout stderr)
       end)
    (fun message => Ret (runTestCatch test run message [] [])).

(** The state of an item at the end of a run that did not throw. *)
Definition outcomeOf (r : Exc Run) (p : path) : option Outcome :=
  match r with
  | Ret run => Some (stateOf run p)
  | Throw _ => None
  end.

End TestProvider.

(** * Vocabulary of the specification

    What the specification calls a node registered in the name index, a
    node mentioned by a streaming outcome or by a report entry, and the
    outcome either source gives it, in terms of the maps of a run. *)

Module Mention.

Import TestProvider.

Definition resolves (testNameMap : JsMap.t path) (testName : jstring)
    (p : path) : bool :=
  bool_decide (JsMap.get testNameMap testName = Some p).

(** The entry of the report is not skipped as a duplicate variant and
    its name resolves to the item. *)
Definition entryFor (xmlResults : JsMap.t JunitParser.JUnitTestResult)
    (testNameMap : JsMap.t path) (p : path)
    (e : jstring * JunitParser.JUnitTestResult) : bool :=
  negb (isDuplicateVariant xmlResults (fst e)) && resolves testNameMap (fst e) p.

(** The report has an entry for the item. *)
Definition reported (xmlResults : JsMap.t JunitParser.JUnitTestResult)
    (testNameMap : JsMap.t path) (p : path) : bool :=
  existsb (entryFor xmlResults testNameMap p) (JsMap.entries xmlResults).

(** The report has an entry for the item, and the status of its entries
    for the item is [passed] exactly when [xmlPassed]. *)
Definition reportSays (xmlResults : JsMap.t JunitParser.JUnitTestResult)
    (testNameMap : JsMap.t path) (p : path) (xmlPassed : bool) : bool :=
  reported xmlResults testNameMap p
  && forallb (fun e => implb (entryFor xmlResults testNameMap p e)
                             (Bool.eqb (bool_decide (JunitParser.status (snd e)
                                                     = JunitParser.passed))
                                       xmlPassed))
             (JsMap.entries xmlResults).

(** The streaming results have an entry for the item, and their entries
    for the item say [passed]. *)
Definition streamingSays (testResults : JsMap.t (bool * jstring))
    (testNameMap : JsMap.t path) (p : path) (passed : bool) : bool :=
  existsb (fun e => resolves testNameMap (fst e) p) (JsMap.entries testResults)
  && forallb (fun e => implb (resolves testNameMap (fst e) p)
                             (Bool.eqb (fst (snd e)) passed))
             (JsMap.entries testResults).

(** The names seen that resolve to the item have a streaming result,
    and it is the opposite of [x]. *)
Definition disagrees (testNameMap : JsMap.t path)
    (testResults : JsMap.t (bool * jstring)) (p : path) (x : bool)
    (seen : gset jstring) : Prop :=
  forall k, k ∈ seen -> JsMap.get testNameMap k = Some p ->
    exists sr, JsMap.get testResults k = Some sr /\ fst sr = negb x.

(** Every name seen has a streaming result, as [onTestResult] keeps it. *)
Definition seenHaveResults (seenTests : gset jstring)
    (testResults : JsMap.t (bool * jstring)) : bool :=
  forallb (fun k => JsMap.has testResults k) (elements seenTests).

(** The outcome a report status stands for. *)
Definition verdict (xmlPassed : bool) : Outcome :=
  if xmlPassed then Passed else Failed.

(** The report file is not there. *)
Definition reportAbsent (cfg : Config) : bool :=
  negb (JunitParser.existsSync (files cfg) (xmlPath cfg)).

(** Reading or parsing the report throws. *)
Definition reportUnusable (cfg : Config) : bool :=
  match JunitParser.parseJUnitXmlBody (files cfg) (xmlPath cfg)
          (containerXmlPath cfg) (fst <$> dockerConfig cfg) with
  | Throw _ => true
  | Ret _ => false
  end.

(** The report a run reads. *)
Definition reportOf (cfg : Config) : JsMap.t JunitParser.JUnitTestResult :=
  match readReport cfg with
  | Ret xmlResults => xmlResults
  | Throw _ => JsMap.empty
  end.

(** The report yields no result: an empty file, no test suite, no named
    test case. *)
Definition reportEmpty (cfg : Config) : bool :=
  Nat.eqb (JsMap.size (reportOf cfg)) 0.

End Mention.

(** * Vocabulary of the aggregation *)

Module Aggregate.

Import TestProvider.

Definition hasChildren (t : TestItem) : bool :=
  Nat.ltb 0 (length (children t)).

(** The outcome normal execution gives a method: the parsed result of
    its name, [Passed] without one. *)
Definition methodOutcome (testResults : JsMap.t TestResult)
    (methodTest : TestItem) : Outcome :=
  match JsMap.get testResults (extractMethodName (id methodTest)) with
  | Some result => if passed result then Passed else Failed
  | None => Passed
  end.

(** The leaf at a position below the item being run: a child without
    children, or a child of a child. *)
Definition leafAt (parentTest : TestItem) (p : path) : option TestItem :=
  match p with
  | [i] =>
      match children parentTest !! i with
      | Some child => if hasChildren child then None else Some child
      | None => None
      end
  | [i; j] =>
      match children parentTest !! i with
      | Some child => children child !! j
      | None => None
      end
  | _ => None
  end.

Definition methodsOf (i : nat) (child : TestItem) : list path :=
  map (fun j => [i; j]) (List.seq 0%nat (length (children child))).

(** The declared leaves of a container: the methods of a file, and for
    the item being run what [totalChildren] counts. *)
Definition leavesOf (parentTest : TestItem) (c : path) : list path :=
  match c with
  | [] =>
      concat (imap (fun i child =>
                      if hasChildren child then methodsOf i child else [[i]])
                   (children parentTest))
  | [i] =>
      match children parentTest !! i with
      | Some child => methodsOf i child
      | None => []
      end
  | _ => []
  end.

(** The containers: the item being run and its children with children. *)
Definition isContainer (parentTest : TestItem) (c : path) : bool :=
  match c with
  | [] => true
  | [i] =>
      match children parentTest !! i with
      | Some child => hasChildren child
      | None => false
      end
  | _ => false
  end.

(** The branch for an execution that stopped early is taken. *)
Definition earlyAbort (testResults : JsMap.t TestResult)
    (hasFatalError : bool) (extracted : option FatalErrorInfo) : bool :=
  hasFatalError && Nat.eqb (JsMap.size testResults) 0
  && match extracted with Some _ => true | None => false end.

(** The position is that of one of the first [n] methods of child [i]. *)
Definition inFile (i n : nat) (p : path) : bool :=
  match p with
  | [i'; j] => Nat.eqb i' i && Nat.ltb j n
  | _ => false
  end.

(** A child marked by that branch: a file with methods whose path
    contains the file of the fatal error. *)
Definition fatalFile (info : FatalErrorInfo) (child : TestItem) : bool :=
  isFatalErrorFile child info && hasChildren child.

(** The positions that branch marks: such files, their methods, and the
    item being run when there is such a file. *)
Definition affected (parentTest : TestItem) (info : FatalErrorInfo)
    (p : path) : bool :=
  match p with
  | [] => existsb (fatalFile info) (children parentTest)
  | [i] =>
      match children parentTest !! i with
      | Some child => fatalFile info child
      | None => false
      end
  | [i; j] =>
      match children parentTest !! i with
      | Some child => fatalFile info child && Nat.ltb j (length (children child))
      | None => false
      end
  | _ => false
  end.

(** The file of the fatal error and its methods, as the specification
    names them. *)
Definition fatalFileOrMethod (parentTest : TestItem) (info : FatalErrorInfo)
    (p : path) : bool :=
  match p with
  | [] => false
  | _ => affected parentTest info p
  end.

(** Early-abort scoping as the specification states it: on a fatal
    error without parsed results, the file of the fatal error and its
    methods are [Failed] and every other item is as before. *)
Definition earlyAbortScopingAsStated (parentTest : TestItem)
    (run : gmap (list nat) Outcome) (stdout stderr : jstring)
    (hasFailures : bool) : Prop :=
  detectFatalError stdout stderr = true ->
  JsMap.size (parseTestResults stdout stderr) = 0%nat ->
  forall p : path,
    stateOf (parseAndMarkChildren parentTest run stdout stderr hasFailures) p
    = if match extractFatalErrorInfo stdout stderr with
         | Some info => fatalFileOrMethod parentTest info p
         | None => false
         end
      then Failed else stateOf run p.

End Aggregate.

(** * The command line of the executor

    [StreamingTestExecutor.parseCommand] (streamingExecutor.ts). *)

Module CommandLine.

Record Scan : Type := mkScan {
  parts : list jstring;
  current : jstring;
  inQuotes : bool;
  quoteChar : option N
}.

Definition isQuote (c : N) : bool := (c =? 34) || (c =? 39).

(** The body of the loop over the characters of the command. *)
Definition scanChar (st : Scan) (char : N) : Scan :=
  if isQuote char && negb (inQuotes st)
  then mkScan (parts st) (current st) true (Some char)
  else if bool_decide (Some char = quoteChar st) && inQuotes st
  then mkScan (parts st) (current st) false None
  else if (char =? 32) && negb (inQuotes st)
  then
    if nonEmpty (trim (current st))
    then mkScan (parts st ++ [trim (current st)]) [] (inQuotes st) (quoteChar st)
    else st
  else mkScan (parts st) (current st ++ [char]) (inQuotes st) (quoteChar st).

Record Command : Type := mkCommand {
  executable : jstring;
  args : list jstring
}.

(** [parseCommand] *)
Definition parseCommand (command : jstring) : Exc Command :=
  let st := fold_left scanChar command (mkScan [] [] false None) in
  let parts :=
    if nonEmpty (trim (current st)) then parts st ++ [trim (current st)]
    else parts st in
  match parts with
  | [] => Throw (str "Empty command")
  | executable :: args => Ret (mkCommand executable args)
  end.

End CommandLine.

(** * Vocabulary of the further properties *)

Module Language.

(** The strings a pattern can match, position aside: [Bol] and [Eol]
    match the empty string. *)
Inductive matches : regex -> jstring -> Prop :=
| m_eps : matches Eps []
| m_chr p x : p x = true -> matches (Chr p) [x]
| m_cat a b u v : matches a u -> matches b v -> matches (Cat a b) (u ++ v)
| m_alt_l a b u : matches a u -> matches (Alt a b) u
| m_alt_r a b u : matches b u -> matches (Alt a b) u
| m_star_nil g a : matches (Star g a) []
| m_star_cons g a u v :
    matches a u -> matches (Star g a) v -> matches (Star g a) (u ++ v)
| m_group n a u : matches a u -> matches (Group n a) u
| m_bol : matches Bol []
| m_eol : matches Eol [].

(** Every group of the pattern captures strings with the property. *)
Fixpoint groupsOK (P : nat -> jstring -> Prop) (r : regex) : Prop :=
  match r with
  | Cat a b | Alt a b => groupsOK P a /\ groupsOK P b
  | Star _ a => groupsOK P a
  | Group n a => (forall u, matches a u -> P n u) /\ groupsOK P a
  | _ => True
  end.

(** Every match of the pattern goes through group [n]. *)
Fixpoint binds (n : nat) (r : regex) : bool :=
  match r with
  | Cat a b => binds n a || binds n b
  | Alt a b => binds n a && binds n b
  | Group m a => Nat.eqb n m || binds n a
  | _ => false
  end.

Definition capsOK (P : nat -> jstring -> Prop) (c : captures) : Prop :=
  forall n v, In (n, v) c -> P n v.

Definition hasGroup (n : nat) (c : captures) : Prop :=
  exists v, In (n, v) c.

(** A test name as the patterns capture it: one or more of [A-Za-z0-9_]. *)
Definition isName (s : jstring) : Prop :=
  s <> [] /\ forallb isWord s = true.

(** The friendly messages of [getDockerErrorMessage]. *)
Definition dockerMessages : list jstring :=
  [str "Docker command not found. Please ensure Docker is installed and in your PATH.";
   str "Cannot connect to Docker daemon. Please ensure Docker Desktop or Docker service is running.";
   str "Container not found. The configured container may have stopped. Please select a running container.";
   str "Container is not running. Please start the container or select a different one.";
   str "Permission denied accessing Docker. You may need to add your user to the docker group."].

(** A word of a command line that needs no quoting: not empty, free of
    white space and of quotes. *)
Definition plainChar (c : N) : bool :=
  negb (isSpace c) && negb (CommandLine.isQuote c).

Definition plainWord (w : jstring) : bool :=
  nonEmpty w && forallb plainChar w.

End Language.

Module Names.

Import TestProvider.

(** The item at a position below an item. *)
Fixpoint itemAt (t : TestItem) (p : list nat) : option TestItem :=
  match p with
  | [] => Some t
  | i :: p' =>
      match children t !! i with
      | Some child => itemAt child p'
      | None => None
      end
  end.

(** The names [register] enters for a method name. *)
Definition variants (methodName : jstring) : list jstring :=
  [methodName; toLowerCase methodName]
  ++ if startsWith (toLowerCase methodName) (str "test")
     then [substring 4 methodName; toLowerCase (substring 4 methodName)]
     else [].

(** The first result of a name among the callbacks. *)
Fixpoint firstResult (testName : jstring) (cbs : list Callback)
    : option (bool * jstring) :=
  match cbs with
  | [] => None
  | OnTestResult n passed output :: rest =>
      if decide (n = testName) then Some (passed, output)
      else firstResult testName rest
  | _ :: rest => firstResult testName rest
  end.

(** Every entry of the map leads to an item below the root, under one
    of the names of its method. *)
Definition sound (root : TestItem) (m : JsMap.t path) : Prop :=
  forall k p, In (k, p) (JsMap.entries m) ->
    p <> []
    /\ exists item,
         itemAt root p = Some item
         /\ includes (id item) (str "::") = true
         /\ In k (variants (extractMethodName (id item))).

(** What the [onOutput] calls among the callbacks hand over. *)
Definition outputs (cbs : list Callback) : jstring :=
  flat_map (fun cb => match cb with OnOutput data => data | _ => [] end) cbs.

(** The report knows the result under the name. *)
Definition namedBy (k : jstring) (r : JunitParser.JUnitTestResult) : bool :=
  bool_decide (k ∈ variants (JunitParser.name r)).

(** The last of the results known under the name, [acc] without one. *)
Definition lastNamed (k : jstring) (rs : list JunitParser.JUnitTestResult)
    (acc : option JunitParser.JUnitTestResult)
    : option JunitParser.JUnitTestResult :=
  fold_left (fun acc r => if namedBy k r then Some r else acc) rs acc.

(** The results of the named test cases of the report, in its order. *)
Definition parsedCases (testsuites : list JunitParser.RawTestSuite)
    : list JunitParser.JUnitTestResult :=
  flat_map (fun testsuite =>
              map (fun testcase =>
                     JunitParser.parseTestCase testcase
                       (JunitParser.ts_name testsuite))
                  (filter (fun testcase => JunitParser.hasName testcase = true)
                          (JunitParser.ts_testcase testsuite)))
           testsuites.

(** The process ends by a ['close'] event that resolves the promise. *)
Definition closesNormally (ending : Ending) : bool :=
  match ending with
  | Close _ (Some signal) => negb (bool_decide (signal = str "SIGTERM"))
  | Close _ None => true
  | ProcessError _ _ _ | TimedOut => false
  end.

(** The last code unit of the string is an ASCII character outside
    [A-Za-z0-9_]. *)
Definition endsOutsideWord (s : jstring) : bool :=
  match rev s with
  | c :: _ => (c <? 128) && negb (isWord c)
  | [] => false
  end.

(** No colon in the string. *)
Definition colonFree (s : jstring) : bool :=
  forallb (fun c => negb (c =? 58)) s.

(** The callbacks of the output: no completion, no error. *)
Definition isOutput (cb : Callback) : bool :=
  match cb with
  | OnOutput _ | OnTestResult _ _ _ => true
  | OnComplete _ | OnError _ => false
  end.

End Names.

Module Verdicts.

Import TestProvider Aggregate.

(** The name of the item has a parsed result. *)
Definition mentioned (testResults : JsMap.t TestResult) (t : TestItem) : bool :=
  JsMap.has testResults (extractMethodName (id t)).

Definition mentionedIn (testResults : JsMap.t TestResult)
    (ts : list TestItem) : bool :=
  existsb (mentioned testResults) ts.

(** The parsed result of the item's name is a failure. *)
Definition failedLeaf (testResults : JsMap.t TestResult) (t : TestItem) : bool :=
  bool_decide (methodOutcome testResults t = Failed).

Definition failedIn (testResults : JsMap.t TestResult)
    (ts : list TestItem) : bool :=
  existsb (failedLeaf testResults) ts.

(** The leaves below a child: its methods, or the child itself. *)
Definition leafItemsOf (child : TestItem) : list TestItem :=
  if hasChildren child then children child else [child].

(** The leaves below the item being run. *)
Definition leafItems (parentTest : TestItem) : list TestItem :=
  flat_map leafItemsOf (children parentTest).

End Verdicts.

(** * Scenarios

    The concrete inputs the properties below are checked on. *)

Module Scenario.

Import JunitParser.
Import TestProvider.

(** The line a failure glyph starts, with a success glyph further on. *)
Definition mixedGlyphLine : jstring :=
  [crossmark] ++ str " testLogout " ++ [checkmark].

(** A line of standard output cut in two by a chunk of standard error. *)
Definition interleaved : list (Channel * jstring) :=
  [(Stdout, [checkmark] ++ str " test");
   (Stderr, str "Warning" ++ [newline]);
   (Stdout, str "Login" ++ [newline])].

(** The testcase [<testcase name="testPending"><skipped/></testcase>]:
    its [skipped] child has neither attributes nor text. *)
Definition skippedCase : RawTestCase :=
  mkRawTestCase (Some (str "testPending")) None None None
                Absent Absent (Text []).

(** The testcase with a [failure] child carrying a message and an empty
    [error] child. *)
Definition failureAndEmptyError : RawTestCase :=
  mkRawTestCase (Some (str "testBroken")) None None None
                (Elem [(str "message", str "boom")]) (Text []) Absent.

(** The suite [unit] with two files. *)
Definition loginTest : jstring := str "/w/tests/unit/LoginTest.php".
Definition fooTest : jstring := str "/w/tests/unit/FooTest.php".

Definition unitSuite : TestItem :=
  Item (str "unit") (Some (str "/w/tests/unit"))
    [Item (str "unit:tests/unit/LoginTest.php") (Some loginTest)
       [Item (str "unit:tests/unit/LoginTest.php::testLogin") (Some loginTest) [];
        Item (str "unit:tests/unit/LoginTest.php::testLogout") (Some loginTest) []];
     Item (str "unit:tests/unit/FooTest.php") (Some fooTest)
       [Item (str "unit:tests/unit/FooTest.php::testBar") (Some fooTest) []]].

Definition testLogin : path := [0; 0]%nat.
Definition testLogout : path := [0; 1]%nat.
Definition testBar : path := [1; 0]%nat.

(** No report on the disk. *)
Definition noReport : Config :=
  mkConfig (str "/w") None
    (mkFiles (fun _ => false) (fun _ => Throw (str "ENOENT"))
             (fun _ _ => None) (fun _ => Throw (str "no input"))).

(** A report that is not XML. *)
Definition malformedReport : Config :=
  mkConfig (str "/w") None
    (mkFiles (fun _ => true) (fun _ => Ret (str "<testsuites><testsuite"))
             (fun _ _ => None) (fun _ => Throw (str "Unclosed root tag"))).

(** A report in which [testLogin] passed. *)
Definition loginPassedReport : Config :=
  mkConfig (str "/w") None
    (mkFiles (fun _ => true) (fun _ => Ret (str "<testsuites>...</testsuites>"))
             (fun _ _ => None)
             (fun _ =>
                Ret (Testsuites
                       [mkRawTestSuite (Some (str "unit"))
                          [mkRawTestCase (Some (str "testLogin")) None None
                                         None Absent Absent Absent]]))).

(** The output of a run in which [testLogin] failed. *)
Definition loginFailedOutput : list (Channel * jstring) :=
  [(Stdout, [crossmark] ++ str " testLogin" ++ [newline])].

(** The run when the callbacks of that output have been handled. *)
Definition afterLoginFailed : Exc Streaming :=
  handleAll noReport (buildTestNameMap unitSuite)
            (mkStreaming ∅ ∅ JsMap.empty [])
            (snd (feed StreamingTestExecutor.fresh loginFailedOutput)).

Definition cancelled : Ending := Close None (Some (str "SIGTERM")).

(** The run of [afterLoginFailed], written out. *)
Definition loginFailed : Streaming :=
  mkStreaming (<[testLogin := Failed]> ∅) {[str "testLogin"]}
              (JsMap.set JsMap.empty (str "testLogin")
                         (false, [crossmark] ++ str " testLogin"))
              ([crossmark] ++ str " testLogin" ++ [newline]).

(** The output of a run that a fatal error in [FooTest.php] stopped
    before any test. *)
Definition fatalOutput : jstring :=
  str "PHP Fatal error:  Trait 'Helper' not found in /w/tests/unit/FooTest.php on line 228".

(** A fatal error printed without the prefix the extraction looks for. *)
Definition fatalWithoutPrefix : jstring :=
  str "Fatal error: Uncaught Error: Call to undefined function helper()".

(** A fatal error printed without a location. *)
Definition fatalWithoutLocation : jstring :=
  str "PHP Fatal error: Allowed memory size exhausted".

(** Two files with a method of the same name. *)
Definition adminTest : jstring := str "/w/tests/unit/AdminTest.php".

Definition twoFiles : TestItem :=
  Item (str "unit") (Some (str "/w/tests/unit"))
    [Item (str "unit:tests/unit/LoginTest.php") (Some loginTest)
       [Item (str "unit:tests/unit/LoginTest.php::testLogin") (Some loginTest) []];
     Item (str "unit:tests/unit/AdminTest.php") (Some adminTest)
       [Item (str "unit:tests/unit/AdminTest.php::testLogin") (Some adminTest) []]].

(** The run of [twoFiles] when the process has written nothing and
    [runTest] has started the suite. *)
Definition silentRun : Streaming :=
  mkStreaming (started [] ∅) ∅ JsMap.empty [].

(** Two files with methods whose names differ by the case of a letter. *)
Definition lowerTest : jstring := str "/w/tests/unit/LowerTest.php".

Definition caseTwins : TestItem :=
  Item (str "unit") (Some (str "/w/tests/unit"))
    [Item (str "unit:tests/unit/LoginTest.php") (Some loginTest)
       [Item (str "unit:tests/unit/LoginTest.php::testLogin") (Some loginTest) []];
     Item (str "unit:tests/unit/LowerTest.php") (Some lowerTest)
       [Item (str "unit:tests/unit/LowerTest.php::testlogin") (Some lowerTest) []]].

Definition twinLower : path := [1; 0]%nat.

(** The report of their run: [testLogin] of [LoginTest] failed,
    [testlogin] of [LowerTest] passed. *)
Definition twinsCases : list RawTestSuite :=
  [mkRawTestSuite (Some (str "unit"))
     [mkRawTestCase (Some (str "testLogin")) (Some (str "LoginTest")) None
                    None (Elem [(str "message", str "Failed asserting")])
                    Absent Absent;
      mkRawTestCase (Some (str "testlogin")) (Some (str "LowerTest")) None
                    None Absent Absent Absent]].

Definition twinsReport : Config :=
  mkConfig (str "/w") None
    (mkFiles (fun _ => true) (fun _ => Ret (str "<testsuites>...</testsuites>"))
             (fun _ _ => None) (fun _ => Ret (Testsuites twinsCases))).

(** The output of that run as the patterns read it: [testLogin] passed. *)
Definition twinsOutput : list (Channel * jstring) :=
  [(Stdout, [checkmark] ++ str " testLogin" ++ [newline])].

Definition twinsStreamed : Exc Streaming :=
  handleAll twinsReport (buildTestNameMap caseTwins)
            (mkStreaming (started [] ∅) ∅ JsMap.empty [])
            (snd (feed StreamingTestExecutor.fresh twinsOutput)).

(** The bytes of the line of a passed [testLogin], and the two buffers
    the pipe hands over when it cuts the line after the first byte of
    the glyph. *)
Definition glyphBytes : list Byte.byte := [Byte.xe2; Byte.x9c; Byte.x93].

Definition passedLine : list Byte.byte :=
  glyphBytes ++ list_byte_of_string " testLogin" ++ [Byte.x0a].

Definition cutInGlyph : list (list Byte.byte) :=
  [[Byte.xe2];
   [Byte.x9c; Byte.x93] ++ list_byte_of_string " testLogin" ++ [Byte.x0a]].

(** The states a previous run left. *)
Definition previousRun : gmap (list nat) Outcome :=
  <[testLogin := Passed]> (<[testLogout := Failed]> ∅).

End Scenario.

(** * Properties *)

Import TestProvider.
Import Scenario.

(** ** Splitting into lines *)

Section Lines.

Lemma split_not_nil (s : jstring) : split s <> [].
Proof.
  induction s as [|c s IH]; simpl; [discriminate|].
  destruct (c =? newline); [discriminate|].
  destruct (split s); discriminate.
Qed.

(** The lines of [a ++ b] are the complete lines of [a], then the lines
    of the last fragment of [a] followed by [b]. *)
Lemma split_app (a b : jstring) :
  split (a ++ b)
  = removelast (split a) ++ split (List.last (split a) [] ++ b).
Proof.
  induction a as [|c a IH]; [reflexivity|].
  cbn [app split].
  pose proof (split_not_nil a) as Hne.
  destruct (c =? newline) eqn:E.
  - rewrite IH. destruct (split a) as [|l ls]; [congruence|]. reflexivity.
  - rewrite IH. destruct (split a) as [|l ls]; [congruence|].
    destruct ls as [|l2 ls]; cbn [removelast List.last app].
    + cbn [split app]. rewrite E. reflexivity.
    + reflexivity.
Qed.

End Lines.

(** ** The streaming classifier *)

Section Classifier.

Lemma removelast_app_split (ls : list jstring) (s : jstring) :
  removelast (ls ++ split s) = ls ++ removelast (split s).
Proof. apply removelast_app, split_not_nil. Qed.

Lemma last_app_split (ls : list jstring) (s : jstring) :
  List.last (ls ++ split s) [] = List.last (split s) [].
Proof.
  pose proof (split_not_nil s) as Hne.
  induction ls as [|l ls IH]; [reflexivity|].
  cbn [app List.last]. destruct (ls ++ split s) eqn:E; [|exact IH].
  apply app_eq_nil in E as [_ E]. congruence.
Qed.

(** One chunk [c1 ++ c2] is processed as [c1] followed by [c2]. *)
Lemma processChunk_app (e : Executor) (c1 c2 : jstring) :
  processChunk e (c1 ++ c2)
  = let '(e1, cbs1) := processChunk e c1 in
    let '(e2, cbs2) := processChunk e1 c2 in
    (e2, cbs1 ++ cbs2).
Proof.
  unfold processChunk. cbn [lineBuffer stderrBuffer].
  rewrite (app_assoc (lineBuffer e) c1 c2), split_app.
  rewrite removelast_app_split, last_app_split, flat_map_app.
  reflexivity.
Qed.

Lemma processChunks_cons (e : Executor) (c : jstring) (cs : list jstring) :
  processChunks e (c :: cs) = processChunk e (concat (c :: cs)).
Proof.
  revert e c. induction cs as [|c' cs IH]; intros e c.
  - cbn [processChunks concat]. rewrite app_nil_r.
    destruct (processChunk e c) as [e1 cbs1]. now rewrite app_nil_r.
  - change (concat (c :: c' :: cs)) with (c ++ concat (c' :: cs)).
    rewrite processChunk_app.
    cbn [processChunks] in *.
    destruct (processChunk e c) as [e1 cbs1].
    specialize (IH e1 c'). rewrite IH. reflexivity.
Qed.

(** Once the chunks are decoded, their boundaries do not matter:
    starting from the empty carry-over buffer, feeding the decoded
    chunks of a stream one at a time through [processChunk] leaves the
    same buffer and makes the same calls of [onTestResult], in the same
    order, as feeding their concatenation as one chunk. *)
Theorem chunk_boundary_independence (chunks : list jstring) :
  processChunks StreamingTestExecutor.fresh chunks
  = processChunk StreamingTestExecutor.fresh (concat chunks).
Proof.
  destruct chunks as [|c cs]; [reflexivity|].
  apply processChunks_cons.
Qed.

(** C6. The boundaries of the buffers do matter: each ['data'] handler
    decodes its buffer on its own, so the line of a passed [testLogin]
    cut after the first byte of its glyph is decoded as three
    replacement characters and [ testLogin], which no pattern matches;
    the same bytes in one buffer give the result of [testLogin]. *)
Theorem chunk_cut_inside_glyph :
  concat cutInGlyph = passedLine
  /\ toString passedLine = [checkmark] ++ str " testLogin" ++ [newline]
  /\ map toString cutInGlyph
     = [[replacement];
        [replacement; replacement] ++ str " testLogin" ++ [newline]]
  /\ results (snd (feedBuffers StreamingTestExecutor.fresh
                     [(Stdout, passedLine)]))
     = [(str "testLogin", true)]
  /\ results (snd (feedBuffers StreamingTestExecutor.fresh
                     (map (fun b => (Stdout, b)) cutInGlyph)))
     = [].
Proof. vm_compute. repeat split. Qed.

(** C7. The glyph recognizer does not take the outcome from the glyph
    it matched: on the line "✗ testLogout ✓" it matches the failure
    glyph before [testLogout] and reports the test as passed, because
    the outcome is whether the line contains the success glyph. *)
Theorem parseLine_glyph_outcome_from_line :
  exec StreamingTestExecutor.checkmarkRe mixedGlyphLine
    = Some [(1%nat, str "testLogout")]
  /\ List.hd_error mixedGlyphLine = Some crossmark
  /\ parseLine mixedGlyphLine
    = [OnTestResult (str "testLogout") true mixedGlyphLine].
Proof. vm_compute. repeat split. Qed.

(** One line of each class, classified as the specification says. *)
Lemma parseLine_classes :
  results (parseLine ([checkmark] ++ str " testLogin")) = [(str "testLogin", true)]
  /\ results (parseLine ([crossmark] ++ str " testLogout (LoginTest)"))
     = [(str "testLogout", false)]
  /\ results (parseLine (str "testSave: passed")) = [(str "testSave", true)]
  /\ results (parseLine (str "testSave: ERROR")) = [(str "testSave", false)]
  /\ results (parseLine (str "testSave (FooTest) ... OK")) = [(str "testSave", true)]
  /\ results (parseLine (str "ok 3 - testSave")) = [(str "testSave", true)]
  /\ results (parseLine (str "not ok 3 - testSave")) = [(str "testSave", false)]
  /\ results (parseLine (str "1) Test  tests/unit/FooTest.php:testSave"))
     = [(str "testSave", false)]
  /\ results (parseLine (str "Time: 00:00.123, Memory: 10.00 MB")) = [].
Proof. vm_compute. repeat split. Qed.

(** Both pipes append to the one line buffer. *)
Lemma onStderr_lineBuffer (e : Executor) (data : jstring) :
  lineBuffer (fst (onStderr e data))
  = List.last (split (lineBuffer e ++ data)) [].
Proof. reflexivity. Qed.

Lemma onStdout_lineBuffer (e : Executor) (data : jstring) :
  lineBuffer (fst (onStdout e data))
  = List.last (split (lineBuffer e ++ data)) [].
Proof. reflexivity. Qed.

(** C8. There is one carry-over buffer for both pipes: a chunk of
    standard error is appended to the fragment standard output left in
    [lineBuffer], so the line "✓ testLogin", cut by the chunk "Warning"
    of standard error, is classified as a passed test [testWarning]. *)
Theorem stderr_shares_line_buffer :
  lineBuffer (fst (onStdout StreamingTestExecutor.fresh
                     ([checkmark] ++ str " test")))
    = [checkmark] ++ str " test"
  /\ lineBuffer (fst (onStderr
                        (fst (onStdout StreamingTestExecutor.fresh
                                ([checkmark] ++ str " test")))
                        (str "Warn")))
    = [checkmark] ++ str " testWarn"
  /\ results (snd (feed StreamingTestExecutor.fresh interleaved))
    = [(str "testWarning", true)].
Proof. vm_compute. repeat split. Qed.

End Classifier.

(** ** The report parser *)

Section Report.

Import JunitParser.

(** What [parseTestCase] decides on is the truthiness of the three
    children, the later checks overriding the earlier ones. *)
Lemma parseTestCase_status (testcase : RawTestCase) (suiteName : option jstring) :
  status (parseTestCase testcase suiteName)
  = if truthy (tc_skipped testcase) then skipped
    else if truthy (tc_error testcase) then error
    else if truthy (tc_failure testcase) then failed
    else passed.
Proof.
  unfold parseTestCase.
  destruct (truthy (tc_skipped testcase)), (truthy (tc_error testcase)),
    (truthy (tc_failure testcase)); reflexivity.
Qed.

Lemma parseTestCase_passed_iff (testcase : RawTestCase) (suiteName : option jstring) :
  status (parseTestCase testcase suiteName) = passed
  <-> truthy (tc_failure testcase) = false
      /\ truthy (tc_error testcase) = false
      /\ truthy (tc_skipped testcase) = false.
Proof.
  rewrite parseTestCase_status.
  destruct (truthy (tc_skipped testcase)), (truthy (tc_error testcase)),
    (truthy (tc_failure testcase)); split; intros H;
    try discriminate; try tauto; destruct H as (? & ? & ?); discriminate.
Qed.

(** C10. A testcase whose [skipped] child is an empty element is given
    the status [passed], and one with a [failure] child and an empty
    [error] child the status [failed]: the checks are on the truthiness
    of the child, and an empty element is the empty string. *)
Theorem parseTestCase_empty_child :
  tc_skipped skippedCase <> Absent
  /\ status (parseTestCase skippedCase None) = passed
  /\ tc_error failureAndEmptyError <> Absent
  /\ status (parseTestCase failureAndEmptyError None) = failed.
Proof. repeat split; discriminate || reflexivity. Qed.

End Report.

(** ** Marking the tests not seen *)

Section Unseen.

Import Mention.

Variables (seenTests : gset jstring) (p : path).

Local Abbreviation step := (markIfUnseen seenTests).

Lemma markUnseenTests_fold (run : gmap (list nat) Outcome) (m : JsMap.t path) :
  markUnseenTests run seenTests m = fold_left step m run.
Proof. reflexivity. Qed.

Lemma unseen_step_lookup run k q :
  step run (k, q) !! p
  = if decide (k ∈ seenTests) then run !! p
    else if decide (q = p) then Some Passed else run !! p.
Proof.
  unfold markIfUnseen, markPassed, started.
  destruct (decide (k ∈ seenTests)); [reflexivity|].
  destruct (decide (q = p)) as [->|Hne].
  - apply lookup_insert_eq.
  - rewrite !lookup_insert_ne by assumption. reflexivity.
Qed.

(** Whatever [markUnseenTests] writes is [Passed]. *)
Lemma markUnseenTests_lookup (m : JsMap.t path) run :
  markUnseenTests run seenTests m !! p = run !! p
  \/ markUnseenTests run seenTests m !! p = Some Passed.
Proof.
  rewrite markUnseenTests_fold. revert run.
  induction m as [|[k q] m IH]; intros run; [now left|].
  cbn [fold_left].
  destruct (IH (step run (k, q))) as [H|H]; [|now right].
  rewrite H, unseen_step_lookup.
  destruct (decide (k ∈ seenTests)); [now left|].
  destruct (decide (q = p)); [now right|now left].
Qed.

Lemma markUnseenTests_keeps_passed (m : JsMap.t path) run :
  run !! p = Some Passed ->
  markUnseenTests run seenTests m !! p = Some Passed.
Proof.
  intros H. destruct (markUnseenTests_lookup m run) as [E|E]; congruence.
Qed.

Lemma markUnseenTests_hit (m : JsMap.t path) run k :
  In (k, p) m -> k ∉ seenTests ->
  markUnseenTests run seenTests m !! p = Some Passed.
Proof.
  rewrite markUnseenTests_fold. revert run.
  induction m as [|[k' q] m IH]; intros run Hin Hk; [destruct Hin|].
  cbn [fold_left]. destruct Hin as [E|Hin].
  - injection E as -> ->.
    apply (markUnseenTests_keeps_passed m).
    rewrite unseen_step_lookup.
    destruct (decide (k ∈ seenTests)); [contradiction|].
    destruct (decide (p = p)); congruence.
  - now apply IH.
Qed.

(** [markUnseenTests] never reports an item as skipped. *)
Lemma markUnseenTests_never_skips (m : JsMap.t path) run :
  stateOf (markUnseenTests run seenTests m) p = Skipped ->
  stateOf run p = Skipped.
Proof.
  unfold stateOf.
  destruct (markUnseenTests_lookup m run) as [E|E]; rewrite E;
    [trivial|discriminate].
Qed.

End Unseen.

(** C4. On cancellation the tests not seen are handed to
    [markUnseenTests], which reports them as passed, not skipped. With
    [testLogin] failed and [testLogout] not reported when the run is
    cancelled, [testLogout] ends as [Passed], and so does [testLogin],
    whose other name variants were not seen. *)
Theorem cancellation_marks_passed :
  (* when the promise is rejected *)
  outcomeOf (run <$> afterLoginFailed) testLogin = Some Failed
  /\ outcomeOf (run <$> afterLoginFailed) testLogout = Some Unset
  (* when the handler of the rejection is done *)
  /\ outcomeOf (executeTestWithStreaming noReport unitSuite ∅
                  loginFailedOutput cancelled true) testLogout = Some Passed
  /\ outcomeOf (executeTestWithStreaming noReport unitSuite ∅
                  loginFailedOutput cancelled true) testLogin = Some Passed.
Proof. vm_compute. repeat split. Qed.

(** ** Reconciliation with the report *)

Section FailClosed.

Import Mention.

Lemma parseJUnitXml_returns fs xmlPath containerPath container :
  exists results,
    JunitParser.parseJUnitXml fs xmlPath containerPath container = Ret results.
Proof.
  unfold JunitParser.parseJUnitXml, tryCatch.
  destruct (JunitParser.parseJUnitXmlBody _ _ _ _); eauto.
Qed.

Lemma readReport_reportOf (cfg : Config) : readReport cfg = Ret (reportOf cfg).
Proof.
  unfold reportOf.
  destruct (parseJUnitXml_returns (files cfg) (xmlPath cfg)
              (containerXmlPath cfg) (fst <$> dockerConfig cfg)) as [r Hr].
  unfold readReport. rewrite Hr. reflexivity.
Qed.

(** What [reconcileWithXmlResults] amounts to. *)
Lemma reconcileWithXmlResults_eq cfg run seenTests testNameMap testResults :
  reconcileWithXmlResults cfg run seenTests testNameMap testResults
  = Ret (if negb (JunitParser.existsSync (files cfg) (xmlPath cfg))
            || Nat.eqb (JsMap.size (reportOf cfg)) 0
         then (run, seenTests)
         else reconcileLoop (reportOf cfg) testNameMap testResults
                            run seenTests).
Proof.
  unfold reconcileWithXmlResults.
  destruct (JunitParser.existsSync (files cfg) (xmlPath cfg)); [|reflexivity].
  rewrite readReport_reportOf. cbn.
  destruct (JsMap.size (reportOf cfg) =? 0)%nat; reflexivity.
Qed.

(** It does not raise. *)
Lemma reconcileWithXmlResults_returns cfg run seenTests testNameMap testResults :
  exists r,
    reconcileWithXmlResults cfg run seenTests testNameMap testResults = Ret r.
Proof. rewrite reconcileWithXmlResults_eq. eauto. Qed.

Lemma unusable_report_empty (cfg : Config) :
  reportUnusable cfg = true -> reportOf cfg = JsMap.empty.
Proof.
  unfold reportUnusable, reportOf, readReport, JunitParser.parseJUnitXml.
  destruct (JunitParser.parseJUnitXmlBody _ _ _ _); [reflexivity|discriminate].
Qed.

(** C9. Fail-closed reconciliation: when the report file is absent, or
    reading or parsing it throws, or it yields no result,
    [reconcileWithXmlResults] returns normally and hands back the run
    table and the set of seen tests it was given. *)
Theorem reconcile_fail_closed
    (cfg : Config) (run : gmap (list nat) Outcome) (seenTests : gset jstring)
    (testNameMap : JsMap.t path) (testResults : JsMap.t (bool * jstring)) :
  reportAbsent cfg = true \/ reportUnusable cfg = true
  \/ reportEmpty cfg = true ->
  reconcileWithXmlResults cfg run seenTests testNameMap testResults
  = Ret (run, seenTests).
Proof.
  intros H. rewrite reconcileWithXmlResults_eq.
  destruct H as [H|[H|H]].
  - unfold reportAbsent in H. rewrite H. reflexivity.
  - rewrite (unusable_report_empty cfg H). cbn.
    now rewrite orb_true_r.
  - unfold reportEmpty in H. rewrite H. now rewrite orb_true_r.
Qed.

Lemma reconcile_fail_closed_witness :
  (reportAbsent malformedReport = true
   \/ reportUnusable malformedReport = true
   \/ reportEmpty malformedReport = true)
  /\ reconcileWithXmlResults malformedReport
       (<[testLogin := Failed]> ∅) {[str "testLogin"]}
       (buildTestNameMap unitSuite)
       (JsMap.set JsMap.empty (str "testLogin") (false, []))
     = Ret (<[testLogin := Failed]> ∅, {[str "testLogin"]}).
Proof.
  split.
  - right. left. reflexivity.
  - apply reconcile_fail_closed. right. left. reflexivity.
Defined.

End FailClosed.

Section Precedence.

Import Mention.

Variables (xmlResults : JsMap.t JunitParser.JUnitTestResult)
          (testNameMap : JsMap.t path)
          (testResults : JsMap.t (bool * jstring))
          (p : path).

Local Abbreviation entry := (reconcileEntry xmlResults testNameMap testResults).

Lemma lookup_mark_ne (q : path) (run : gmap (list nat) Outcome) :
  q <> p ->
  markPassed q run !! p = run !! p
  /\ markFailed q run !! p = run !! p
  /\ started q run !! p = run !! p.
Proof.
  intros Hne. unfold markPassed, markFailed, started.
  rewrite !lookup_insert_ne by assumption. auto.
Qed.

Lemma entryFor_false_get (e : jstring * JunitParser.JUnitTestResult) (q : path) :
  entryFor xmlResults testNameMap p e = false ->
  isDuplicateVariant xmlResults (fst e) = false ->
  JsMap.get testNameMap (fst e) = Some q -> q <> p.
Proof.
  unfold entryFor, resolves. intros H Hdup Hget ->.
  rewrite Hdup, Hget in H. cbn in H.
  rewrite bool_decide_eq_true_2 in H by reflexivity. discriminate.
Qed.

(** An entry that is not for the item leaves the item as it is. *)
Lemma reconcileEntry_frame acc e :
  entryFor xmlResults testNameMap p e = false ->
  fst (entry acc e) !! p = fst acc !! p.
Proof.
  intros H. destruct acc as [run seen], e as [k xr].
  unfold reconcileEntry.
  destruct (isDuplicateVariant xmlResults k) eqn:Hdup; [reflexivity|].
  destruct (JsMap.get testNameMap k) as [q|] eqn:Hget; [|reflexivity].
  pose proof (entryFor_false_get (k, xr) q H Hdup Hget) as Hne.
  pose proof (fun r => lookup_mark_ne q r Hne) as L.
  destruct (default true (fst <$> JsMap.get testResults k));
    destruct (xmlPassed xr); destruct (decide (k ∈ seen));
    cbn [fst negb Bool.eqb];
    repeat (first [rewrite (proj1 (L _))
                  |rewrite (proj1 (proj2 (L _)))
                  |rewrite (proj2 (proj2 (L _)))]); reflexivity.
Qed.

Lemma reconcileEntry_seen acc e k :
  k ∈ snd (entry acc e) ->
  k ∈ snd acc
  \/ (k = fst e /\ isDuplicateVariant xmlResults (fst e) = false
      /\ is_Some (JsMap.get testNameMap (fst e))).
Proof.
  destruct acc as [run seen], e as [k' xr].
  unfold reconcileEntry.
  destruct (isDuplicateVariant xmlResults k') eqn:Hdup; [now left|].
  destruct (JsMap.get testNameMap k') as [q|] eqn:Hget; [|now left].
  destruct (decide (k' ∈ seen)); cbn [snd fst]; [now left|].
  intros [->%elem_of_singleton|H]%elem_of_union; [right|now left].
  eauto.
Qed.

Lemma fold_frame l acc :
  (forall e, In e l -> entryFor xmlResults testNameMap p e = false) ->
  fst (fold_left entry l acc) !! p = fst acc !! p.
Proof.
  revert acc. induction l as [|e l IH]; intros acc H; [reflexivity|].
  cbn [fold_left]. rewrite IH by (intros; apply H; now right).
  apply reconcileEntry_frame, H. now left.
Qed.

(** A report without an entry for the item leaves the item as it is. *)
Lemma reconcileLoop_frame run seenTests :
  reported xmlResults testNameMap p = false ->
  fst (reconcileLoop xmlResults testNameMap testResults run seenTests) !! p
  = run !! p.
Proof.
  intros H. unfold reconcileLoop.
  rewrite fold_frame; [reflexivity|].
  intros e He. destruct (entryFor xmlResults testNameMap p e) eqn:E; [|reflexivity].
  unfold reported in H.
  assert (existsb (entryFor xmlResults testNameMap p)
                  (JsMap.entries xmlResults) = true) as Hex; [|congruence].
  apply existsb_exists. eauto.
Qed.

Variable x : bool.

Local Abbreviation disagree := (disagrees testNameMap testResults p x).

Lemma entryFor_true_get (e : jstring * JunitParser.JUnitTestResult) :
  entryFor xmlResults testNameMap p e = true ->
  isDuplicateVariant xmlResults (fst e) = false
  /\ JsMap.get testNameMap (fst e) = Some p.
Proof.
  unfold entryFor, resolves. intros [H1 H2]%andb_true_iff.
  apply negb_true_iff in H1. apply bool_decide_eq_true in H2. auto.
Qed.

(** An entry for the item that says [x] leaves the item at [x] when it
    was there, *)
Lemma reconcileEntry_keep acc e :
  (entryFor xmlResults testNameMap p e = true -> xmlPassed (snd e) = x) ->
  stateOf (fst acc) p = verdict x ->
  stateOf (fst (entry acc e)) p = verdict x.
Proof.
  intros Hx Hst.
  destruct (entryFor xmlResults testNameMap p e) eqn:E.
  2:{ unfold stateOf in *. now rewrite reconcileEntry_frame. }
  specialize (Hx eq_refl). apply entryFor_true_get in E as [Hdup Hget].
  destruct acc as [run seen], e as [k xr]. cbn [fst snd] in *.
  unfold reconcileEntry. rewrite Hdup, Hget, Hx.
  unfold stateOf, markPassed, markFailed, started, verdict in *.
  destruct (default true (fst <$> JsMap.get testResults k));
    destruct x; destruct (decide (k ∈ seen)); cbn [fst negb Bool.eqb];
    rewrite ?lookup_insert_eq; auto.
Qed.

(** and puts it there when the streaming result disagrees. *)
Lemma reconcileEntry_hit acc e :
  entryFor xmlResults testNameMap p e = true ->
  xmlPassed (snd e) = x ->
  disagree (snd acc) ->
  stateOf (fst (entry acc e)) p = verdict x.
Proof.
  intros E Hx Hd. apply entryFor_true_get in E as [Hdup Hget].
  destruct acc as [run seen], e as [k xr]. cbn [fst snd] in *.
  unfold reconcileEntry. rewrite Hdup, Hget, Hx.
  unfold stateOf, markPassed, markFailed, started, verdict.
  destruct (decide (k ∈ seen)) as [Hin|Hin].
  - destruct (Hd k Hin Hget) as (sr & Hsr & Hneg). rewrite Hsr. cbn.
    rewrite Hneg. destruct x; cbn; now rewrite lookup_insert_eq.
  - destruct (default true (fst <$> JsMap.get testResults k));
      destruct x; cbn [fst]; now rewrite lookup_insert_eq.
Qed.

Lemma reconcileEntry_disagree acc e :
  entryFor xmlResults testNameMap p e = false ->
  disagree (snd acc) -> disagree (snd (entry acc e)).
Proof.
  intros E Hd k Hk Hget.
  apply reconcileEntry_seen in Hk as [Hk|(-> & Hdup & _)]; [now apply Hd|].
  exfalso. unfold entryFor, resolves in E.
  rewrite Hdup, Hget in E. cbn in E.
  rewrite bool_decide_eq_true_2 in E by reflexivity. discriminate.
Qed.

Lemma fold_keep l acc :
  (forall e, In e l -> entryFor xmlResults testNameMap p e = true ->
             xmlPassed (snd e) = x) ->
  stateOf (fst acc) p = verdict x ->
  stateOf (fst (fold_left entry l acc)) p = verdict x.
Proof.
  revert acc. induction l as [|e l IH]; intros acc H Hst; [assumption|].
  cbn [fold_left]. apply IH; [intros; apply H; auto; now right|].
  apply reconcileEntry_keep; [|assumption]. apply H. now left.
Qed.

Lemma fold_hit l acc :
  (exists e, In e l /\ entryFor xmlResults testNameMap p e = true) ->
  (forall e, In e l -> entryFor xmlResults testNameMap p e = true ->
             xmlPassed (snd e) = x) ->
  disagree (snd acc) ->
  stateOf (fst (fold_left entry l acc)) p = verdict x.
Proof.
  revert acc. induction l as [|e l IH]; intros acc (e0 & Hin & He0) H Hd;
    [destruct Hin|].
  cbn [fold_left].
  destruct (entryFor xmlResults testNameMap p e) eqn:E.
  - apply fold_keep; [intros; apply H; auto; now right|].
    apply reconcileEntry_hit; auto. apply H; auto. now left.
  - apply IH.
    + destruct Hin as [->|Hin]; [congruence|eauto].
    + intros; apply H; auto. now right.
    + now apply reconcileEntry_disagree.
Qed.

Lemma get_In {V} (m : JsMap.t V) k v : JsMap.get m k = Some v -> In (k, v) m.
Proof.
  induction m as [|[k' v'] m IH]; cbn; [discriminate|].
  destruct (decide (k' = k)) as [->|]; [intros [= ->]; now left|].
  intros H. right. now apply IH.
Qed.

(** What the loop compares is whether the status is [passed]. *)
Lemma xmlPassed_status (xmlResult : JunitParser.JUnitTestResult) :
  xmlPassed xmlResult
  = bool_decide (JunitParser.status xmlResult = JunitParser.passed).
Proof. unfold xmlPassed. now destruct (JunitParser.status xmlResult). Qed.

(** Where the report and the streaming results of an item disagree, the
    loop of [reconcileWithXmlResults] leaves the item with the outcome of
    the report. *)
Lemma reconcileLoop_precedence run seenTests :
  reportSays xmlResults testNameMap p x = true ->
  streamingSays testResults testNameMap p (negb x) = true ->
  seenHaveResults seenTests testResults = true ->
  stateOf (fst (reconcileLoop xmlResults testNameMap testResults
                              run seenTests)) p
  = verdict x.
Proof.
  unfold reportSays, reported, streamingSays, seenHaveResults.
  intros [Hrep Hall]%andb_true_iff [_ Hstr]%andb_true_iff Hseen.
  apply fold_hit.
  - apply existsb_exists in Hrep. exact Hrep.
  - intros e Hin He. rewrite forallb_forall in Hall.
    specialize (Hall e Hin). rewrite He in Hall. cbn [implb] in Hall.
    apply eqb_prop in Hall. now rewrite xmlPassed_status.
  - cbn [snd]. intros k Hk Hget.
    rewrite forallb_forall in Hseen, Hstr.
    assert (In k (elements seenTests)) as Hin
      by now apply list_elem_of_In, elem_of_elements.
    specialize (Hseen k Hin). unfold JsMap.has in Hseen.
    destruct (JsMap.get testResults k) as [sr|] eqn:Hsr; [|discriminate].
    exists sr. split; [reflexivity|].
    specialize (Hstr (k, sr) (get_In _ _ _ Hsr)).
    unfold resolves in Hstr. cbn [fst snd] in Hstr.
    rewrite bool_decide_eq_true_2 in Hstr by assumption. cbn in Hstr.
    now apply eqb_prop in Hstr.
Qed.

End Precedence.

Section Reconciled.

Import Mention.

Lemma reported_size xmlResults testNameMap p :
  reported xmlResults testNameMap p = true ->
  Nat.eqb (JsMap.size xmlResults) 0 = false.
Proof.
  unfold reported, JsMap.entries, JsMap.size.
  destruct xmlResults; [discriminate|reflexivity].
Qed.

(** Where the reconciliation reaches an item, the report wins: for an
    item to which entries of the report resolve (entries that are not
    skipped as duplicate name variants and whose name the name map
    gives the item), all of one status, and whose streaming results say
    the opposite, the item has the outcome of the report after
    [reconcileWithXmlResults]: [Passed] if that status is [passed],
    [Failed] otherwise. *)
Theorem reconciliation_precedence
    (cfg : Config) (run : gmap (list nat) Outcome) (seenTests : gset jstring)
    (testNameMap : JsMap.t path) (testResults : JsMap.t (bool * jstring))
    (p : path) (x : bool) :
  reportAbsent cfg = false ->
  reportSays (reportOf cfg) testNameMap p x = true ->
  streamingSays testResults testNameMap p (negb x) = true ->
  seenHaveResults seenTests testResults = true ->
  outcomeOf (fst <$> reconcileWithXmlResults cfg run seenTests
                       testNameMap testResults) p
  = Some (verdict x).
Proof.
  intros Habs Hrep Hstr Hseen.
  rewrite reconcileWithXmlResults_eq.
  unfold reportAbsent in Habs. rewrite Habs.
  assert (reported (reportOf cfg) testNameMap p = true) as Hr
    by (unfold reportSays in Hrep; now apply andb_true_iff in Hrep).
  rewrite (reported_size _ _ _ Hr). cbn.
  f_equal. now apply reconcileLoop_precedence.
Qed.

Lemma reconciliation_precedence_witness :
  reportAbsent loginPassedReport = false
  /\ reportSays (reportOf loginPassedReport) (buildTestNameMap unitSuite)
                testLogin true = true
  /\ streamingSays (JsMap.set JsMap.empty (str "testLogin") (false, []))
                   (buildTestNameMap unitSuite) testLogin false = true
  /\ outcomeOf (fst <$> reconcileWithXmlResults loginPassedReport
                          (<[testLogin := Failed]> ∅) {[str "testLogin"]}
                          (buildTestNameMap unitSuite)
                          (JsMap.set JsMap.empty (str "testLogin") (false, [])))
               testLogin
     = Some Passed.
Proof.
  split; [reflexivity|]. split; [reflexivity|]. split; [reflexivity|].
  apply (reconciliation_precedence loginPassedReport _ _ _ _ testLogin true);
    reflexivity.
Defined.

(** C1. The reconciliation does not reach every item the report has an
    entry for. [testLogin] of [LoginTest] was streamed as passed and the
    report says it failed; its entry is skipped as a duplicate of
    [testlogin], the name of another test, which the name map gives to
    that other item: [testLogin] stays [Passed] after
    [reconcileWithXmlResults], and after [onComplete] as a whole. *)
Theorem reconciliation_misses_case_twin :
  (* the streaming outcome *)
  outcomeOf (run <$> twinsStreamed) testLogin = Some Passed
  (* the entry of the report *)
  /\ map JunitParser.status
         (filter (fun r => JunitParser.name r = str "testLogin")
                 (Names.parsedCases twinsCases))
     = [JunitParser.failed]
  /\ (JunitParser.status <$> JsMap.get (reportOf twinsReport) (str "testLogin"))
     = Some JunitParser.failed
  (* after the reconciliation *)
  /\ outcomeOf (s ← twinsStreamed;
                fst <$> reconcileWithXmlResults twinsReport (run s)
                          (seenTests s) (buildTestNameMap caseTwins)
                          (testResults s)) testLogin
     = Some Passed
  /\ outcomeOf (s ← twinsStreamed;
                run <$> onComplete twinsReport (buildTestNameMap caseTwins)
                          s 1%Z) testLogin
     = Some Passed.
Proof. vm_compute. repeat split. Qed.

End Reconciled.

(** ** Marking the children from the parsed output *)

Section ForEach.

Context {A St : Type} (f : St -> nat -> A -> St).

Lemma forEach_app (l1 l2 : list A) (k : nat) (s : St) :
  forEach f (l1 ++ l2) k s
  = forEach f l2 (k + length l1) (forEach f l1 k s).
Proof.
  revert k s. induction l1 as [|x l1 IH]; intros k s; cbn.
  - now rewrite Nat.add_0_r.
  - rewrite IH. f_equal. lia.
Qed.

(** A property kept by every step at the positions of the list is kept
    by the loop. *)
Lemma forEach_keeps (Inv : St -> Prop) (l : list A) (k : nat) (s : St) :
  (forall s i x, (k <= i < k + length l)%nat -> Inv s -> Inv (f s i x)) ->
  Inv s -> Inv (forEach f l k s).
Proof.
  revert k s. induction l as [|x l IH]; intros k s Hstep Hs; [exact Hs|].
  cbn [forEach]. apply IH.
  - intros s' i y Hi. apply Hstep. cbn [length]. lia.
  - apply Hstep; [cbn [length]; lia|exact Hs].
Qed.

(** The loop around the step at one position. *)
Lemma forEach_at (Inv : St -> Prop) (Post : St -> Prop)
    (l : list A) (i : nat) (x : A) (s : St) :
  l !! i = Some x ->
  (forall s j y, j <> i -> Inv s -> Inv (f s j y)) ->
  (forall s, Inv s -> Post (f s i x)) ->
  (forall s j y, j <> i -> Post s -> Post (f s j y)) ->
  Inv s -> Post (forEach f l 0 s).
Proof.
  intros Hl Hinv Hat Hpost Hs.
  apply list_elem_of_split_length in Hl as (l1 & l2 & -> & ->).
  rewrite forEach_app. cbn [forEach plus].
  apply forEach_keeps; [intros; apply Hpost; [lia|assumption]|].
  apply Hat. apply forEach_keeps; [|exact Hs].
  intros; apply Hinv; [lia|assumption].
Qed.

End ForEach.

Section Marking.

Import Aggregate.

Variable testResults : JsMap.t TestResult.

(** [markMethod] writes the outcome of the method at its position and
    nothing elsewhere. *)
Lemma markMethod_other i acc j (methodTest : TestItem) (p : path) :
  p <> [i; j] ->
  fst (fst (markMethod testResults i acc j methodTest)) !! p
  = fst (fst acc) !! p.
Proof.
  intros Hp. destruct acc as [[run t] f]. unfold markMethod.
  destruct (JsMap.get testResults _) as [result|];
    [destruct (passed result)|]; cbn [fst];
    unfold markPassed, markFailed, started;
    rewrite !lookup_insert_ne by congruence; reflexivity.
Qed.

Lemma markMethod_self i acc j (methodTest : TestItem) :
  fst (fst (markMethod testResults i acc j methodTest)) !! [i; j]
  = Some (methodOutcome testResults methodTest).
Proof.
  destruct acc as [[run t] f]. unfold markMethod, methodOutcome.
  destruct (JsMap.get testResults _) as [result|];
    [destruct (passed result)|]; cbn [fst];
    unfold markPassed, markFailed; now rewrite lookup_insert_eq.
Qed.

Lemma methods_self i (ms : list TestItem) acc j methodTest :
  ms !! j = Some methodTest ->
  fst (fst (forEach (markMethod testResults i) ms 0 acc)) !! [i; j]
  = Some (methodOutcome testResults methodTest).
Proof.
  intros Hj.
  apply (forEach_at (markMethod testResults i) (fun _ => True)
           (fun s => fst (fst s) !! [i; j]
                     = Some (methodOutcome testResults methodTest))
           ms j methodTest acc Hj); auto.
  - intros s _. apply markMethod_self.
  - intros s j' y Hne Hs. rewrite markMethod_other by congruence. exact Hs.
Qed.

Lemma methods_other i (ms : list TestItem) acc (p : path) :
  (forall j, p <> [i; j]) ->
  fst (fst (forEach (markMethod testResults i) ms 0 acc)) !! p
  = fst (fst acc) !! p.
Proof.
  intros Hp.
  apply (forEach_keeps (markMethod testResults i)
           (fun s => fst (fst s) !! p = fst (fst acc) !! p)); [|reflexivity].
  intros s j y _ Hs. now rewrite markMethod_other.
Qed.

Lemma hasChildren_lookup (child : TestItem) j m :
  children child !! j = Some m -> Nat.ltb 0 (length (children child)) = true.
Proof. intros H%lookup_lt_Some. apply Nat.ltb_lt. lia. Qed.

(** [markChild] writes at the child and at its methods only. *)
Lemma markChild_other acc i (child : TestItem) (p : path) :
  hd_error p <> Some i ->
  fst (markChild testResults acc i child) !! p = fst acc !! p.
Proof.
  intros Hp. destruct acc as [run t]. unfold markChild.
  assert (p <> [i]) as Hi by (intros ->; now apply Hp).
  assert (forall j, p <> [i; j]) as Hij by (intros j ->; now apply Hp).
  destruct (Nat.ltb 0 (length (children child))).
  - destruct (forEach _ _ _ _) as [[run' t'] f'] eqn:E.
    assert (run' !! p = run !! p) as Hrun.
    { change run' with (fst (fst (run', t', f'))). rewrite <- E.
      rewrite methods_other by assumption. cbn [fst].
      unfold started. now rewrite lookup_insert_ne by congruence. }
    repeat match goal with
           | |- context [if ?c then _ else _] => destruct c
           end; cbn [fst]; unfold markPassed, markFailed;
      rewrite ?lookup_insert_ne by congruence; exact Hrun.
  - destruct (JsMap.get testResults _) as [result|];
      [destruct (passed result)|]; cbn [fst];
      unfold markPassed, markFailed, started;
      rewrite !lookup_insert_ne by congruence; reflexivity.
Qed.

Lemma markChild_method acc i (child : TestItem) j methodTest :
  children child !! j = Some methodTest ->
  fst (markChild testResults acc i child) !! [i; j]
  = Some (methodOutcome testResults methodTest).
Proof.
  intros Hj. destruct acc as [run t]. unfold markChild.
  rewrite (hasChildren_lookup child j methodTest Hj).
  destruct (forEach _ _ _ _) as [[run' t'] f'] eqn:E.
  assert (run' !! [i; j] = Some (methodOutcome testResults methodTest)) as Hrun.
  { change run' with (fst (fst (run', t', f'))). rewrite <- E.
    now apply methods_self. }
  repeat match goal with
         | |- context [if ?c then _ else _] => destruct c
         end; cbn [fst]; unfold markPassed, markFailed;
    rewrite ?lookup_insert_ne by congruence; exact Hrun.
Qed.

Lemma markChild_leaf acc i (child : TestItem) :
  hasChildren child = false ->
  fst (markChild testResults acc i child) !! [i]
  = Some (methodOutcome testResults child).
Proof.
  intros Hc. destruct acc as [run t]. unfold markChild, methodOutcome.
  unfold hasChildren in Hc. rewrite Hc.
  destruct (JsMap.get testResults _) as [result|];
    [destruct (passed result)|]; cbn [fst];
    unfold markPassed, markFailed; now rewrite lookup_insert_eq.
Qed.

(** In normal execution every leaf gets the outcome of its name. *)
Lemma children_leaf (parentTest : TestItem) acc (p : path) leaf :
  leafAt parentTest p = Some leaf ->
  fst (forEach (markChild testResults) (children parentTest) 0 acc) !! p
  = Some (methodOutcome testResults leaf).
Proof.
  intros Hleaf.
  assert (exists i child, children parentTest !! i = Some child
            /\ hd_error p = Some i
            /\ forall acc, fst (markChild testResults acc i child) !! p
                           = Some (methodOutcome testResults leaf))
    as (i & child & Hi & Hhd & Hat).
  { unfold leafAt in Hleaf.
    destruct p as [|i [|j [|]]]; try discriminate;
      destruct (children parentTest !! i) as [child|] eqn:Hi;
      try discriminate; exists i, child; repeat split; auto.
    - destruct (hasChildren child) eqn:Hc; [discriminate|].
      injection Hleaf as <-. intros; now apply markChild_leaf.
    - intros; now apply markChild_method. }
  apply (forEach_at (markChild testResults) (fun _ => True)
           (fun s => fst s !! p = Some (methodOutcome testResults leaf))
           (children parentTest) i child acc Hi); auto.
  intros s i' y Hne Hs. rewrite markChild_other; [exact Hs|].
  rewrite Hhd. congruence.
Qed.

Lemma markParent_other (parentTest : TestItem) hasFailures acc (p : path) :
  p <> [] ->
  markParent parentTest hasFailures acc !! p = fst acc !! p.
Proof.
  intros Hp. destruct acc as [run t]. unfold markParent.
  repeat match goal with
         | |- context [if ?c then _ else _] => destruct c
         end; cbn [fst]; unfold markPassed, markFailed;
    rewrite ?lookup_insert_ne by congruence; reflexivity.
Qed.

(** Outside the branch for an execution that stopped early, every leaf
    ends with the outcome of its name. *)
Lemma markChildren_leaf (parentTest : TestItem) run hasFatalError extracted
    hasFailures (p : path) leaf :
  earlyAbort testResults hasFatalError extracted = false ->
  leafAt parentTest p = Some leaf ->
  markChildren parentTest run testResults hasFatalError extracted hasFailures
    !! p
  = Some (methodOutcome testResults leaf).
Proof.
  intros Hea Hleaf. unfold markChildren.
  assert (p <> []) as Hp by (intros ->; discriminate).
  rewrite markParent_other by assumption.
  unfold earlyAbort in Hea.
  destruct hasFatalError, (Nat.eqb (JsMap.size testResults) 0), extracted;
    cbn in Hea |- *; try discriminate; now apply children_leaf.
Qed.

End Marking.

Section Fatal.

Import Aggregate.

Variable info : FatalErrorInfo.

Lemma inFile_true i n p :
  inFile i n p = true -> exists j, p = [i; j] /\ (j < n)%nat.
Proof.
  destruct p as [|i' [|j [|]]]; try discriminate. cbn.
  intros [->%Nat.eqb_eq H%Nat.ltb_lt]%andb_true_iff. eauto.
Qed.

Lemma inFile_false i n p j :
  inFile i n p = false -> (j < n)%nat -> p <> [i; j].
Proof.
  intros H Hj ->. unfold inFile in H. rewrite Nat.eqb_refl in H.
  apply Nat.ltb_lt in Hj. rewrite Hj in H. discriminate.
Qed.

Lemma fatal_methods (i : nat) (ms : list TestItem)
    (run : gmap (list nat) Outcome)
    (p : path) :
  forEach (failMethod i) ms 0 run !! p
  = if inFile i (length ms) p then Some Failed else run !! p.
Proof.
  destruct (inFile i (length ms) p) eqn:E.
  - apply inFile_true in E as (j & -> & Hj).
    destruct (lookup_lt_is_Some_2 ms j Hj) as [m Hm].
    apply (forEach_at (failMethod i) (fun _ => True)
             (fun s => s !! [i; j] = Some Failed) ms j m run Hm); auto.
    + intros s _. unfold failMethod, markFailed. apply lookup_insert_eq.
    + intros s j' y Hne Hs. unfold failMethod, markFailed, started.
      now rewrite !lookup_insert_ne by congruence.
  - apply (forEach_keeps (failMethod i) (fun s => s !! p = run !! p));
      [|reflexivity].
    intros s j y [_ Hj] Hs. cbn in Hj.
    pose proof (inFile_false i (length ms) p j E Hj).
    unfold failMethod, markFailed, started.
    now rewrite !lookup_insert_ne by congruence.
Qed.

(** What [markFatal] writes for one child. *)
Lemma markFatal_lookup acc i (child : TestItem) (p : path) :
  fst (markFatal info acc i child) !! p
  = if fatalFile info child
       && (bool_decide (p = [i]) || inFile i (length (children child)) p)
    then Some Failed else fst acc !! p.
Proof.
  destruct acc as [run t]. unfold markFatal, fatalFile, hasChildren.
  destruct (isFatalErrorFile child info && _); [|reflexivity].
  cbn [fst andb]. unfold markFailed at 1.
  destruct (bool_decide (p = [i])) eqn:Ep.
  - apply bool_decide_eq_true in Ep as ->. cbn. apply lookup_insert_eq.
  - apply bool_decide_eq_false in Ep.
    rewrite lookup_insert_ne by congruence.
    rewrite fatal_methods. cbn [orb].
    destruct (inFile _ _ _); [reflexivity|].
    unfold started. now rewrite lookup_insert_ne by congruence.
Qed.

Lemma markFatal_tally acc i (child : TestItem) :
  foundAnyResults (snd (markFatal info acc i child))
    = foundAnyResults (snd acc) || fatalFile info child
  /\ someChildrenFailed (snd (markFatal info acc i child))
    = someChildrenFailed (snd acc) || fatalFile info child.
Proof.
  destruct acc as [run t]. unfold markFatal, fatalFile, hasChildren.
  destruct (isFatalErrorFile child info && _); cbn;
    rewrite ?orb_true_r, ?orb_false_r; auto.
Qed.

Lemma fatal_tally (cs : list TestItem) k acc :
  foundAnyResults (snd (forEach (markFatal info) cs k acc))
    = foundAnyResults (snd acc) || existsb (fatalFile info) cs
  /\ someChildrenFailed (snd (forEach (markFatal info) cs k acc))
    = someChildrenFailed (snd acc) || existsb (fatalFile info) cs.
Proof.
  revert k acc. induction cs as [|c cs IH]; intros k acc; cbn [forEach existsb].
  - now rewrite !orb_false_r.
  - destruct (IH (S k) (markFatal info acc k c)) as [-> ->].
    destruct (markFatal_tally acc k c) as [-> ->].
    now rewrite !orb_assoc.
Qed.

Lemma markFatal_other acc i (child : TestItem) (p : path) :
  hd_error p <> Some i ->
  fst (markFatal info acc i child) !! p = fst acc !! p.
Proof.
  intros Hp. rewrite markFatal_lookup.
  assert (bool_decide (p = [i]) = false) as ->
    by (apply bool_decide_eq_false; intros ->; now apply Hp).
  assert (inFile i (length (children child)) p = false) as ->.
  { destruct (inFile _ _ _) eqn:E; [|reflexivity].
    apply inFile_true in E as (j & -> & _). now destruct Hp. }
  now rewrite andb_false_r.
Qed.

Lemma affected_cons (parentTest : TestItem) i rest child :
  children parentTest !! i = Some child ->
  affected parentTest info (i :: rest)
  = fatalFile info child
    && (bool_decide (i :: rest = [i])
        || inFile i (length (children child)) (i :: rest)).
Proof.
  intros Hi. unfold affected, inFile. rewrite Hi.
  destruct rest as [|j [|]].
  - rewrite bool_decide_eq_true_2 by reflexivity. now rewrite andb_true_r.
  - rewrite bool_decide_eq_false_2 by congruence.
    now rewrite Nat.eqb_refl.
  - rewrite bool_decide_eq_false_2 by congruence. now rewrite andb_false_r.
Qed.

(** What the loop over the children writes. *)
Lemma fatal_children (parentTest : TestItem) acc (p : path) :
  p <> [] ->
  fst (forEach (markFatal info) (children parentTest) 0 acc) !! p
  = if affected parentTest info p then Some Failed else fst acc !! p.
Proof.
  intros Hp. destruct p as [|i rest]; [congruence|].
  destruct (children parentTest !! i) as [child|] eqn:Hi.
  - rewrite (affected_cons parentTest i rest child Hi).
    apply (forEach_at (markFatal info)
             (fun s => fst s !! (i :: rest) = fst acc !! (i :: rest))
             (fun s => fst s !! (i :: rest)
                       = if fatalFile info child
                            && (bool_decide (i :: rest = [i])
                                || inFile i (length (children child))
                                          (i :: rest))
                         then Some Failed else fst acc !! (i :: rest))
             (children parentTest) i child acc Hi); auto.
    + intros s j y Hne Hs. rewrite markFatal_other; [exact Hs|].
      cbn. congruence.
    + intros s Hs. rewrite markFatal_lookup.
      destruct (fatalFile info child && _); [reflexivity|exact Hs].
    + intros s j y Hne Hs. rewrite markFatal_other; [exact Hs|].
      cbn. congruence.
  - assert (affected parentTest info (i :: rest) = false) as ->
      by (unfold affected; rewrite Hi; now destruct rest as [|? [|]]).
    apply lookup_ge_None in Hi.
    apply (forEach_keeps (markFatal info)
             (fun s => fst s !! (i :: rest) = fst acc !! (i :: rest)));
      [|reflexivity].
    intros s j y Hj Hs. rewrite markFatal_other; [exact Hs|].
    cbn. intros [= ->]. lia.
Qed.

Lemma fatal_children_parent (cs : list TestItem) k acc :
  fst (forEach (markFatal info) cs k acc) !! [] = fst acc !! [].
Proof.
  apply (forEach_keeps (markFatal info)
           (fun s => fst s !! [] = fst acc !! [])); [|reflexivity].
  intros s j y _ Hs. rewrite markFatal_other; [exact Hs|]. discriminate.
Qed.

(** The branch for an execution that stopped early, position by
    position. *)
Lemma markChildren_early (parentTest : TestItem)
    (run : gmap (list nat) Outcome) (testResults : JsMap.t TestResult)
    (hasFailures : bool) (p : path) :
  JsMap.size testResults = 0%nat ->
  stateOf (markChildren parentTest run testResults true (Some info)
                        hasFailures) p
  = if affected parentTest info p then Failed else stateOf run p.
Proof.
  intros Hsize. unfold markChildren, stateOf. rewrite Hsize. cbn [andb Nat.eqb].
  set (t0 := mkTally false true false 0).
  destruct (decide (p = [])) as [->|Hp].
  - destruct (fatal_tally (children parentTest) 0 (run, t0)) as [Hf Hs].
    pose proof (fatal_children_parent (children parentTest) 0 (run, t0)) as Hr.
    destruct (forEach _ _ _ _) as [run' t']. cbn [fst snd] in *.
    unfold markParent, affected. rewrite Hf, Hs. cbn [orb].
    subst t0. cbn [foundAnyResults someChildrenFailed orb].
    destruct (existsb _ _); cbn [orb].
    + unfold markFailed. now rewrite lookup_insert_eq.
    + now rewrite Hr.
  - rewrite markParent_other by assumption.
    rewrite fatal_children by assumption. cbn [fst].
    now destruct (affected parentTest info p).
Qed.

End Fatal.

(** ** The laws of the aggregation *)

Section Laws.

Import Mention Aggregate.

Lemma parseAndMarkChildren_early_abort
    (parentTest : TestItem) (run : gmap (list nat) Outcome)
    (stdout stderr : jstring) (hasFailures : bool) :
  earlyAbort (parseTestResults stdout stderr) (detectFatalError stdout stderr)
             (extractFatalErrorInfo stdout stderr) = true ->
  exists info,
    extractFatalErrorInfo stdout stderr = Some info
    /\ forall p : path,
         stateOf (parseAndMarkChildren parentTest run stdout stderr
                                       hasFailures) p
         = if affected parentTest info p then Failed else stateOf run p.
Proof.
  unfold earlyAbort, parseAndMarkChildren.
  intros [[Hf Hs%Nat.eqb_eq]%andb_true_iff He]%andb_true_iff.
  destruct (extractFatalErrorInfo stdout stderr) as [info|]; [|discriminate].
  exists info. split; [reflexivity|]. intros p. rewrite Hf.
  now apply markChildren_early.
Qed.

(** C3, as the code has it. Early-abort scoping: when a fatal error is
    detected, its file can be extracted, and no result was parsed from
    the output, [parseAndMarkChildren] marks as [Failed] the children
    with methods whose path contains the file of the fatal error, their
    methods, and, when there is such a child, the item being run; every
    other item keeps the state it had. *)
Theorem early_abort_scoping
    (parentTest : TestItem) (run : gmap (list nat) Outcome)
    (stdout stderr : jstring) (hasFailures : bool)
    (info : FatalErrorInfo) (file : jstring) (p : path) :
  detectFatalError stdout stderr = true ->
  JsMap.size (parseTestResults stdout stderr) = 0%nat ->
  extractFatalErrorInfo stdout stderr = Some info ->
  fe_file info = Some file ->
  stateOf (parseAndMarkChildren parentTest run stdout stderr hasFailures) p
  = if affected parentTest info p then Failed else stateOf run p.
Proof.
  intros Hf Hs He _. unfold parseAndMarkChildren. rewrite Hf, He.
  now apply markChildren_early.
Qed.

Lemma early_abort_scoping_witness :
  stateOf (parseAndMarkChildren unitSuite previousRun fatalOutput [] true)
          testBar = Failed
  /\ stateOf (parseAndMarkChildren unitSuite previousRun fatalOutput [] true)
             testLogin = Passed
  /\ stateOf (parseAndMarkChildren unitSuite previousRun fatalOutput [] true)
             testLogout = Failed.
Proof.
  pose proof (fun p =>
    early_abort_scoping unitSuite previousRun fatalOutput [] true
      (mkFatalErrorInfo (str "Trait 'Helper' not found") (Some fooTest)
                        (Some 228))
      fooTest p eq_refl eq_refl eq_refl eq_refl) as H.
  repeat split; rewrite H; reflexivity.
Defined.

(** Outside the amended statement: a fatal error that is detected but
    not extracted sends the run through normal execution, which reports
    the tests it has no result for as passed; a fatal error extracted
    without a file matches every file. *)
Lemma fatal_error_without_location :
  detectFatalError fatalWithoutPrefix [] = true
  /\ extractFatalErrorInfo fatalWithoutPrefix [] = None
  /\ stateOf (parseAndMarkChildren unitSuite previousRun fatalWithoutPrefix
                                   [] true) testLogout = Passed
  /\ (fe_file <$> extractFatalErrorInfo fatalWithoutLocation []) = Some None
  /\ stateOf (parseAndMarkChildren unitSuite previousRun fatalWithoutLocation
                                   [] true) testLogin = Failed.
Proof. vm_compute. repeat split. Qed.

(** C3, as stated, fails: the suite being run is neither the file of
    the fatal error nor one of its methods, and it goes from [Unset] to
    [Failed]. *)
Lemma early_abort_marks_the_suite :
  ~ earlyAbortScopingAsStated unitSuite ∅ fatalOutput [] true.
Proof.
  intros H. specialize (H eq_refl eq_refl []).
  vm_compute in H. discriminate H.
Qed.

(** C2. The default does not reach every leaf. In a suite of two files
    that both have a method [testLogin], with an output that mentions no
    test, no report, and exit code 0, the keys of the name map all lead
    to the method of the second file, and [markUnseenTests] walks the
    map: the method of the first file is left [Unset] when [onComplete]
    is done, and when [executeTestWithStreaming] returns, while
    [parseAndMarkChildren], which walks the tree, marks it [Passed]. *)
Theorem default_pass_misses_same_name_leaf :
  Aggregate.leafAt twoFiles testLogin
    = Some (Item (str "unit:tests/unit/LoginTest.php::testLogin")
                 (Some loginTest) [])
  /\ JsMap.values (buildTestNameMap twoFiles)
     = [[1; 0]; [1; 0]; [1; 0]; [1; 0]]%nat
  /\ outcomeOf (run <$> onComplete noReport (buildTestNameMap twoFiles)
                          silentRun 0%Z) testLogin
     = Some Unset
  /\ outcomeOf (executeTestWithStreaming noReport twoFiles (started [] ∅)
                  [] (Close (Some 0%Z) None) false) testLogin
     = Some Unset
  /\ stateOf (parseAndMarkChildren twoFiles (started [] ∅) [] [] false)
             testLogin
     = Passed.
Proof. vm_compute. repeat split. Qed.

(** C5. A suite is marked [Passed] with a declared leaf that got no
    outcome. In the run of [twoFiles] above, when [onComplete] is done
    the method of the first file is [Unset], no leaf is [Failed], and
    the suite is [Passed]: [onComplete] decides on the exit code, the
    fatal errors and the streamed failures, and does not count the
    leaves as [parseAndMarkChildren] does. *)
Theorem suite_passed_with_unset_leaf :
  Aggregate.isContainer twoFiles [] = true
  /\ Aggregate.leavesOf twoFiles [] = [[0; 0]; [1; 0]]%nat
  /\ map (fun leaf =>
            outcomeOf (run <$> onComplete noReport (buildTestNameMap twoFiles)
                                 silentRun 0%Z) leaf)
         (Aggregate.leavesOf twoFiles [])
     = [Some Unset; Some Passed]
  /\ outcomeOf (run <$> onComplete noReport (buildTestNameMap twoFiles)
                          silentRun 0%Z) []
     = Some Passed
  /\ totalChildren twoFiles = 2%nat.
Proof. vm_compute. repeat split. Qed.

End Laws.

(** * Further properties *)

(** ** The carry-over buffer *)

Section Buffer.

Lemma join_split (s : jstring) : join [newline] (split s) = s.
Proof.
  induction s as [|c s IH]; [reflexivity|].
  cbn [split]. pose proof (split_not_nil s) as Hne.
  destruct (c =? newline) eqn:E.
  - apply N.eqb_eq in E. subst c.
    destruct (split s) as [|l ls]; [congruence|].
    cbn [join] in *. now rewrite IH.
  - destruct (split s) as [|l ls]; [congruence|].
    destruct ls as [|l2 ls]; cbn [join] in *; now rewrite <- IH.
Qed.

Lemma join_snoc (init : list jstring) (x : jstring) :
  join [newline] (init ++ [x])
  = concat (map (fun l => l ++ [newline]) init) ++ x.
Proof.
  induction init as [|l init IH]; [reflexivity|].
  cbn [app map concat]. rewrite <- app_assoc, <- IH.
  destruct init; cbn [app join]; now rewrite <- ?app_assoc.
Qed.

Lemma split_pieces (s : jstring) :
  Forall (fun l => ~ In newline l) (split s).
Proof.
  induction s as [|c s IH]; cbn [split].
  - constructor; [intros []|constructor].
  - destruct (c =? newline) eqn:E.
    + constructor; [intros []|exact IH].
    + destruct (split s) as [|l ls]; [repeat constructor; intros [->|[]];
        now rewrite N.eqb_refl in E|].
      inversion IH as [|? ? Hl Hls]; subst. constructor; [|exact Hls].
      intros [->|H]; [now rewrite N.eqb_refl in E|now apply Hl].
Qed.

Lemma split_without_newline (s : jstring) :
  ~ In newline s -> split s = [s].
Proof.
  induction s as [|c s IH]; intros H; [reflexivity|].
  cbn [split]. destruct (c =? newline) eqn:E.
  - apply N.eqb_eq in E. subst c. exfalso. apply H. now left.
  - rewrite IH; [reflexivity|]. intros Hin. apply H. now right.
Qed.

(** The complete lines [processChunk] classifies. *)
Lemma split_decompose (s : jstring) :
  s = concat (map (fun l => l ++ [newline]) (removelast (split s)))
      ++ List.last (split s) []
  /\ Forall (fun l => ~ In newline l) (removelast (split s))
  /\ ~ In newline (List.last (split s) []).
Proof.
  pose proof (split_not_nil s) as Hne.
  pose proof (split_pieces s) as Hall.
  pose proof (join_split s) as Hj.
  rewrite (app_removelast_last [] Hne) in Hj, Hall.
  rewrite join_snoc in Hj. apply Forall_app in Hall as [H1 H2].
  inversion H2; subst. auto.
Qed.

(** What [processChunk] does with the carry-over buffer: the lines it
    classifies, each followed by its newline, and then the buffer it
    leaves, spell the old buffer followed by the chunk; neither a line nor
    the new buffer holds a newline; the callbacks are those of the lines,
    trimmed, in order. *)
Theorem processChunk_lines (e : Executor) (chunk : jstring) :
  exists lines : list jstring,
    lineBuffer e ++ chunk
    = concat (map (fun l => l ++ [newline]) lines)
      ++ lineBuffer (fst (processChunk e chunk))
    /\ Forall (fun l => ~ In newline l) lines
    /\ ~ In newline (lineBuffer (fst (processChunk e chunk)))
    /\ snd (processChunk e chunk)
       = flat_map (fun line => parseLine (trim line)) lines.
Proof.
  exists (removelast (split (lineBuffer e ++ chunk))).
  destruct (split_decompose (lineBuffer e ++ chunk)) as (H1 & H2 & H3).
  unfold processChunk. cbn [fst snd lineBuffer]. auto.
Qed.

Lemma processChunk_without_newline (e : Executor) (chunk : jstring) :
  ~ In newline (lineBuffer e) -> ~ In newline chunk ->
  processChunk e chunk
  = (mkExecutor (lineBuffer e ++ chunk) (stderrBuffer e), []).
Proof.
  intros Hb Hc. unfold processChunk.
  rewrite split_without_newline; [reflexivity|].
  intros [H|H]%in_app_or; auto.
Qed.

Lemma processChunk_buffer (e : Executor) (chunk : jstring) :
  ~ In newline (lineBuffer (fst (processChunk e chunk))).
Proof.
  destruct (split_decompose (lineBuffer e ++ chunk)) as (_ & _ & H).
  exact H.
Qed.

Lemma onData_buffer (ch : Channel) (e : Executor) (data : jstring) :
  ~ In newline (lineBuffer (fst (onData ch e data))).
Proof.
  destruct ch; cbn [onData]; unfold onStdout, onStderr.
  - pose proof (processChunk_buffer e data) as H.
    destruct (processChunk e data); exact H.
  - set (e1 := mkExecutor _ _).
    pose proof (processChunk_buffer e1 data) as H.
    destruct (processChunk e1 data); exact H.
Qed.

Lemma feed_buffer (chunks : list (Channel * jstring)) (e : Executor) :
  ~ In newline (lineBuffer e) ->
  ~ In newline (lineBuffer (fst (feed e chunks))).
Proof.
  revert e. induction chunks as [|[ch data] chunks IH]; intros e He; [exact He|].
  cbn [feed]. pose proof (onData_buffer ch e data) as H1.
  destruct (onData ch e data) as [e1 cbs1]. cbn [fst] in H1.
  specialize (IH e1 H1). destruct (feed e1 chunks). exact IH.
Qed.

Lemma feed_app (a b : list (Channel * jstring)) (e : Executor) :
  feed e (a ++ b)
  = let '(e1, cbs1) := feed e a in
    let '(e2, cbs2) := feed e1 b in
    (e2, cbs1 ++ cbs2).
Proof.
  revert e. induction a as [|[ch data] a IH]; intros e; cbn [app feed].
  - destruct (feed e b). reflexivity.
  - destruct (onData ch e data) as [e1 cbs1]. rewrite IH.
    destruct (feed e1 a) as [e2 cbs2]. destruct (feed e2 b) as [e3 cbs3].
    now rewrite app_assoc.
Qed.

Lemma results_app (a b : list Callback) :
  results (a ++ b) = results a ++ results b.
Proof. unfold results. apply flat_map_app. Qed.

(** A line is classified only when its newline has arrived: output that
    ends without a newline adds no result, on either pipe, and the end of
    the process adds none either, so a last line without newline is never
    classified. *)
Theorem unterminated_line_not_classified
    (e : Executor) (chunks : list (Channel * jstring)) (ch : Channel)
    (tail : jstring) (ending : Ending) :
  ~ In newline (lineBuffer e) ->
  ~ In newline tail ->
  results (snd (feed e (chunks ++ [(ch, tail)]))) = results (snd (feed e chunks))
  /\ results (snd (fst (onEnding (fst (feed e (chunks ++ [(ch, tail)])))
                                 ending))) = [].
Proof.
  intros He Ht. split.
  - rewrite feed_app. pose proof (feed_buffer chunks e He) as Hb.
    destruct (feed e chunks) as [e1 cbs1]. cbn [fst snd] in *.
    cbn [feed]. destruct ch; cbn [onData]; unfold onStdout, onStderr.
    + rewrite processChunk_without_newline by assumption.
      cbn [snd]. rewrite results_app. cbn. now rewrite app_nil_r.
    + rewrite processChunk_without_newline by assumption.
      cbn [snd]. rewrite results_app. cbn. now rewrite app_nil_r.
  - destruct ending as [code [sg|]|msg code signal|]; cbn [onEnding];
      [destruct (JsString.eqb sg _)| | |]; reflexivity.
Qed.

Lemma unterminated_line_not_classified_witness :
  results (snd (feed StreamingTestExecutor.fresh
                  ([(Stdout, [checkmark] ++ str " testLogin" ++ [newline])]
                   ++ [(Stdout, [crossmark] ++ str " testLogout")])))
  = [(str "testLogin", true)].
Proof.
  etransitivity; [|reflexivity].
  apply (unterminated_line_not_classified
           StreamingTestExecutor.fresh
           [(Stdout, [checkmark] ++ str " testLogin" ++ [newline])]
           Stdout ([crossmark] ++ str " testLogout") (Close (Some 0%Z) None)).
  - intros [].
  - vm_compute. intuition discriminate.
Defined.

End Buffer.

(** ** Docker errors *)

Section Docker.

Import Language.

(** An error that [isDockerError] recognises is never shown raw:
    [getDockerErrorMessage] replaces it by one of its five messages. *)
Theorem docker_error_has_friendly_message (errorMessage stderr : jstring) :
  isDockerError errorMessage stderr = true ->
  In (getDockerErrorMessage errorMessage stderr) dockerMessages.
Proof.
  unfold isDockerError, getDockerErrorMessage, dockerMessages.
  set (c := toLowerCase (errorMessage ++ str " " ++ stderr)).
  destruct (includes c (str "command not found")),
    (includes c (str "not recognized")), (includes c (str "enoent")),
    (includes c (str "cannot connect to the docker daemon")),
    (includes c (str "no such container")),
    (includes c (str "is not running")),
    (includes c (str "permission denied")), (includes c (str "docker"));
    cbn [orb andb]; intros H; try discriminate H; cbn [In]; auto 6.
Qed.

Lemma docker_error_has_friendly_message_witness :
  In (getDockerErrorMessage
        (str "Command failed: docker exec app vendor/bin/codecept")
        (str "Error response from daemon: No such container: app"))
     dockerMessages.
Proof.
  apply (docker_error_has_friendly_message
           (str "Command failed: docker exec app vendor/bin/codecept")
           (str "Error response from daemon: No such container: app")).
  reflexivity.
Defined.

End Docker.

(** ** The command line *)

Section Command.

Import Language CommandLine.

Lemma trimStart_id (s : jstring) :
  forallb (fun c => negb (isSpace c)) s = true -> trimStart s = s.
Proof.
  destruct s as [|c s]; [reflexivity|]. cbn.
  intros [H _]%andb_true_iff. apply negb_true_iff in H. now rewrite H.
Qed.

Lemma trim_id (s : jstring) :
  forallb (fun c => negb (isSpace c)) s = true -> trim s = s.
Proof.
  intros H. unfold trim, trimEnd. rewrite (trimStart_id s H).
  rewrite trimStart_id; [apply rev_involutive|].
  apply forallb_forall. intros c Hc%in_rev.
  rewrite forallb_forall in H. now apply H.
Qed.

Lemma trimStart_spaces (s : jstring) :
  forallb isSpace s = true -> trimStart s = [].
Proof.
  induction s as [|c s IH]; [reflexivity|]. cbn.
  intros [-> H]%andb_true_iff. now apply IH.
Qed.

Lemma trim_spaces (s : jstring) : forallb isSpace s = true -> trim s = [].
Proof. intros H. unfold trim. now rewrite trimStart_spaces. Qed.

Lemma plainWord_spec (w : jstring) :
  plainWord w = true ->
  nonEmpty w = true /\ forallb plainChar w = true /\ trim w = w.
Proof.
  unfold plainWord. intros [H1 H2]%andb_true_iff. repeat split; auto.
  apply trim_id. apply forallb_forall. intros c Hc.
  rewrite forallb_forall in H2. specialize (H2 c Hc).
  unfold plainChar in H2. now apply andb_true_iff in H2 as [? _].
Qed.

Lemma scan_word (w : jstring) (st : Scan) :
  forallb plainChar w = true -> inQuotes st = false ->
  fold_left scanChar w st
  = mkScan (parts st) (current st ++ w) false (quoteChar st).
Proof.
  revert st. induction w as [|c w IH]; intros st Hw Hq.
  - destruct st; cbn in *. subst. now rewrite app_nil_r.
  - cbn [forallb] in Hw. apply andb_true_iff in Hw as [Hc Hw].
    cbn [fold_left]. rewrite IH; [| assumption |].
    + unfold scanChar, plainChar in *. rewrite Hq.
      apply andb_true_iff in Hc as [Hs Hn].
      apply negb_true_iff in Hs, Hn. rewrite Hn.
      assert ((c =? 32) = false) as ->.
      { destruct (c =? 32) eqn:E; [|reflexivity].
        apply N.eqb_eq in E. subst c. discriminate Hs. }
      rewrite andb_false_r. cbn. now rewrite <- app_assoc.
    + unfold scanChar, plainChar in *. rewrite Hq.
      apply andb_true_iff in Hc as [Hs Hn].
      apply negb_true_iff in Hs, Hn. rewrite Hn.
      assert ((c =? 32) = false) as ->.
      { destruct (c =? 32) eqn:E; [|reflexivity].
        apply N.eqb_eq in E. subst c. discriminate Hs. }
      rewrite andb_false_r. reflexivity.
Qed.

Lemma scan_words (ws : list jstring) (w : jstring) (P : list jstring)
    (q : option N) :
  forallb plainWord (w :: ws) = true ->
  let st := fold_left scanChar (join [32] (w :: ws)) (mkScan P [] false q) in
  (if nonEmpty (trim (current st)) then parts st ++ [trim (current st)]
   else parts st) = P ++ w :: ws.
Proof.
  revert w P. induction ws as [|w2 ws IH]; intros w P H.
  - cbn [forallb] in H. apply andb_true_iff in H as [Hw _].
    apply plainWord_spec in Hw as (Hne & Hp & Ht).
    cbn [join]. cbv zeta. rewrite scan_word by auto. cbn [current parts app].
    now rewrite Ht, Hne.
  - assert (Hall := H). cbn [forallb] in H.
    apply andb_true_iff in H as [Hw Hrest].
    apply plainWord_spec in Hw as (Hne & Hp & Ht).
    change (join [32] (w :: w2 :: ws))
      with (w ++ [32] ++ join [32] (w2 :: ws)).
    cbv zeta. rewrite !fold_left_app.
    rewrite (scan_word w) by (auto; reflexivity).
    cbn [current parts app quoteChar fold_left].
    assert (scanChar (mkScan P w false q) 32 = mkScan (P ++ [w]) [] false q)
      as ->.
    { unfold scanChar. cbn [inQuotes current parts quoteChar].
      change (isQuote 32) with false. cbn [andb negb].
      rewrite andb_false_r. change (32 =? 32) with true. cbn [andb].
      now rewrite Ht, Hne. }
    specialize (IH w2 (P ++ [w]) Hrest). cbv zeta in IH. rewrite IH.
    now rewrite <- app_assoc.
Qed.

(** Words that need no quoting survive the round trip: joined by single
    spaces and parsed, they come back as the executable and its
    arguments. *)
Theorem parseCommand_words (w : jstring) (ws : list jstring) :
  forallb plainWord (w :: ws) = true ->
  parseCommand (join [32] (w :: ws)) = Ret (mkCommand w ws).
Proof.
  intros H. unfold parseCommand.
  pose proof (scan_words ws w [] None H) as E. cbv zeta in E.
  rewrite E. reflexivity.
Qed.

Lemma parseCommand_words_witness :
  parseCommand (str "vendor/bin/codecept run unit tests/unit/FooTest.php:testBar --xml")
  = Ret (mkCommand (str "vendor/bin/codecept")
                   [str "run"; str "unit"; str "tests/unit/FooTest.php:testBar";
                    str "--xml"]).
Proof.
  apply (parseCommand_words (str "vendor/bin/codecept")
           [str "run"; str "unit"; str "tests/unit/FooTest.php:testBar";
            str "--xml"]).
  reflexivity.
Defined.

Lemma scan_blank (s : jstring) (cur : jstring) :
  forallb isSpace s = true -> forallb isSpace cur = true ->
  exists cur',
    fold_left scanChar s (mkScan [] cur false None) = mkScan [] cur' false None
    /\ forallb isSpace cur' = true.
Proof.
  revert cur. induction s as [|c s IH]; intros cur Hs Hcur; [eauto|].
  cbn [forallb] in Hs. apply andb_true_iff in Hs as [Hc Hs].
  cbn [fold_left]. unfold scanChar at 2. cbn [inQuotes current parts quoteChar].
  assert (isQuote c = false) as ->.
  { unfold isQuote. destruct (c =? 34) eqn:E1;
      [apply N.eqb_eq in E1; subst; discriminate Hc|].
    destruct (c =? 39) eqn:E2;
      [apply N.eqb_eq in E2; subst; discriminate Hc|reflexivity]. }
  cbn [andb negb]. rewrite andb_false_r.
  destruct (c =? 32); cbn [andb].
  - rewrite (trim_spaces cur Hcur). cbn [nonEmpty]. now apply IH.
  - apply IH; [assumption|]. rewrite forallb_app, Hcur. cbn. now rewrite Hc.
Qed.

(** A command of white space only, the empty command included, is
    refused with the error [Empty command]. *)
Theorem parseCommand_blank (command : jstring) :
  forallb isSpace command = true ->
  parseCommand command = Throw (str "Empty command").
Proof.
  intros H. unfold parseCommand.
  destruct (scan_blank command [] H eq_refl) as (cur & -> & Hcur).
  cbn [current parts]. now rewrite (trim_spaces cur Hcur).
Qed.

Lemma parseCommand_blank_witness :
  parseCommand (str "   ") = Throw (str "Empty command").
Proof. apply parseCommand_blank. reflexivity. Defined.

End Command.

(** ** Maps *)

Section Maps.

Context {V : Type}.

Lemma get_set_eq (m : JsMap.t V) (k : jstring) (v : V) :
  JsMap.get (JsMap.set m k v) k = Some v.
Proof.
  induction m as [|[k' v'] m IH]; cbn.
  - now rewrite decide_True.
  - destruct (decide (k' = k)) as [->|Hne]; cbn.
    + now rewrite decide_True.
    + now rewrite decide_False.
Qed.

Lemma get_set_ne (m : JsMap.t V) (k k' : jstring) (v : V) :
  k <> k' -> JsMap.get (JsMap.set m k v) k' = JsMap.get m k'.
Proof.
  intros Hne. induction m as [|[k0 v0] m IH]; cbn.
  - now rewrite decide_False.
  - destruct (decide (k0 = k)) as [->|Hk]; cbn.
    + now rewrite !decide_False.
    + destruct (decide (k0 = k')); [reflexivity|assumption].
Qed.

Lemma get_set (m : JsMap.t V) (k k' : jstring) (v : V) :
  JsMap.get (JsMap.set m k v) k'
  = if decide (k = k') then Some v else JsMap.get m k'.
Proof.
  destruct (decide (k = k')) as [->|Hne];
    [apply get_set_eq|now apply get_set_ne].
Qed.

Lemma has_set (m : JsMap.t V) (k k' : jstring) (v : V) :
  JsMap.has (JsMap.set m k v) k' = bool_decide (k = k') || JsMap.has m k'.
Proof.
  unfold JsMap.has. rewrite get_set.
  destruct (decide (k = k')) as [->|Hne].
  - now rewrite bool_decide_eq_true_2.
  - now rewrite bool_decide_eq_false_2.
Qed.

End Maps.

(** ** The results kept while the output streams *)

Section Streamed.

Import Names.

Variables (cfg : Config) (testNameMap : JsMap.t path).

Local Abbreviation seenIsKept s :=
  (forall n : jstring, n ∈ seenTests s <-> JsMap.has (testResults s) n = true).

Lemma onTestResult_first (s : Streaming) (testName : jstring) (passed : bool)
    (output : jstring) :
  seenIsKept s ->
  seenIsKept (onTestResult testNameMap s testName passed output)
  /\ forall n : jstring,
       JsMap.get (testResults (onTestResult testNameMap s testName passed output)) n
       = match JsMap.get (testResults s) n with
         | Some v => Some v
         | None =>
             if JsMap.has testNameMap testName then
               if decide (testName = n) then Some (passed, output) else None
             else None
         end.
Proof.
  intros Hinv.
  assert (JsMap.has testNameMap testName
          = match JsMap.get testNameMap testName with
            | Some _ => true | None => false end) as -> by reflexivity.
  unfold onTestResult.
  destruct (JsMap.get testNameMap testName) as [item|].
  2:{ split; [assumption|]. intros n. now destruct (JsMap.get (testResults s) n). }
  destruct (decide (testName ∈ seenTests s)) as [Hseen|Hnew].
  - split; [assumption|]. intros n.
    destruct (JsMap.get (testResults s) n) eqn:E; [reflexivity|].
    destruct (decide (testName = n)) as [->|]; [|reflexivity].
    apply Hinv in Hseen. unfold JsMap.has in Hseen. now rewrite E in Hseen.
  - cbn [testResults seenTests]. split.
    + intros n. rewrite has_set, elem_of_union, elem_of_singleton, Hinv.
      destruct (decide (testName = n)) as [->|Hne].
      * rewrite bool_decide_eq_true_2 by done. cbn. tauto.
      * rewrite bool_decide_eq_false_2 by done. cbn.
        split; [intros [E|H]; [congruence|assumption]|tauto].
    + intros n. rewrite get_set.
      destruct (decide (testName = n)) as [->|Hne].
      * destruct (JsMap.get (testResults s) n) eqn:E; [|reflexivity].
        exfalso. apply Hnew, Hinv. unfold JsMap.has. now rewrite E.
      * now destruct (JsMap.get (testResults s) n).
Qed.

Lemma handleAll_first (cbs : list Callback) (s : Streaming) :
  forallb isOutput cbs = true -> seenIsKept s ->
  exists s',
    handleAll cfg testNameMap s cbs = Ret s'
    /\ seenIsKept s'
    /\ forall n : jstring,
         JsMap.get (testResults s') n
         = match JsMap.get (testResults s) n with
           | Some v => Some v
           | None =>
               if JsMap.has testNameMap n then firstResult n cbs else None
           end.
Proof.
  revert s. induction cbs as [|cb cbs IH]; intros s Hout Hinv.
  - exists s. repeat split; try apply Hinv.
    intros n. cbn. destruct (JsMap.get (testResults s) n); [reflexivity|].
    now destruct (JsMap.has testNameMap n).
  - cbn [forallb] in Hout. apply andb_true_iff in Hout as [Hcb Hout].
    destruct cb as [data|testName passed output| |]; try discriminate Hcb.
    + destruct (IH (onOutput s data) Hout Hinv) as (s' & E & Hinv' & Hget).
      exists s'. repeat split; [exact E|apply Hinv'|apply Hinv'|].
      intros n. rewrite Hget. reflexivity.
    + destruct (onTestResult_first s testName passed output Hinv)
        as [Hinv1 Hget1].
      destruct (IH _ Hout Hinv1) as (s' & E & Hinv' & Hget).
      exists s'. repeat split; [exact E|apply Hinv'|apply Hinv'|].
      intros n. rewrite Hget, Hget1. cbn [firstResult].
      destruct (JsMap.get (testResults s) n); [reflexivity|].
      destruct (decide (testName = n)) as [->|Hne].
      * now destruct (JsMap.has testNameMap n).
      * destruct (JsMap.has testNameMap testName); reflexivity.
Qed.

(** While the output streams, the first result of a registered name is
    the one kept, later results of that name and results of names that
    are not registered are dropped, and the names seen are the names
    with a result. *)
Theorem first_result_is_kept (run0 : gmap (list nat) Outcome)
    (cbs : list Callback) :
  forallb isOutput cbs = true ->
  exists s,
    handleAll cfg testNameMap (mkStreaming run0 ∅ JsMap.empty []) cbs = Ret s
    /\ (forall n : jstring,
          JsMap.get (testResults s) n
          = if JsMap.has testNameMap n then firstResult n cbs else None)
    /\ (forall n : jstring,
          n ∈ seenTests s <-> JsMap.has (testResults s) n = true).
Proof.
  intros Hout.
  destruct (handleAll_first cbs (mkStreaming run0 ∅ JsMap.empty []) Hout)
    as (s & E & Hinv & Hget).
  { intros n. cbn. split; [intros H; now apply elem_of_empty in H|discriminate]. }
  exists s. repeat split; [exact E| |apply Hinv|apply Hinv].
  intros n. now rewrite Hget.
Qed.

End Streamed.

Lemma first_result_is_kept_witness :
  exists s,
    handleAll noReport (buildTestNameMap unitSuite)
      (mkStreaming ∅ ∅ JsMap.empty [])
      (snd (feed StreamingTestExecutor.fresh loginFailedOutput)) = Ret s
    /\ (forall n : jstring,
          JsMap.get (testResults s) n
          = if JsMap.has (buildTestNameMap unitSuite) n
            then Names.firstResult n
                   (snd (feed StreamingTestExecutor.fresh loginFailedOutput))
            else None)
    /\ (forall n : jstring,
          n ∈ seenTests s <-> JsMap.has (testResults s) n = true).
Proof.
  apply (first_result_is_kept noReport (buildTestNameMap unitSuite) ∅
           (snd (feed StreamingTestExecutor.fresh loginFailedOutput))).
  reflexivity.
Defined.

(** ** The verdicts of normal execution *)

Section Verdict.

Import Aggregate Verdicts.

Variable testResults : JsMap.t TestResult.

Lemma markMethod_tally (i : nat) (run : gmap (list nat) Outcome) (t : Tally)
    (f : FileTally) (j : nat) (m : TestItem) :
  snd (fst (markMethod testResults i (run, t, f) j m))
  = mkTally (foundAnyResults t || mentioned testResults m)
            (allChildrenPassed t && negb (failedLeaf testResults m))
            (someChildrenFailed t || failedLeaf testResults m)
            (S (ranChildrenCount t))
  /\ snd (markMethod testResults i (run, t, f) j m)
     = mkFileTally true
                   (fileAllPassed f && negb (failedLeaf testResults m))
                   (fileSomeFailed f || failedLeaf testResults m)
                   (S (fileRanCount f)).
Proof.
  unfold markMethod, mentioned, failedLeaf, methodOutcome, JsMap.has.
  destruct (JsMap.get testResults _) as [result|];
    [destruct (passed result)|]; cbn [fst snd foundAnyResults
      allChildrenPassed someChildrenFailed ranChildrenCount fileHadResults
      fileAllPassed fileSomeFailed fileRanCount];
    rewrite ?(bool_decide_eq_false_2 (Passed = Failed)) by discriminate;
    rewrite ?(bool_decide_eq_true_2 (Failed = Failed)) by reflexivity;
    cbn [negb]; rewrite ?orb_true_r, ?orb_false_r, ?andb_true_r, ?andb_false_r;
    split; reflexivity.
Qed.

Lemma methods_tally (i : nat) (ms : list TestItem) (k : nat)
    (run : gmap (list nat) Outcome) (t : Tally) (f : FileTally) :
  snd (fst (forEach (markMethod testResults i) ms k (run, t, f)))
  = mkTally (foundAnyResults t || mentionedIn testResults ms)
            (allChildrenPassed t && negb (failedIn testResults ms))
            (someChildrenFailed t || failedIn testResults ms)
            (ranChildrenCount t + length ms)
  /\ snd (forEach (markMethod testResults i) ms k (run, t, f))
     = mkFileTally (fileHadResults f || Nat.ltb 0 (length ms))
                   (fileAllPassed f && negb (failedIn testResults ms))
                   (fileSomeFailed f || failedIn testResults ms)
                   (fileRanCount f + length ms).
Proof.
  revert k run t f. induction ms as [|m ms IH]; intros k run t f.
  - cbn. rewrite !orb_false_r, !andb_true_r, !Nat.add_0_r.
    now destruct t, f.
  - cbn [forEach].
    destruct (markMethod testResults i (run, t, f) k m) as [[run1 t1] f1] eqn:E.
    destruct (markMethod_tally i run t f k m) as [Ht Hf].
    rewrite E in Ht, Hf. cbn [fst snd] in Ht, Hf. subst t1 f1.
    destruct (IH (S k) run1
                (mkTally (foundAnyResults t || mentioned testResults m)
                   (allChildrenPassed t && negb (failedLeaf testResults m))
                   (someChildrenFailed t || failedLeaf testResults m)
                   (S (ranChildrenCount t)))
                (mkFileTally true
                   (fileAllPassed f && negb (failedLeaf testResults m))
                   (fileSomeFailed f || failedLeaf testResults m)
                   (S (fileRanCount f)))) as [-> ->].
    cbn [foundAnyResults allChildrenPassed someChildrenFailed
         ranChildrenCount fileHadResults fileAllPassed fileSomeFailed
         fileRanCount mentionedIn failedIn existsb length].
    unfold mentionedIn, failedIn.
    rewrite negb_orb, !orb_assoc, !andb_assoc, orb_true_r.
    split; f_equal; lia.
Qed.

(** What one child adds to the counters of the item being run. *)
Lemma markChild_tally (run : gmap (list nat) Outcome) (t : Tally) (i : nat)
    (child : TestItem) :
  snd (markChild testResults (run, t) i child)
  = mkTally (foundAnyResults t || mentionedIn testResults (leafItemsOf child))
            (allChildrenPassed t
             && negb (failedIn testResults (leafItemsOf child)))
            (someChildrenFailed t || failedIn testResults (leafItemsOf child))
            (ranChildrenCount t + length (leafItemsOf child)).
Proof.
  unfold markChild, leafItemsOf, hasChildren.
  destruct (Nat.ltb 0 (length (children child))) eqn:Hc.
  - destruct (forEach _ _ _ _) as [[run' t'] f'] eqn:E.
    destruct (methods_tally i (children child) 0 (started [i] run) t
                (mkFileTally false true false 0)) as [Ht _].
    rewrite E in Ht. cbn [fst snd] in Ht. subst t'.
    repeat match goal with
           | |- context [if ?c then _ else _] => destruct c
           end; reflexivity.
  - destruct (markMethod_tally i run t (mkFileTally false true false 0) 0 child)
      as [Ht _].
    unfold markMethod in Ht.
    unfold mentionedIn, failedIn. cbn [existsb length].
    rewrite !orb_false_r, Nat.add_1_r.
    destruct (JsMap.get testResults _) as [result|];
      [destruct (passed result)|]; cbn [fst snd] in Ht |- *; exact Ht.
Qed.

(** A file with methods always gets a verdict from its methods. *)
Lemma markChild_file (run : gmap (list nat) Outcome) (t : Tally) (i : nat)
    (child : TestItem) :
  hasChildren child = true ->
  fst (markChild testResults (run, t) i child) !! [i]
  = Some (if failedIn testResults (children child) then Failed else Passed).
Proof.
  unfold hasChildren. intros Hc. unfold markChild. rewrite Hc.
  destruct (forEach _ _ _ _) as [[run' t'] f'] eqn:E.
  destruct (methods_tally i (children child) 0 (started [i] run) t
              (mkFileTally false true false 0)) as [_ Hf].
  rewrite E in Hf. cbn [fst snd] in Hf. subst f'.
  cbn [fileHadResults fileAllPassed fileSomeFailed fileRanCount].
  rewrite Hc. cbn [orb andb plus].
  destruct (failedIn testResults (children child)); cbn [negb andb fst].
  - unfold markFailed. now rewrite lookup_insert_eq.
  - rewrite Nat.eqb_refl. cbn [fst]. unfold markPassed.
    now rewrite lookup_insert_eq.
Qed.

Lemma children_tally (cs : list TestItem) (k : nat)
    (run : gmap (list nat) Outcome) (t : Tally) :
  snd (forEach (markChild testResults) cs k (run, t))
  = mkTally (foundAnyResults t
             || mentionedIn testResults (flat_map leafItemsOf cs))
            (allChildrenPassed t
             && negb (failedIn testResults (flat_map leafItemsOf cs)))
            (someChildrenFailed t
             || failedIn testResults (flat_map leafItemsOf cs))
            (ranChildrenCount t + length (flat_map leafItemsOf cs)).
Proof.
  revert k run t. induction cs as [|c cs IH]; intros k run t.
  - cbn. rewrite !orb_false_r, !andb_true_r, !Nat.add_0_r. now destruct t.
  - cbn [forEach flat_map].
    destruct (markChild testResults (run, t) k c) as [run1 t1] eqn:E.
    pose proof (markChild_tally run t k c) as Ht.
    rewrite E in Ht. cbn [snd] in Ht. subst t1. rewrite IH.
    cbn [foundAnyResults allChildrenPassed someChildrenFailed
         ranChildrenCount].
    unfold mentionedIn, failedIn.
    rewrite !existsb_app, length_app, negb_orb, !orb_assoc, !andb_assoc.
    f_equal; lia.
Qed.

Lemma totalChildren_leafItems (parentTest : TestItem) :
  totalChildren parentTest = length (leafItems parentTest).
Proof.
  unfold totalChildren, leafItems.
  assert (forall cs n,
            fold_left
              (fun count child =>
                 (count + (if Nat.ltb 0 (length (children child))
                           then length (children child) else 1))%nat) cs n
            = (n + length (flat_map leafItemsOf cs))%nat) as H.
  { induction cs as [|c cs IH]; intros n; cbn [fold_left flat_map length].
    - lia.
    - rewrite IH, length_app. unfold leafItemsOf at 2, hasChildren.
      destruct (Nat.ltb 0 (length (children c))); cbn [length]; lia. }
  apply H.
Qed.

Lemma children_parent (cs : list TestItem) (k : nat)
    (acc : gmap (list nat) Outcome * Tally) :
  fst (forEach (markChild testResults) cs k acc) !! ([] : list nat)
  = fst acc !! ([] : list nat).
Proof.
  apply (forEach_keeps (markChild testResults)
           (fun s => fst s !! ([] : list nat) = fst acc !! ([] : list nat)));
    [|reflexivity].
  intros s i x _ <-. apply markChild_other. discriminate.
Qed.

Lemma children_file (parentTest : TestItem)
    (acc : gmap (list nat) Outcome * Tally) (i : nat) (child : TestItem) :
  children parentTest !! i = Some child ->
  hasChildren child = true ->
  fst (forEach (markChild testResults) (children parentTest) 0 acc) !! [i]
  = Some (if failedIn testResults (children child) then Failed else Passed).
Proof.
  intros Hi Hc.
  apply (forEach_at (markChild testResults) (fun _ => True)
           (fun s => fst s !! [i]
                     = Some (if failedIn testResults (children child)
                             then Failed else Passed))
           (children parentTest) i child acc Hi); auto.
  - intros [run t] _. now apply markChild_file.
  - intros s j y Hne Hs. rewrite markChild_other; [exact Hs|].
    cbn. congruence.
Qed.

Lemma markChildren_normal (parentTest : TestItem)
    (run : gmap (list nat) Outcome) (hasFatalError : bool)
    (extracted : option FatalErrorInfo) (hasFailures : bool) :
  earlyAbort testResults hasFatalError extracted = false ->
  markChildren parentTest run testResults hasFatalError extracted hasFailures
  = markParent parentTest hasFailures
      (forEach (markChild testResults) (children parentTest) 0
               (run, mkTally false true false 0)).
Proof.
  unfold earlyAbort, markChildren. intros Hea.
  destruct hasFatalError, (Nat.eqb (JsMap.size testResults) 0), extracted;
    cbn in Hea |- *; try discriminate; reflexivity.
Qed.

Lemma markChildren_file (parentTest : TestItem)
    (run : gmap (list nat) Outcome) (hasFatalError : bool)
    (extracted : option FatalErrorInfo) (hasFailures : bool)
    (i : nat) (child : TestItem) :
  earlyAbort testResults hasFatalError extracted = false ->
  children parentTest !! i = Some child ->
  hasChildren child = true ->
  stateOf (markChildren parentTest run testResults hasFatalError extracted
             hasFailures) [i]
  = if failedIn testResults (children child) then Failed else Passed.
Proof.
  intros Hea Hi Hc. unfold stateOf.
  rewrite markChildren_normal by assumption.
  rewrite markParent_other by discriminate.
  now rewrite (children_file parentTest _ i child Hi Hc).
Qed.

Lemma markChildren_parent (parentTest : TestItem)
    (run : gmap (list nat) Outcome) (hasFatalError : bool)
    (extracted : option FatalErrorInfo) (hasFailures : bool) :
  earlyAbort testResults hasFatalError extracted = false ->
  stateOf (markChildren parentTest run testResults hasFatalError extracted
             hasFailures) []
  = if mentionedIn testResults (leafItems parentTest) then
      if failedIn testResults (leafItems parentTest) || hasFailures
      then Failed else Passed
    else stateOf run [].
Proof.
  intros Hea. unfold stateOf.
  rewrite markChildren_normal by assumption.
  destruct (forEach _ _ _ _) as [run' t'] eqn:E.
  pose proof (children_tally (children parentTest) 0 run
                (mkTally false true false 0)) as Ht.
  pose proof (children_parent (children parentTest) 0
                (run, mkTally false true false 0)) as Hrun.
  rewrite E in Ht, Hrun. cbn [fst snd] in Ht, Hrun. subst t'.
  unfold markParent.
  cbn [foundAnyResults allChildrenPassed someChildrenFailed
       ranChildrenCount orb andb plus].
  fold (leafItems parentTest). rewrite totalChildren_leafItems.
  destruct (mentionedIn testResults (leafItems parentTest));
    [|now rewrite Hrun].
  destruct (failedIn testResults (leafItems parentTest)); cbn [orb negb].
  - unfold markFailed. now rewrite lookup_insert_eq.
  - destruct hasFailures.
    + unfold markFailed. now rewrite lookup_insert_eq.
    + rewrite Nat.eqb_refl. unfold markPassed. now rewrite lookup_insert_eq.
Qed.

End Verdict.

Section Containers.

Import Aggregate Verdicts.

(** In normal execution a file with methods always gets a verdict:
    [Failed] when the parsed result of one of its methods is a failure,
    [Passed] otherwise, the methods without a result counting as run. *)
Theorem file_verdict (parentTest : TestItem) (run : gmap (list nat) Outcome)
    (stdout stderr : jstring) (hasFailures : bool) (i : nat)
    (child : TestItem) :
  earlyAbort (parseTestResults stdout stderr) (detectFatalError stdout stderr)
             (extractFatalErrorInfo stdout stderr) = false ->
  children parentTest !! i = Some child ->
  hasChildren child = true ->
  stateOf (parseAndMarkChildren parentTest run stdout stderr hasFailures) [i]
  = if failedIn (parseTestResults stdout stderr) (children child)
    then Failed else Passed.
Proof. intros. now apply markChildren_file. Qed.

Lemma file_verdict_witness :
  stateOf (parseAndMarkChildren unitSuite ∅
             ([crossmark] ++ str " testLogin" ++ [newline]) [] true)
          [0%nat] = Failed
  /\ stateOf (parseAndMarkChildren unitSuite ∅
                ([crossmark] ++ str " testLogin" ++ [newline]) [] true)
             [1%nat] = Passed.
Proof.
  split.
  - etransitivity;
      [apply (file_verdict unitSuite ∅
                ([crossmark] ++ str " testLogin" ++ [newline]) [] true 0%nat
                (default unitSuite (children unitSuite !! 0%nat)));
       reflexivity|reflexivity].
  - etransitivity;
      [apply (file_verdict unitSuite ∅
                ([crossmark] ++ str " testLogin" ++ [newline]) [] true 1%nat
                (default unitSuite (children unitSuite !! 1%nat)));
       reflexivity|reflexivity].
Defined.

(** In normal execution the item being run gets a verdict exactly when
    the output has a result for one of its leaves: [Failed] when one of
    these results is a failure or the run as a whole has failures,
    [Passed] otherwise. Without such a result it keeps its state. *)
Theorem parent_verdict (parentTest : TestItem) (run : gmap (list nat) Outcome)
    (stdout stderr : jstring) (hasFailures : bool) :
  earlyAbort (parseTestResults stdout stderr) (detectFatalError stdout stderr)
             (extractFatalErrorInfo stdout stderr) = false ->
  stateOf (parseAndMarkChildren parentTest run stdout stderr hasFailures) []
  = if mentionedIn (parseTestResults stdout stderr) (leafItems parentTest)
    then
      if failedIn (parseTestResults stdout stderr) (leafItems parentTest)
         || hasFailures
      then Failed else Passed
    else stateOf run [].
Proof. intros. now apply markChildren_parent. Qed.

Lemma parent_verdict_witness :
  stateOf (parseAndMarkChildren unitSuite (started [] ∅)
             (str "Codeception PHP Testing Framework") [] false) []
  = Running.
Proof.
  etransitivity;
    [apply (parent_verdict unitSuite (started [] ∅)
              (str "Codeception PHP Testing Framework") [] false);
     reflexivity|reflexivity].
Defined.

End Containers.

(** ** Running one item *)

Section Running.

Import Mention.

Variable cfg : Config.

Lemma parseXmlForSingleTest_cases (test : TestItem)
    (run : gmap (list nat) Outcome) :
  exists run' xmlParsed,
    parseXmlForSingleTest cfg test run = Ret (run', xmlParsed)
    /\ (xmlParsed = false -> run' = run)
    /\ (xmlParsed = true ->
        reportAbsent cfg = false
        /\ exists xmlResult,
             JsMap.get (reportOf cfg) (extractMethodName (id test))
             = Some xmlResult
             /\ stateOf run' [] = verdict (xmlPassed xmlResult)
             /\ forall p : path, p <> [] -> stateOf run' p = stateOf run p).
Proof.
  unfold parseXmlForSingleTest, reportAbsent.
  destruct (JunitParser.existsSync (files cfg) (xmlPath cfg)); cbn [negb].
  2:{ exists run, false. repeat split; try reflexivity; discriminate. }
  rewrite readReport_reportOf. cbn.
  destruct (JsMap.size (reportOf cfg) =? 0)%nat.
  { exists run, false. repeat split; try reflexivity; discriminate. }
  destruct (JsMap.get (reportOf cfg) (extractMethodName (id test)))
    as [xmlResult|].
  2:{ exists run, false. cbn. repeat split; try reflexivity; discriminate. }
  destruct (xmlPassed xmlResult) eqn:Hx; cbn;
    eexists _, true; (split; [reflexivity|]); (split; [discriminate|]);
    intros _; (split; [reflexivity|]); exists xmlResult;
    (split; [reflexivity|]); rewrite Hx; unfold stateOf, verdict,
      markPassed, markFailed; (split; [now rewrite lookup_insert_eq|]);
    intros p Hp; now rewrite lookup_insert_ne by congruence.
Qed.

(** The report decides a single method only by an entry under the exact
    name of the method; whatever goes wrong while the report is read,
    the call returns, and without such an entry it leaves the run as it
    was. *)
Theorem parseXmlForSingleTest_decides (test : TestItem)
    (run : gmap (list nat) Outcome) :
  exists run' xmlParsed,
    parseXmlForSingleTest cfg test run = Ret (run', xmlParsed)
    /\ (xmlParsed = false -> run' = run)
    /\ (xmlParsed = true ->
        reportAbsent cfg = false
        /\ exists xmlResult,
             JsMap.get (reportOf cfg) (extractMethodName (id test))
             = Some xmlResult
             /\ stateOf run' [] = verdict (xmlPassed xmlResult)
             /\ forall p : path, p <> [] -> stateOf run' p = stateOf run p).
Proof. apply parseXmlForSingleTest_cases. Qed.

Lemma handleAll_app (testNameMap : JsMap.t path) (a b : list Callback)
    (s : Streaming) :
  handleAll cfg testNameMap s (a ++ b)
  = s' ← handleAll cfg testNameMap s a; handleAll cfg testNameMap s' b.
Proof.
  revert s. induction a as [|cb a IH]; intros s; [reflexivity|].
  cbn [app handleAll].
  destruct (handle cfg testNameMap s cb) as [m|s1]; [reflexivity|].
  cbn. apply IH.
Qed.

Lemma onComplete_parent (testNameMap : JsMap.t path) (s : Streaming)
    (exitCode : Z) :
  exists s',
    onComplete cfg testNameMap s exitCode = Ret s'
    /\ (stateOf (run s') [] = Passed \/ stateOf (run s') [] = Failed).
Proof.
  unfold onComplete. rewrite reconcileWithXmlResults_eq. cbn.
  match goal with
  | |- context [let '(_, _) := ?r in _] => destruct r as [run1 seen1]
  end.
  eexists. split; [reflexivity|]. cbn [run].
  match goal with
  | |- context [if ?c then markFailed _ _ else _] => destruct c
  end; unfold stateOf, markFailed, markPassed; rewrite lookup_insert_eq;
    auto.
Qed.

Lemma handle_returns (testNameMap : JsMap.t path) (s : Streaming)
    (cb : Callback) :
  exists s', handle cfg testNameMap s cb = Ret s'.
Proof.
  destruct cb; cbn [handle]; eauto.
Qed.

(** The callbacks of the provider do not throw. *)
Lemma handleAll_returns (testNameMap : JsMap.t path) (cbs : list Callback)
    (s : Streaming) :
  exists s', handleAll cfg testNameMap s cbs = Ret s'.
Proof.
  revert s. induction cbs as [|cb cbs IH]; intros s; cbn [handleAll]; eauto.
  destruct (handle_returns testNameMap s cb) as [s1 ->]. cbn. apply IH.
Qed.

End Running.

(** ** The name index *)

Section Index.

Import Names.

Lemma TestItem_nested_ind (P : TestItem -> Prop) :
  (forall testId fs cs, Forall P cs -> P (Item testId fs cs)) ->
  forall t, P t.
Proof.
  intros H. fix IH 1. intros [testId fs cs]. apply H.
  induction cs as [|c cs IHcs]; constructor; [apply IH|exact IHcs].
Qed.

Lemma itemAt_snoc (t : TestItem) (p : list nat) (i : nat)
    (item child : TestItem) :
  itemAt t p = Some item -> children item !! i = Some child ->
  itemAt t (p ++ [i]) = Some child.
Proof.
  revert t. induction p as [|j p IH]; intros t Hp Hi; cbn in *.
  - injection Hp as ->. now rewrite Hi.
  - destruct (children t !! j); [now apply IH|discriminate].
Qed.

Variable root : TestItem.

Local Abbreviation sound := (Names.sound root).

Lemma In_set {V} (m : JsMap.t V) (k k' : jstring) (v v' : V) :
  In (k', v') (JsMap.set m k v) -> (k', v') = (k, v) \/ In (k', v') m.
Proof.
  induction m as [|[k0 v0] m IH]; cbn.
  - intros [E|[]]. now left.
  - destruct (decide (k0 = k)) as [->|]; cbn.
    + intros [E|H]; [now left|right; now right].
    + intros [E|H]; [right; now left|].
      destruct (IH H); [now left|right; now right].
Qed.

Lemma set_sound (m : JsMap.t path) (k : jstring) (p : path) (item : TestItem) :
  sound m -> p <> [] -> itemAt root p = Some item ->
  includes (id item) (str "::") = true ->
  In k (variants (extractMethodName (id item))) ->
  sound (JsMap.set m k p).
Proof.
  intros Hm Hp Hitem Hinc Hin k' p' Hget.
  apply In_set in Hget as [E|H]; [|now apply Hm].
  injection E as -> ->. eauto.
Qed.

Lemma register_sound (m : JsMap.t path) (p : path) (item : TestItem) :
  sound m -> p <> [] -> itemAt root p = Some item ->
  includes (id item) (str "::") = true ->
  sound (register m (extractMethodName (id item)) p).
Proof.
  intros Hm Hp Hitem Hinc. unfold register.
  assert (forall m k, sound m ->
            In k (variants (extractMethodName (id item))) ->
            sound (JsMap.set m k p)) as Hset
    by (intros m' k' Hm' Hk'; now apply (set_sound m' k' p item)).
  unfold variants in Hset.
  destruct (startsWith (toLowerCase (extractMethodName (id item)))
              (str "test")); repeat apply Hset; cbn; auto.
Qed.

Lemma each_sound (P : TestItem -> list nat -> Prop)
    (add : TestItem -> list nat -> JsMap.t path -> JsMap.t path)
    (q : list nat) (cs : list TestItem) (i : nat) (m : JsMap.t path) :
  (forall j child, cs !! j = Some child -> P child (q ++ [(i + j)%nat])) ->
  (forall j child m, cs !! j = Some child -> sound m ->
     P child (q ++ [(i + j)%nat]) -> sound (add child (q ++ [(i + j)%nat]) m)) ->
  sound m ->
  sound ((fix each (cs : list TestItem) (i : nat) (m : JsMap.t path) :=
            match cs with
            | [] => m
            | child :: cs' => each cs' (S i) (add child (q ++ [i]) m)
            end) cs i m).
Proof.
  revert i m. induction cs as [|c cs IH]; intros i m HP Hadd Hm; [exact Hm|].
  apply IH.
  - intros j child Hj. replace (S i + j)%nat with (i + S j)%nat by lia.
    now apply HP.
  - intros j child m' Hj. replace (S i + j)%nat with (i + S j)%nat by lia.
    now apply Hadd.
  - specialize (HP 0%nat c eq_refl). specialize (Hadd 0%nat c m eq_refl Hm).
    rewrite Nat.add_0_r in HP, Hadd. now apply Hadd.
Qed.

Lemma addTest_sound (t : TestItem) :
  forall (q : list nat) (m : JsMap.t path),
    itemAt root q = Some t -> q <> [] -> sound m -> sound (addTest t q m).
Proof.
  induction t as [testId fs cs IHcs] using TestItem_nested_ind.
  intros q m Hq Hne Hm. cbn [addTest].
  apply (each_sound (fun child p => itemAt root p = Some child)
           addTest q cs 0).
  - intros j child Hj. cbn [plus].
    now apply (itemAt_snoc root q j (Item testId fs cs) child).
  - intros j child m' Hj Hm' Hchild. cbn [plus].
    rewrite Forall_forall in IHcs.
    apply IHcs; [|assumption| |assumption].
    + eapply list_elem_of_lookup_2. exact Hj.
    + now destruct q.
  - destruct (includes testId (str "::")) eqn:Hinc; [|exact Hm].
    destruct (nonEmpty (extractMethodName testId)); [|exact Hm].
    now apply (register_sound m q (Item testId fs cs)).
Qed.

Lemma buildTestNameMap_sound_root : sound (buildTestNameMap root).
Proof.
  unfold buildTestNameMap.
  apply (each_sound (fun child p => itemAt root p = Some child)
           addTest [] (children root) 0).
  - intros j child Hj. cbn. now rewrite Hj.
  - intros j child m Hj Hm Hchild. cbn [plus app] in *.
    now apply addTest_sound.
  - intros k p [].
Qed.

End Index.

(** Every entry of the name map of [buildTestNameMap] leads to an item
    strictly below the item being run, whose identifier has a method
    part, under one of the four names [register] enters for that
    method: the item being run is never an entry. *)
Theorem buildTestNameMap_sound (parentTest : TestItem) (k : jstring)
    (p : path) :
  JsMap.get (buildTestNameMap parentTest) k = Some p ->
  p <> []
  /\ exists item,
       Names.itemAt parentTest p = Some item
       /\ includes (id item) (str "::") = true
       /\ In k (Names.variants (extractMethodName (id item))).
Proof. intros H%get_In. now apply buildTestNameMap_sound_root. Qed.

Lemma buildTestNameMap_sound_witness :
  testLogin <> []
  /\ exists item,
       Names.itemAt unitSuite testLogin = Some item
       /\ includes (id item) (str "::") = true
       /\ In (str "login") (Names.variants (extractMethodName (id item))).
Proof.
  apply (buildTestNameMap_sound unitSuite (str "login") testLogin).
  reflexivity.
Defined.

(** ** A cancelled run *)

Section Cancelled.

Import Names.

Variables (cfg : Config) (test : TestItem).

Local Abbreviation testNameMap := (buildTestNameMap test).

Lemma nameMap_below (k : jstring) (p : path) :
  In (k, p) (JsMap.entries testNameMap) -> p <> [].
Proof. intros H. now apply (buildTestNameMap_sound_root test k p). Qed.

Lemma onTestResult_parent (s : Streaming) (testName : jstring) (passed : bool)
    (output : jstring) :
  run (onTestResult testNameMap s testName passed output) !! ([] : list nat)
  = run s !! ([] : list nat)
  /\ allOutput (onTestResult testNameMap s testName passed output)
     = allOutput s.
Proof.
  unfold onTestResult.
  destruct (JsMap.get testNameMap testName) as [item|] eqn:E; [|auto].
  apply get_In, nameMap_below in E.
  destruct (decide (testName ∈ seenTests s)); [auto|].
  cbn [run allOutput]. split; [|reflexivity].
  destruct passed; unfold markPassed, markFailed, started;
    now rewrite !lookup_insert_ne by congruence.
Qed.

Lemma handleAll_output (cbs : list Callback) (s : Streaming) :
  forallb isOutput cbs = true ->
  exists s',
    handleAll cfg testNameMap s cbs = Ret s'
    /\ run s' !! ([] : list nat) = run s !! ([] : list nat)
    /\ allOutput s' = allOutput s ++ outputs cbs.
Proof.
  revert s. induction cbs as [|cb cbs IH]; intros s Hout.
  - exists s. cbn. now rewrite app_nil_r.
  - cbn [forallb] in Hout. apply andb_true_iff in Hout as [Hcb Hout].
    destruct cb as [data|testName passed output| |]; try discriminate Hcb.
    + destruct (IH (onOutput s data) Hout) as (s' & E & Hrun & Hall).
      exists s'. split; [exact E|]. split; [exact Hrun|].
      rewrite Hall. cbn. now rewrite <- app_assoc.
    + destruct (onTestResult_parent s testName passed output) as [Hr Ha].
      destruct (IH (onTestResult testNameMap s testName passed output) Hout)
        as (s' & E & Hrun & Hall).
      exists s'. split; [exact E|]. split; [congruence|].
      rewrite Hall, Ha. reflexivity.
Qed.

Lemma processChunk_isOutput (e : Executor) (chunk : jstring) :
  forallb isOutput (snd (processChunk e chunk)) = true
  /\ outputs (snd (processChunk e chunk)) = [].
Proof.
  unfold processChunk. cbn [snd].
  induction (removelast (split (lineBuffer e ++ chunk))) as [|l ls [IH1 IH2]];
    [now split|].
  cbn [flat_map]. unfold outputs in *. rewrite forallb_app, flat_map_app, IH1, IH2.
  unfold parseLine.
  repeat match goal with
         | |- context [match ?c with _ => _ end] => destruct c
         end; now split.
Qed.

Lemma feed_isOutput (chunks : list (Channel * jstring)) (e : Executor) :
  forallb isOutput (snd (feed e chunks)) = true
  /\ outputs (snd (feed e chunks)) = concat (map snd chunks).
Proof.
  revert e. induction chunks as [|[ch data] chunks IH]; intros e;
    [now split|].
  cbn [feed].
  assert (exists e1 cbs1,
            onData ch e data = (e1, OnOutput data :: cbs1)
            /\ forallb isOutput cbs1 = true /\ outputs cbs1 = [])
    as (e1 & cbs1 & -> & H1 & H2).
  { destruct ch; cbn [onData]; unfold onStdout, onStderr.
    - destruct (processChunk e data) as [e1 cbs1] eqn:E.
      pose proof (processChunk_isOutput e data) as H. rewrite E in H. eauto.
    - destruct (processChunk _ data) as [e1 cbs1] eqn:E.
      pose proof (processChunk_isOutput
                    (mkExecutor (lineBuffer e) (stderrBuffer e ++ data)) data)
        as H.
      rewrite E in H. eauto. }
  destruct (feed e1 chunks) as [e2 cbs2] eqn:E2.
  specialize (IH e1). rewrite E2 in IH. destruct IH as [IH1 IH2].
  cbn [snd map concat app forallb isOutput andb] in *. unfold outputs in *.
  rewrite forallb_app, H1, IH1. split; [reflexivity|].
  cbn [flat_map]. now rewrite flat_map_app, H2, IH2.
Qed.

Lemma markUnseenTests_parent (run0 : gmap (list nat) Outcome)
    (seen : gset jstring) :
  markUnseenTests run0 seen testNameMap !! ([] : list nat)
  = run0 !! ([] : list nat).
Proof.
  rewrite markUnseenTests_fold.
  pose proof nameMap_below as Hb. unfold JsMap.entries in Hb.
  revert run0. induction testNameMap as [|[k q] m IH]; intros run0;
    [reflexivity|].
  cbn [fold_left]. rewrite IH by (intros; eapply Hb; right; eassumption).
  rewrite unseen_step_lookup.
  destruct (decide (k ∈ seen)); [reflexivity|].
  destruct (decide (q = [])) as [->|]; [|reflexivity].
  exfalso. apply (Hb k []); [now left|reflexivity].
Qed.

(** A run that is cancelled gives the item being run no verdict: when
    the process is terminated and what was written is not taken for a
    Docker error, the item being run keeps the state it had. *)
Theorem cancelled_run_gives_no_verdict (run0 : gmap (list nat) Outcome)
    (chunks : list (Channel * jstring)) (code : option Z) :
  isDockerError (str "Process was terminated") (concat (map snd chunks))
    = false ->
  exists run',
    executeTestWithStreaming cfg test run0 chunks
      (Close code (Some (str "SIGTERM"))) true = Ret run'
    /\ stateOf run' [] = stateOf run0 [].
Proof.
  intros Hd. unfold executeTestWithStreaming.
  destruct (feed StreamingTestExecutor.fresh chunks) as [e cbs] eqn:E.
  destruct (feed_isOutput chunks StreamingTestExecutor.fresh) as [Hout Hdata].
  rewrite E in Hout, Hdata. cbn [snd] in Hout, Hdata.
  cbn [onEnding]. change (JsString.eqb (str "SIGTERM") (str "SIGTERM")) with true.
  cbn iota. rewrite app_nil_r.
  destruct (handleAll_output cbs (mkStreaming run0 ∅ JsMap.empty []) Hout)
    as (s & -> & Hrun & Hall).
  cbn [allOutput run app] in Hrun, Hall.
  unfold mbind, exc_bind, bindExc. cbv beta iota.
  eexists. split; [reflexivity|].
  unfold onRejected. rewrite Hall, Hdata, Hd. cbn [withRun run].
  unfold stateOf. now rewrite markUnseenTests_parent, Hrun.
Qed.

End Cancelled.

Lemma cancelled_run_gives_no_verdict_witness :
  exists run',
    executeTestWithStreaming noReport unitSuite (started [] ∅)
      loginFailedOutput (Close None (Some (str "SIGTERM"))) true = Ret run'
    /\ stateOf run' [] = stateOf (started [] ∅) [].
Proof.
  apply (cancelled_run_gives_no_verdict noReport unitSuite (started [] ∅)
           loginFailedOutput None).
  reflexivity.
Defined.

(** ** The return of a run *)

Section Returning.

Import Names.

Lemma eqb_decide (a b : jstring) : JsString.eqb a b = bool_decide (a = b).
Proof.
  revert b. induction a as [|x a IH]; intros [|y b]; cbn [JsString.eqb];
    try reflexivity.
  rewrite IH. destruct (N.eqb_spec x y) as [->|Hne]; cbn [andb].
  - destruct (decide (a = b)) as [->|Hab].
    + now rewrite !bool_decide_eq_true_2.
    + rewrite !bool_decide_eq_false_2; congruence.
  - rewrite bool_decide_eq_false_2; congruence.
Qed.

Variables (cfg : Config) (test : TestItem).

Local Abbreviation testNameMap := (buildTestNameMap test).

Lemma onRejected_failed (s : Streaming) (message : jstring) :
  stateOf (run (onRejected testNameMap s message false)) [] = Failed.
Proof.
  unfold onRejected.
  destruct (isDockerError _ _); cbn [withRun run];
    unfold stateOf, markFailed; now rewrite lookup_insert_eq.
Qed.

(** When the promise is resolved the item being run is as it was. *)
Lemma resolved_parent (cbs : list Callback) (s : Streaming) (code : Z) :
  forallb isOutput cbs = true ->
  exists s',
    handleAll cfg testNameMap s (cbs ++ [OnComplete code]) = Ret s'
    /\ run s' !! ([] : list nat) = run s !! ([] : list nat).
Proof.
  intros Hout. rewrite handleAll_app.
  destruct (handleAll_output cfg test cbs s Hout) as (s1 & -> & Hrun & _).
  cbn. eexists. split; [reflexivity|].
  unfold onCompleteStart. cbn [withRun run].
  now rewrite markUnseenTests_parent.
Qed.

Lemma executeTestWithStreaming_returns (run0 : gmap (list nat) Outcome)
    (chunks : list (Channel * jstring)) (ending : Ending) :
  exists run',
    executeTestWithStreaming cfg test run0 chunks ending false = Ret run'
    /\ stateOf run' []
       = if closesNormally ending then stateOf run0 [] else Failed.
Proof.
  unfold executeTestWithStreaming.
  destruct (feed StreamingTestExecutor.fresh chunks) as [e cbs] eqn:E.
  destruct (feed_isOutput chunks StreamingTestExecutor.fresh) as [Hout _].
  rewrite E in Hout. cbn [snd] in Hout.
  assert (forall code,
            exists run',
              (s ← handleAll cfg testNameMap
                     (mkStreaming run0 ∅ JsMap.empty [])
                     (cbs ++ [OnComplete code]);
               Ret (run s)) = Ret run'
              /\ stateOf run' [] = stateOf run0 []) as Hdone.
  { intros code.
    destruct (resolved_parent cbs (mkStreaming run0 ∅ JsMap.empty []) code Hout)
      as (s' & -> & Hrun).
    cbn. eexists. split; [reflexivity|]. unfold stateOf. now rewrite Hrun. }
  assert (forall tail message,
            exists run',
              (s ← handleAll cfg testNameMap
                     (mkStreaming run0 ∅ JsMap.empty []) (cbs ++ tail);
               Ret (run (onRejected testNameMap s message false)))
              = Ret run'
              /\ stateOf run' [] = Failed) as Hfail.
  { intros tail message.
    destruct (handleAll_returns cfg testNameMap (cbs ++ tail)
                (mkStreaming run0 ∅ JsMap.empty [])) as [s1 ->].
    cbn. eexists. split; [reflexivity|]. apply onRejected_failed. }
  destruct ending as [code [sg|]|msg code signal|];
    cbn [onEnding closesNormally].
  - rewrite eqb_decide.
    destruct (bool_decide (sg = str "SIGTERM")); cbn [negb].
    + apply (Hfail [] (str "Process was terminated")).
    + apply Hdone.
  - apply Hdone.
  - apply (Hfail [OnError msg] msg).
  - apply (Hfail [OnOutput _]).
Qed.

(** [runTest] returns before a streamed item has its verdict. Unless the
    run is cancelled: a single method is [Passed] or [Failed] when
    [runTest] returns; an item with children is [Failed] when the
    promise of the executor was rejected (a time-out, an error of the
    process, a termination), and still [Running] when the process
    closed normally, because the executor does not wait for
    [onComplete], which gives the verdict, [Passed] or [Failed], only
    when it has run to its end. *)
Theorem runTest_returns_before_the_verdict
    (run0 : gmap (list nat) Outcome) (exec : ExecResult)
    (chunks : list (Channel * jstring)) (ending : Ending) :
  exists run',
    runTest cfg test run0 exec chunks ending false = Ret run'
    /\ (if Aggregate.hasChildren test
        then stateOf run' []
             = if closesNormally ending then Running else Failed
        else stateOf run' [] = Passed \/ stateOf run' [] = Failed)
    /\ forall (s : Streaming) (exitCode : Z),
         exists s',
           onComplete cfg testNameMap s exitCode = Ret s'
           /\ (stateOf (run s') [] = Passed \/ stateOf (run s') [] = Failed).
Proof.
  assert (forall (s : Streaming) (exitCode : Z),
            exists s',
              onComplete cfg testNameMap s exitCode = Ret s'
              /\ (stateOf (run s') [] = Passed
                  \/ stateOf (run s') [] = Failed)) as Hlater
    by (intros; apply onComplete_parent).
  unfold runTest, Aggregate.hasChildren.
  destruct (Nat.ltb 0 (length (children test))) eqn:Hc.
  - destruct (executeTestWithStreaming_returns (started [] run0) chunks ending)
      as (run' & -> & H).
    cbn. eexists. split; [reflexivity|]. split; [|exact Hlater].
    rewrite H. unfold stateOf, started. now rewrite lookup_insert_eq.
  - destruct exec as [stdout stderr|message stdout stderr].
    + destruct (parseXmlForSingleTest_cases cfg test (started [] run0))
        as (run' & xmlParsed & -> & Hno & Hyes).
      cbn. destruct xmlParsed.
      * eexists. split; [reflexivity|]. split; [|exact Hlater].
        destruct (Hyes eq_refl) as (_ & xmlResult & _ & -> & _).
        unfold Mention.verdict. destruct (xmlPassed xmlResult); auto.
      * eexists. split; [reflexivity|]. split; [|exact Hlater].
        unfold leafFallback.
        repeat match goal with
               | |- context [if ?c then _ else _] => destruct c
               end; unfold stateOf, markFailed, markPassed;
          rewrite lookup_insert_eq; auto.
    + cbn. eexists. split; [reflexivity|]. split; [|exact Hlater].
      unfold runTestCatch. rewrite Hc. cbn [andb].
      destruct (isDockerError message stderr);
        unfold stateOf, markFailed; rewrite lookup_insert_eq; auto.
Qed.

End Returning.


(** ** The names of the report *)

Section ReportNames.

Import JunitParser Mention.

Lemma lower1_idem (c : N) : lower1 (lower1 c) = lower1 c.
Proof.
  unfold lower1, between.
  destruct (65 <=? c) eqn:H1, (c <=? 90) eqn:H2; cbn [andb];
    rewrite ?H1, ?H2; cbn [andb]; try reflexivity.
  apply N.leb_le in H1, H2.
  assert ((c + 32 <=? 90) = false) as -> by (apply N.leb_gt; lia).
  now rewrite andb_false_r.
Qed.

Lemma toLowerCase_idem (s : jstring) :
  toLowerCase (toLowerCase s) = toLowerCase s.
Proof.
  unfold toLowerCase. rewrite map_map. apply map_ext, lower1_idem.
Qed.

(** With a name the map has its lower-case form. *)
Local Abbreviation closed m :=
  (forall k : jstring, JsMap.has m k = true ->
                       JsMap.has m (toLowerCase k) = true).

Ltac find_true Hm :=
  first [ apply bool_decide_eq_true_2; reflexivity
        | apply Hm; assumption
        | apply orb_true_iff; first [left; find_true Hm | right; find_true Hm] ].

Lemma store_closed (m : JsMap.t JUnitTestResult) (r : JUnitTestResult) :
  closed m -> closed (store m r).
Proof.
  intros Hm k. unfold store.
  destruct (startsWith (toLowerCase (name r)) (str "test"));
    rewrite !has_set; intros H;
    repeat match type of H with
           | (_ || _) = true => apply orb_true_iff in H as [H|H]
           | bool_decide _ = true => apply bool_decide_eq_true in H; subst k
           end;
    rewrite ?toLowerCase_idem; find_true Hm.
Qed.

Lemma collect_closed (testsuites : list RawTestSuite) :
  closed (collect testsuites).
Proof.
  unfold collect.
  assert (forall cases suiteName (m : JsMap.t JUnitTestResult),
            closed m ->
            closed (fold_left
                      (fun results testcase =>
                         if hasName testcase
                         then store results (parseTestCase testcase suiteName)
                         else results) cases m)) as Hcases.
  { induction cases as [|c cases IH]; intros suiteName m Hm; [exact Hm|].
    cbn [fold_left]. apply IH.
    destruct (hasName c); [now apply store_closed|exact Hm]. }
  assert (forall suites (m : JsMap.t JUnitTestResult),
            closed m ->
            closed (fold_left
                      (fun results testsuite =>
                         fold_left
                           (fun results testcase =>
                              if hasName testcase
                              then store results
                                     (parseTestCase testcase (ts_name testsuite))
                              else results)
                           (ts_testcase testsuite) results) suites m))
    as Hsuites.
  { induction suites as [|t suites IH]; intros m Hm; [exact Hm|].
    cbn [fold_left]. apply IH. now apply Hcases. }
  apply Hsuites. intros k H. discriminate H.
Qed.

Lemma parseJUnitXmlBody_collect (fs : Files) (x : jstring)
    (cp c : option jstring) (r : JsMap.t JUnitTestResult) :
  parseJUnitXmlBody fs x cp c = Ret r -> exists ts, r = collect ts.
Proof.
  unfold parseJUnitXmlBody, mbind, exc_bind, bindExc, mret, exc_ret.
  intros H.
  repeat match type of H with
         | context [match ?c with _ => _ end] =>
             destruct c eqn:?; try discriminate H
         end.
  all: injection H as <-; first [now exists [] | eauto].
Qed.

Lemma reportOf_collect (cfg : Config) :
  exists testsuites, reportOf cfg = collect testsuites.
Proof.
  unfold reportOf, readReport, parseJUnitXml, tryCatch.
  destruct (parseJUnitXmlBody _ _ _ _) as [|r] eqn:E; [now exists []|].
  now apply parseJUnitXmlBody_collect in E.
Qed.

(** Every name of the report comes with its lower-case form, so the
    guard of the reconciliation loop against duplicate variants skips
    exactly the entries whose name is not in lower case. *)
Theorem duplicate_guard_skips_mixed_case (cfg : Config) (testName : jstring) :
  JsMap.has (reportOf cfg) testName = true ->
  isDuplicateVariant (reportOf cfg) testName
  = negb (bool_decide (toLowerCase testName = testName)).
Proof.
  intros H. unfold isDuplicateVariant.
  destruct (reportOf_collect cfg) as [testsuites E]. rewrite E in *.
  rewrite (collect_closed testsuites testName H). apply andb_true_r.
Qed.

End ReportNames.

Lemma duplicate_guard_skips_mixed_case_witness :
  isDuplicateVariant (Mention.reportOf loginPassedReport) (str "testLogin")
  = true.
Proof.
  etransitivity;
    [apply (duplicate_guard_skips_mixed_case loginPassedReport
              (str "testLogin")); reflexivity|reflexivity].
Defined.

(** ** What the patterns capture *)

Section Captures.

Import Language.

Variable P : nat -> jstring -> Prop.

Lemma capsOK_nil : capsOK P [].
Proof. intros n v []. Qed.

Lemma capsOK_app (d1 d2 : captures) :
  capsOK P d1 -> capsOK P d2 -> capsOK P (d1 ++ d2).
Proof.
  intros H1 H2 n v [H|H]%in_app_or; [now apply H1|now apply H2].
Qed.

Lemma hasGroup_app (n : nat) (d1 d2 : captures) :
  hasGroup n d1 \/ hasGroup n d2 -> hasGroup n (d1 ++ d2).
Proof.
  intros [[v H]|[v H]]; exists v; apply in_or_app; auto.
Qed.

Ltac star_more IHa HG IHf Hm :=
  let u1 := fresh "u" in let s1 := fresh "s" in let d1 := fresh "d" in
  let u2 := fresh "u" in let s2 := fresh "s" in let d2 := fresh "d" in
  apply (IHa HG) in Hm as (u1 & s1 & d1 & -> & ? & Hm & ? & ?);
  destruct (Nat.ltb _ _); [|discriminate];
  apply IHf in Hm as (u2 & s2 & d2 & -> & ? & Hm & ? & ?);
  exists (u1 ++ u2), s2, (d2 ++ d1);
  rewrite length_app, Nat.add_assoc, <- !app_assoc;
  repeat split; [now apply m_star_cons|exact Hm|now apply capsOK_app|];
  discriminate.

(** A successful run of the matcher consumed a string of the language of
    the pattern and added captures of its groups only. *)
Lemma run_sound (r : regex) :
  groupsOK P r ->
  forall (i : nat) (s : jstring) (c : captures)
         (k : nat -> jstring -> captures -> option captures)
         (out : captures),
    Regex.run r i s c k = Some out ->
    exists u s' d,
      s = u ++ s' /\ matches r u
      /\ k (i + length u)%nat s' (d ++ c) = Some out
      /\ capsOK P d /\ forall n, binds n r = true -> hasGroup n d.
Proof.
  induction r as [|p|a IHa b IHb|a IHa b IHb|g a IHa|n a IHa| |];
    intros HG i s c k out H.
  - cbn [Regex.run] in H. exists [], s, []. rewrite Nat.add_0_r.
    repeat split; [apply m_eps|exact H|apply capsOK_nil|discriminate].
  - cbn [Regex.run] in H. destruct s as [|x s']; [discriminate|].
    destruct (p x) eqn:Hp; [|discriminate].
    exists [x], s', []. rewrite Nat.add_1_r.
    repeat split; [now constructor|exact H|apply capsOK_nil|discriminate].
  - cbn [Regex.run] in H. destruct HG as [HGa HGb].
    apply (IHa HGa) in H as (u1 & s1 & d1 & -> & M1 & H & C1 & B1).
    apply (IHb HGb) in H as (u2 & s2 & d2 & -> & M2 & H & C2 & B2).
    exists (u1 ++ u2), s2, (d2 ++ d1).
    rewrite length_app, Nat.add_assoc, <- !app_assoc.
    repeat split; [now constructor|exact H|now apply capsOK_app|].
    intros n [Hn|Hn]%orb_true_iff; apply hasGroup_app; auto.
  - cbn [Regex.run] in H. destruct HG as [HGa HGb]. unfold orElse in H.
    destruct (Regex.run a i s c k) eqn:E.
    + injection H as ->.
      apply (IHa HGa) in E as (u & s' & d & -> & M & H & C & B).
      exists u, s', d.
      repeat split; [now apply m_alt_l|exact H|exact C|].
      intros n [Hn _]%andb_true_iff. auto.
    + apply (IHb HGb) in H as (u & s' & d & -> & M & H & C & B).
      exists u, s', d.
      repeat split; [now apply m_alt_r|exact H|exact C|].
      intros n [_ Hn]%andb_true_iff. auto.
  - cbn [groupsOK] in HG.
    assert (forall fuel i s c,
              (fix loop (fuel : nat) (i : nat) (s : jstring) (c : captures)
                 : option captures :=
                 match fuel with
                 | O => k i s c
                 | S fuel' =>
                     let more :=
                       Regex.run a i s c (fun i' s' c' =>
                         if Nat.ltb i i' then loop fuel' i' s' c' else None) in
                     if g then orElse more (k i s c)
                     else orElse (k i s c) more
                 end) fuel i s c = Some out ->
              exists u s' d,
                s = u ++ s' /\ matches (Star g a) u
                /\ k (i + length u)%nat s' (d ++ c) = Some out
                /\ capsOK P d
                /\ forall n, binds n (Star g a) = true -> hasGroup n d)
      as Hloop; [|exact (Hloop (S (length s)) i s c H)].
    clear H i s c.
    assert (forall i s c, k i s c = Some out ->
              exists u s' d,
                s = u ++ s' /\ matches (Star g a) u
                /\ k (i + length u)%nat s' (d ++ c) = Some out
                /\ capsOK P d
                /\ forall n, binds n (Star g a) = true -> hasGroup n d)
      as Hstop.
    { intros i s c Hk. exists [], s, []. rewrite Nat.add_0_r.
      repeat split; [apply m_star_nil|exact Hk|apply capsOK_nil|discriminate]. }
    induction fuel as [|fuel IHf]; intros i s c H; [now apply Hstop|].
    cbn beta iota zeta in H.
    destruct g; unfold orElse in H.
    + destruct (Regex.run a i s c _) as [o|] eqn:Hm; [|now apply Hstop].
      injection H as ->. star_more IHa HG IHf Hm.
    + destruct (k i s c) as [o|] eqn:Hk; [apply Hstop; congruence|].
      star_more IHa HG IHf H.
  - cbn [Regex.run] in H. destruct HG as [Hn HG].
    apply (IHa HG) in H as (u & s' & d & -> & M & H & C & B).
    exists u, s', ((n, u) :: d).
    replace (i + length u - i)%nat with (length u) in H by lia.
    rewrite take_app_length in H.
    repeat split; [now constructor|exact H| |].
    + intros n' v [E|Hin]; [injection E as <- <-; now apply Hn|now apply C].
    + intros n' [Hn'|Hn']%orb_true_iff.
      * apply Nat.eqb_eq in Hn' as ->. exists u. now left.
      * destruct (B n' Hn') as [v Hv]. exists v. now right.
  - cbn [Regex.run] in H. destruct i; [|discriminate]. exists [], s, [].
    repeat split; [apply m_bol|exact H|apply capsOK_nil|discriminate].
  - cbn [Regex.run] in H. destruct s; [|discriminate]. exists [], [], [].
    rewrite Nat.add_0_r.
    repeat split; [apply m_eol|exact H|apply capsOK_nil|discriminate].
Qed.

Lemma exec_sound (r : regex) (s : jstring) (m : captures) :
  groupsOK P r -> exec r s = Some m ->
  capsOK P m /\ forall n, binds n r = true -> hasGroup n m.
Proof.
  intros HG. unfold exec. generalize 0%nat as i.
  induction s as [|x s IH]; intros i H; cbn [scan] in H; unfold orElse in H;
    destruct (matchAt r i _) as [m'|] eqn:E; try discriminate;
    try (injection H as ->);
    try (unfold matchAt in E;
         apply (run_sound r HG) in E as (u & s' & d & _ & _ & E & C & B);
         injection E as <-; rewrite app_nil_r; now split).
  now apply (IH (S i)).
Qed.

Lemma group_hasGroup (n : nat) (m : captures) :
  capsOK P m -> hasGroup n m -> P n (group n m).
Proof.
  intros C [v Hv]. induction m as [|[n' v'] m IH]; [destruct Hv|].
  cbn [group]. destruct (Nat.eqb n n') eqn:E.
  - apply Nat.eqb_eq in E as ->. apply C. now left.
  - apply IH.
    + intros n0 v0 H. apply C. now right.
    + destruct Hv as [Hv|Hv]; [|exact Hv].
      injection Hv as -> _. now rewrite Nat.eqb_refl in E.
Qed.

Lemma exec_group (r : regex) (s : jstring) (m : captures) (n : nat) :
  groupsOK P r -> binds n r = true -> exec r s = Some m -> P n (group n m).
Proof.
  intros HG Hb H. destruct (exec_sound r s m HG H) as [C B].
  apply group_hasGroup; auto.
Qed.

End Captures.

(** ** The names the output gives *)

Section OutputNames.

Import Language Names.

(** Group 1 of the patterns of the output is a name. *)
Local Abbreviation nameP := (fun (n : nat) (u : jstring) => n = 1%nat -> isName u).

Lemma star_word (r : regex) (w : jstring) :
  matches r w -> forall g, r = Star g w_ -> forallb isWord w = true.
Proof.
  induction 1 as [| | | | | |g' a u1 u2 Hu _ Hv IH| | |]; intros g0 E;
    try discriminate E; [reflexivity|].
  injection E as -> ->. rewrite forallb_app, (IH g0 eq_refl), andb_true_r.
  inversion Hu; subst. cbn. now rewrite andb_true_r.
Qed.

Lemma plus_word (w : jstring) : matches (plus w_) w -> isName w.
Proof.
  unfold plus. inversion 1 as [| |a b u1 u2 H1 H2| | | | | | |]; subst.
  inversion H1; subst. split; [discriminate|].
  cbn. rewrite (star_word _ _ H2 true eq_refl). now rewrite andb_true_r.
Qed.

Ltac groups_ok :=
  cbn;
  repeat match goal with
         | |- _ /\ _ => split
         | |- True => exact I
         end;
  try (intros; discriminate);
  intros u Hu _; now apply plus_word.

Lemma checkmarkRe_names : groupsOK nameP StreamingTestExecutor.checkmarkRe.
Proof. groups_ok. Qed.

Lemma colonRe_names : groupsOK nameP StreamingTestExecutor.colonRe.
Proof. groups_ok. Qed.

Lemma verboseRe_names : groupsOK nameP verboseRe.
Proof. groups_ok. Qed.

Lemma tapOkRe_names : groupsOK nameP tapOkRe.
Proof. groups_ok. Qed.

Lemma tapFailRe_names : groupsOK nameP tapFailRe.
Proof. groups_ok. Qed.

Lemma detailedRe_names : groupsOK nameP detailedRe.
Proof. groups_ok. Qed.

Lemma providerCheckmarkRe_names : groupsOK nameP TestProvider.checkmarkRe.
Proof. groups_ok. Qed.

Lemma providerColonRe_names : groupsOK nameP TestProvider.colonRe.
Proof. groups_ok. Qed.

Lemma parenRe_names : groupsOK nameP parenRe.
Proof. groups_ok. Qed.

Lemma detailedErrorRe_names : groupsOK nameP detailedErrorRe.
Proof. groups_ok. Qed.

Lemma exec_name (r : regex) (s : jstring) (m : captures) :
  groupsOK nameP r -> binds 1 r = true -> exec r s = Some m ->
  isName (group 1 m).
Proof.
  intros HG Hb H. now apply (exec_group nameP r s m 1 HG Hb H).
Qed.

Lemma parseLine_names_in (line testName output : jstring) (passed : bool) :
  In (OnTestResult testName passed output) (parseLine line) ->
  isName testName /\ output = line /\ line <> [].
Proof.
  unfold parseLine. destruct line as [|c line]; [intros []|]. cbn [nonEmpty negb].
  set (l := c :: line).
  assert (l <> []) as Hl by discriminate.
  destruct (exec StreamingTestExecutor.checkmarkRe l) eqn:E1;
    [intros [[= <- _ <-]|[]]; split; [|now split];
     now apply (exec_name _ _ _ checkmarkRe_names eq_refl E1)|].
  destruct (exec StreamingTestExecutor.colonRe l) eqn:E2;
    [intros [[= <- _ <-]|[]]; split; [|now split];
     now apply (exec_name _ _ _ colonRe_names eq_refl E2)|].
  destruct (exec verboseRe l) eqn:E3;
    [intros [[= <- _ <-]|[]]; split; [|now split];
     now apply (exec_name _ _ _ verboseRe_names eq_refl E3)|].
  destruct (exec tapOkRe l) eqn:E4;
    [intros [[= <- _ <-]|[]]; split; [|now split];
     now apply (exec_name _ _ _ tapOkRe_names eq_refl E4)|].
  destruct (exec tapFailRe l) eqn:E5;
    [intros [[= <- _ <-]|[]]; split; [|now split];
     now apply (exec_name _ _ _ tapFailRe_names eq_refl E5)|].
  destruct (exec detailedRe l) eqn:E6;
    [intros [[= <- _ <-]|[]]; split; [|now split];
     now apply (exec_name _ _ _ detailedRe_names eq_refl E6)|].
  intros [].
Qed.

(** Every result the executor reports carries a name of one or more of
    [A-Za-z0-9_] and, as its output, the line it was read from. *)
Theorem parseLine_names (line testName output : jstring) (passed : bool) :
  In (OnTestResult testName passed output) (parseLine line) ->
  isName testName /\ output = line /\ line <> [].
Proof. apply parseLine_names_in. Qed.

End OutputNames.

Lemma parseLine_names_witness :
  Language.isName (str "testLogin")
  /\ [checkmark] ++ str " testLogin" = [checkmark] ++ str " testLogin"
  /\ [checkmark] ++ str " testLogin" <> [].
Proof.
  apply (parseLine_names ([checkmark] ++ str " testLogin") (str "testLogin")
           ([checkmark] ++ str " testLogin") true).
  now left.
Defined.

Section WordNames.

Import Language Names.

(** Outside the letters the lowering keeps the code unit. *)
Lemma lower1_outside_word (c : N) : isWord c = false -> lower1 c = c.
Proof.
  unfold isWord, lower1. destruct (between 65 90 c); [discriminate|reflexivity].
Qed.

Lemma isName_end (n : jstring) : isName n -> endsOutsideWord n = false.
Proof.
  intros [Hne Hall]. unfold endsOutsideWord.
  destruct (rev n) as [|c r] eqn:E; [reflexivity|].
  assert (In c n) as Hc by (apply in_rev; rewrite E; now left).
  rewrite forallb_forall in Hall. rewrite (Hall c Hc). apply andb_false_r.
Qed.

Lemma endsOutsideWord_lower (m : jstring) :
  endsOutsideWord (toLowerCase m) = false -> endsOutsideWord m = false.
Proof.
  unfold endsOutsideWord, toLowerCase. rewrite <- map_rev.
  destruct (rev m) as [|c r]; [reflexivity|]. cbn [map].
  destruct (isWord c) eqn:Hw; [now rewrite andb_false_r|].
  now rewrite (lower1_outside_word c Hw), Hw.
Qed.

Lemma endsOutsideWord_drop (k : nat) (m : jstring) :
  drop k m <> [] -> endsOutsideWord (drop k m) = endsOutsideWord m.
Proof.
  intros Hne. unfold endsOutsideWord.
  rewrite <- (take_drop k m) at 2. rewrite rev_app_distr.
  destruct (rev (drop k m)) as [|c r] eqn:E; [|reflexivity].
  exfalso. apply Hne. apply (f_equal (@rev N)) in E.
  now rewrite rev_involutive in E.
Qed.

(** A name is a variant only of method names that do not end outside
    the word characters. *)
Lemma variants_end (n m : jstring) :
  isName n -> In n (variants m) -> endsOutsideWord m = false.
Proof.
  intros Hn. pose proof (isName_end n Hn) as He.
  assert (n <> []) as Hne by apply Hn.
  unfold variants.
  destruct (startsWith (toLowerCase m) (str "test")); cbn [app In];
    intros H;
    repeat match type of H with
           | _ \/ _ => destruct H as [H|H]
           | False => destruct H
           end; subst n; auto using endsOutsideWord_lower.
  - unfold substring in *. now rewrite <- (endsOutsideWord_drop 4 m).
  - apply endsOutsideWord_lower in He. unfold substring in *.
    rewrite <- (endsOutsideWord_drop 4 m); [exact He|].
    intros E. rewrite E in Hne. now apply Hne.
Qed.

(** A streamed result never reaches an item whose method name (the part
    of the identifier after the last [::]) ends in an ASCII character
    outside [A-Za-z0-9_]: the item of a method with a data provider,
    whose identifier ends in a closing bracket, is never marked from
    the streamed output. *)
Theorem streamed_result_misses_bracketed_names (parentTest : TestItem)
    (line testName output : jstring) (passed : bool) (p : path) :
  In (OnTestResult testName passed output) (parseLine line) ->
  JsMap.get (buildTestNameMap parentTest) testName = Some p ->
  exists item,
    itemAt parentTest p = Some item
    /\ endsOutsideWord (extractMethodName (id item)) = false.
Proof.
  intros [Hn _]%parseLine_names_in Hget.
  apply get_In in Hget.
  destruct (buildTestNameMap_sound_root parentTest testName p Hget)
    as (_ & item & Hitem & _ & Hin).
  exists item. split; [exact Hitem|]. now apply (variants_end testName).
Qed.

End WordNames.

Lemma streamed_result_misses_bracketed_names_witness :
  exists item,
    Names.itemAt unitSuite testLogin = Some item
    /\ Names.endsOutsideWord (extractMethodName (id item)) = false.
Proof.
  apply (streamed_result_misses_bracketed_names unitSuite
           ([crossmark] ++ str " testLogin") (str "testLogin")
           ([crossmark] ++ str " testLogin") false testLogin).
  - now left.
  - reflexivity.
Defined.

Section ParsedNames.

Import Language Aggregate.

Local Abbreviation named m :=
  (forall (k : jstring) (v : TestResult), In (k, v) m -> isName k).

Lemma set_named (m : JsMap.t TestResult) (k : jstring) (v : TestResult) :
  named m -> isName k -> named (JsMap.set m k v).
Proof.
  intros Hm Hk k' v' [E|H]%In_set; [|now apply (Hm k' v')].
  now injection E as -> _.
Qed.

Lemma parseResultLine_named (line : jstring) (next : option jstring)
    (acc : JsMap.t TestResult * option jstring) :
  named (fst acc) -> named (fst (parseResultLine line next acc)).
Proof.
  destruct acc as [results currentFile]. cbn [fst]. intros Hm.
  unfold parseResultLine.
  destruct (exec TestProvider.checkmarkRe line) eqn:E1.
  { cbn [fst]. apply set_named; [exact Hm|].
    now apply (exec_name _ _ _ providerCheckmarkRe_names eq_refl E1). }
  destruct (exec TestProvider.colonRe line) eqn:E2.
  { cbn [fst]. apply set_named; [exact Hm|].
    now apply (exec_name _ _ _ providerColonRe_names eq_refl E2). }
  assert (forall m, exec detailedErrorRe line = Some m ->
            named (JsMap.set results (group 1 m)
                     (mkTestResult false line
                        match exec fileRe line with
                        | Some m => Some (group 1 m)
                        | None => currentFile
                        end))) as Hd.
  { intros m E. apply set_named; [exact Hm|].
    now apply (exec_name _ _ _ detailedErrorRe_names eq_refl E). }
  destruct (exec parenRe line) eqn:E3, next as [nextLine|];
    try (destruct (exec detailedErrorRe line) eqn:E4; cbn [fst];
         [now apply Hd|exact Hm]).
  match goal with
  | |- context [if ?c then _ else _] => destruct c
  end; cbn [fst]; [|exact Hm].
  apply set_named; [exact Hm|].
  now apply (exec_name _ _ _ parenRe_names eq_refl E3).
Qed.

Lemma parseResultLines_named (lines : list jstring)
    (acc : JsMap.t TestResult * option jstring) :
  named (fst acc) -> named (fst (parseResultLines lines acc)).
Proof.
  revert acc. induction lines as [|line rest IH]; intros acc Hm; [exact Hm|].
  cbn [parseResultLines]. apply IH. now apply parseResultLine_named.
Qed.

(** Every result parsed from the whole output is kept under a name of
    one or more of [A-Za-z0-9_]. *)
Theorem parseTestResults_names (stdout stderr k : jstring) (r : TestResult) :
  JsMap.get (parseTestResults stdout stderr) k = Some r -> isName k.
Proof.
  intros H%get_In. unfold parseTestResults in H.
  apply (parseResultLines_named _ (JsMap.empty, None)) in H; [exact H|].
  intros k' v' [].
Qed.

End ParsedNames.

Lemma parseTestResults_names_witness : Language.isName (str "testLogin").
Proof.
  apply (parseTestResults_names ([crossmark] ++ str " testLogin") []
           (str "testLogin")
           (mkTestResult false ([crossmark] ++ str " testLogin") None)).
  reflexivity.
Defined.

(** ** Fatal errors *)

Section FatalErrors.

Import Language.

Lemma groupsOK_True (r : regex) : groupsOK (fun _ _ => True) r.
Proof. induction r; cbn; auto. Qed.

(** A match is a match of a part of the input. *)
Lemma exec_matches (r : regex) (s : jstring) (m : captures) :
  exec r s = Some m ->
  exists pre u post, s = pre ++ u ++ post /\ matches r u.
Proof.
  unfold exec. generalize 0%nat as i.
  induction s as [|x s IH]; intros i H; cbn [scan] in H; unfold orElse in H;
    destruct (matchAt r i _) as [m'|] eqn:E; try discriminate;
    try (unfold matchAt in E;
         apply (run_sound _ r (groupsOK_True r)) in E
           as (u & s' & d & Hs & M & _);
         exists [], u, s'; now split).
  destruct (IH (S i) H) as (pre & u & post & -> & M).
  exists (x :: pre), u, post. now split.
Qed.

Lemma scan_at (r : regex) (pre s : jstring) (i : nat) :
  is_Some (matchAt r (i + length pre) s) -> is_Some (scan r i (pre ++ s)).
Proof.
  revert i. induction pre as [|x pre IH]; intros i H.
  - rewrite Nat.add_0_r in H. cbn [app].
    destruct s; cbn [scan]; destruct H as [m ->]; cbn; eauto.
  - cbn [app scan]. destruct (matchAt r i (x :: pre ++ s)); cbn; [eauto|].
    apply IH. now replace (S i + length pre)%nat with (i + length (x :: pre))%nat
      by (cbn [length]; lia).
Qed.

(** Literals under the [i] flag. *)
Local Abbreviation ciEq u w := (map upper1 u = map upper1 w).

Lemma liti_run (word u rest : jstring) (i : nat) (c : captures)
    (k : nat -> jstring -> captures -> option captures) :
  ciEq u word ->
  Regex.run (seq (map chri word)) i (u ++ rest) c k
  = k (i + length u)%nat rest c.
Proof.
  revert u i. induction word as [|x word IH]; intros [|y u] i E;
    try discriminate E.
  - cbn. now rewrite Nat.add_0_r.
  - injection E as Ey E. cbn [map seq fold_right Regex.run app chri].
    rewrite Ey, N.eqb_refl. fold (seq (map chri word)). rewrite (IH u (S i) E).
    f_equal. cbn [length]. lia.
Qed.

Lemma liti_matches (word u : jstring) :
  matches (seq (map chri word)) u -> ciEq u word.
Proof.
  revert u. induction word as [|x word IH]; intros u M;
    cbn [map seq fold_right] in M.
  - now inversion M.
  - inversion M as [| |a b u1 u2 M1 M2| | | | | | |]; subst.
    inversion M1 as [|p y Hy| | | | | | | |]; subst.
    apply N.eqb_eq in Hy. cbn [app map]. rewrite Hy. f_equal. now apply IH.
Qed.

Lemma test_liti (word : string) (pre u post : jstring) :
  ciEq u (str word) -> test (liti word) (pre ++ u ++ post) = true.
Proof.
  intros E. unfold test, exec.
  destruct (scan_at (liti word) pre (u ++ post) 0) as [m ->]; [|reflexivity].
  unfold matchAt, liti. rewrite (liti_run (str word) u post) by exact E. eauto.
Qed.

Lemma fatalWord_matches (u : jstring) :
  matches fatalWord u -> ciEq u (str "Error").
Proof.
  unfold fatalWord. inversion 1 as [| | |a b u1 M|a b u1 M| | | | |]; subst;
    apply liti_matches in M; exact M.
Qed.

Lemma ciEq_take (n : nat) (u w : jstring) :
  ciEq u w -> ciEq (take n u) (take n w).
Proof. intros E. now rewrite <- !firstn_map, E. Qed.

(** A fatal error that [extractFatalErrorInfo] finds is one that
    [detectFatalError] detects: each of its three patterns starts with
    text that one of the four patterns of the detection matches. *)
Theorem extracted_fatal_error_is_detected (stdout stderr : jstring)
    (info : FatalErrorInfo) :
  extractFatalErrorInfo stdout stderr = Some info ->
  detectFatalError stdout stderr = true.
Proof.
  unfold extractFatalErrorInfo, detectFatalError, fatalErrorPatterns.
  set (s := stdout ++ [newline] ++ stderr). cbn [existsb]. intros H.
  destruct (exec htmlErrorRe s) as [m1|] eqn:E1.
  { apply exec_matches in E1 as (pre & u & post & -> & M).
    unfold htmlErrorRe in M. cbn [seq fold_right] in M.
    inversion M as [| |a b u1 u2 M1 M2| | | | | | |]; subst.
    apply liti_matches in M1. apply (ciEq_take 14) in M1.
    rewrite <- (take_drop 14 u1), <- !app_assoc.
    rewrite (test_liti "<pre>PHP Fatal" pre (take 14 u1) _ M1).
    now rewrite !orb_true_r. }
  destruct (exec plainErrorRe s) as [m2|] eqn:E2.
  { apply exec_matches in E2 as (pre & u & post & -> & M).
    unfold plainErrorRe in M. cbn [seq fold_right] in M.
    inversion M as [| |a b u1 u2 M1 M2| | | | | | |]; subst.
    apply liti_matches in M1. rewrite <- !app_assoc.
    rewrite (test_liti "PHP Fatal error:" pre u1 _ M1).
    now rewrite !orb_true_r. }
  destruct (exec genericErrorRe s) as [m3|] eqn:E3; [|discriminate].
  apply exec_matches in E3 as (pre & u & post & -> & M).
  unfold genericErrorRe in M. cbn [seq fold_right] in M.
  inversion M as [| |a b u1 u2 M1 M2| | | | | | |]; subst.
  inversion M2 as [| |a b u3 u4 M3 M4| | | | | | |]; subst.
  apply liti_matches in M1. apply fatalWord_matches in M3.
  assert (ciEq (u1 ++ u3) (str "PHP Fatal Error")) as E.
  { rewrite map_app, M1, M3. reflexivity. }
  replace (pre ++ (u1 ++ u3 ++ u4) ++ post)
    with (pre ++ (u1 ++ u3) ++ (u4 ++ post)) by now rewrite <- !app_assoc.
  now rewrite (test_liti "PHP Fatal Error" pre (u1 ++ u3) _ E).
Qed.

End FatalErrors.

Lemma extracted_fatal_error_is_detected_witness :
  detectFatalError fatalOutput [] = true.
Proof.
  apply (extracted_fatal_error_is_detected fatalOutput []
           (mkFatalErrorInfo (str "Trait 'Helper' not found") (Some fooTest)
              (Some 228))).
  reflexivity.
Defined.

(** ** The map of the report *)

Section ReportMap.

Import JunitParser Names.

Lemma store_get (m : JsMap.t JUnitTestResult) (r : JUnitTestResult)
    (k : jstring) :
  JsMap.get (store m r) k = if namedBy k r then Some r else JsMap.get m k.
Proof.
  unfold store, namedBy, variants.
  destruct (startsWith (toLowerCase (name r)) (str "test")); cbn [app];
    rewrite !get_set;
    repeat match goal with
           | |- context [decide (?a = k)] => destruct (decide (a = k)) as [<-|]
           end;
    first [ rewrite bool_decide_eq_true_2 by (repeat constructor); reflexivity
          | rewrite bool_decide_eq_false_2; [reflexivity|];
            rewrite !elem_of_cons, elem_of_nil; intuition congruence ].
Qed.

Lemma cases_get (suiteName : option jstring) (cases : list RawTestCase)
    (m : JsMap.t JUnitTestResult) (k : jstring) :
  JsMap.get
    (fold_left (fun results testcase =>
                  if hasName testcase
                  then store results (parseTestCase testcase suiteName)
                  else results) cases m) k
  = lastNamed k
      (map (fun testcase => parseTestCase testcase suiteName)
           (filter (fun testcase => hasName testcase = true) cases))
      (JsMap.get m k).
Proof.
  revert m. induction cases as [|c cases IH]; intros m; [reflexivity|].
  cbn [fold_left]. rewrite IH, filter_cons.
  destruct (hasName c) eqn:Hc.
  - rewrite decide_True by reflexivity. cbn [map lastNamed fold_left].
    now rewrite store_get.
  - rewrite decide_False by discriminate. reflexivity.
Qed.

Lemma lastNamed_app (k : jstring) (a b : list JUnitTestResult)
    (acc : option JUnitTestResult) :
  lastNamed k (a ++ b) acc = lastNamed k b (lastNamed k a acc).
Proof. apply fold_left_app. Qed.

Lemma suites_get (testsuites : list RawTestSuite)
    (m : JsMap.t JUnitTestResult) (k : jstring) :
  JsMap.get
    (fold_left
       (fun results testsuite =>
          fold_left
            (fun results testcase =>
               if hasName testcase
               then store results (parseTestCase testcase (ts_name testsuite))
               else results)
            (ts_testcase testsuite) results) testsuites m) k
  = lastNamed k (parsedCases testsuites) (JsMap.get m k).
Proof.
  revert m. induction testsuites as [|t testsuites IH]; intros m;
    [reflexivity|].
  cbn [fold_left]. rewrite IH, cases_get.
  unfold parsedCases. cbn [flat_map]. now rewrite lastNamed_app.
Qed.

(** The map of the report is keyed by method name alone: under a name it
    holds the result of the last test case of the report that goes by
    that name (its name, the name in lower case, or either without a
    leading [test]), whatever the class or the suite of the test case,
    and nothing for a name no test case goes by. *)
Theorem report_keeps_last_of_a_name (testsuites : list RawTestSuite)
    (k : jstring) :
  JsMap.get (collect testsuites) k
  = lastNamed k (parsedCases testsuites) None.
Proof. unfold collect. now rewrite suites_get. Qed.

End ReportMap.

(** ** Identifiers *)

Section Identifiers.

Local Abbreviation colon := (58 : N).
Local Abbreviation sep := (str "::").

Lemma splitOn_at (c : N) (s : jstring) :
  splitOn sep (c :: s) 0
  = if startsWith (c :: s) sep then [] :: splitOn sep s 1
    else match splitOn sep s 0 with
         | l :: ls => (c :: l) :: ls
         | [] => [[c]]
         end.
Proof. reflexivity. Qed.

Lemma splitOn_skip (c : N) (s : jstring) (n : nat) :
  splitOn sep (c :: s) (S n) = splitOn sep s n.
Proof. reflexivity. Qed.

Lemma startsWith_sep (c : N) (s : jstring) :
  startsWith (c :: s) sep = true -> c = colon.
Proof.
  change sep with [colon; colon]. cbn [startsWith].
  now intros [H%N.eqb_eq _]%andb_true_iff.
Qed.

Lemma splitOn_plain (m : jstring) :
  forallb (fun c => negb (c =? colon)) m = true -> splitOn sep m 0 = [m].
Proof.
  induction m as [|c m IH]; [reflexivity|].
  cbn [forallb]. intros [Hc Hm]%andb_true_iff.
  rewrite splitOn_at, (IH Hm).
  destruct (startsWith (c :: m) sep) eqn:Hs; [|reflexivity].
  apply startsWith_sep in Hs. subst c. discriminate Hc.
Qed.

Lemma splitOn_method (m : jstring) :
  forallb (fun c => negb (c =? colon)) m = true ->
  forall (pre : jstring) (skip : nat),
    List.last pre 0 <> colon ->
    (skip = 0%nat \/ skip = 1%nat /\ pre <> []) ->
    exists init, init <> [] /\ splitOn sep (pre ++ sep ++ m) skip = init ++ [m].
Proof.
  intros Hm. induction pre as [|c pre IH]; intros skip Hlast Hskip.
  - destruct Hskip as [->|[_ H]]; [|now destruct H].
    exists [[]]. split; [discriminate|].
    change ([] ++ sep ++ m) with (colon :: colon :: m).
    rewrite splitOn_at.
    assert (startsWith (colon :: colon :: m) sep = true) as ->
      by now destruct m.
    now rewrite splitOn_skip, (splitOn_plain m Hm).
  - assert (forall skip', (skip' = 0%nat \/ skip' = 1%nat /\ pre <> []) ->
              exists init, init <> []
                /\ splitOn sep (pre ++ sep ++ m) skip' = init ++ [m]) as IH'.
    { intros skip' Hs. apply IH; [|exact Hs].
      destruct pre as [|c' pre']; [cbn; discriminate|exact Hlast]. }
    change ((c :: pre) ++ sep ++ m) with (c :: pre ++ sep ++ m).
    destruct Hskip as [->|[-> _]].
    + rewrite splitOn_at.
      destruct (startsWith (c :: pre ++ sep ++ m) sep) eqn:Hs.
      * destruct (IH' 1%nat) as (init & Hne & ->).
        { right. split; [reflexivity|]. intros ->.
          apply startsWith_sep in Hs. subst c. now apply Hlast. }
        exists ([] :: init). split; [discriminate|reflexivity].
      * destruct (IH' 0%nat) as (init & Hne & ->); [now left|].
        destruct init as [|l init]; [now destruct Hne|].
        exists ((c :: l) :: init). split; [discriminate|reflexivity].
    + rewrite splitOn_skip. apply IH'. now left.
Qed.

(** The identifier of a method is made of the identifier of its file,
    [::] and the name of the method; [extractMethodName] gives the name
    back when the name holds no colon and the identifier of the file
    does not end in one. *)
Theorem extractMethodName_of_method_id (fileId methodName : jstring) :
  List.last fileId 0 <> 58 ->
  forallb (fun c => negb (c =? 58)) methodName = true ->
  extractMethodName (fileId ++ str "::" ++ methodName) = methodName.
Proof.
  intros Hlast Hm. unfold extractMethodName.
  destruct (splitOn_method methodName Hm fileId 0 Hlast) as (init & _ & ->);
    [now left|].
  apply last_last.
Qed.

End Identifiers.

Lemma extractMethodName_of_method_id_witness :
  extractMethodName (str "unit:tests/unit/LoginTest.php" ++ str "::"
                     ++ str "testLogin")
  = str "testLogin".
Proof.
  apply (extractMethodName_of_method_id (str "unit:tests/unit/LoginTest.php")
           (str "testLogin")).
  - discriminate.
  - reflexivity.
Defined.

(** ** The command of a run *)

Section Commands.

Import Names.

Local Abbreviation colon := (58 : N).

Lemma startsWith_app (w post : jstring) : startsWith (w ++ post) w = true.
Proof.
  induction w as [|x w IH]; [now destruct post|].
  cbn. now rewrite N.eqb_refl.
Qed.

Lemma includes_app (pre w post : jstring) :
  includes (pre ++ w ++ post) w = true.
Proof.
  induction pre as [|c pre IH].
  - cbn [app]. destruct (w ++ post) eqn:E; cbn [includes];
      rewrite <- E, startsWith_app; reflexivity.
  - cbn [app includes]. rewrite IH. apply orb_true_r.
Qed.

(** Whatever the identifier and the settings, the command asks for the
    report: it contains the flag [--xml]. *)
Theorem buildTestCommand_asks_for_report (workspaceRoot : jstring)
    (config : Settings) (binary testId : jstring)
    (coverageFilePath : option jstring) :
  includes (buildTestCommand workspaceRoot config binary testId
              coverageFilePath) (str " --xml") = true.
Proof.
  unfold buildTestCommand.
  set (command := if includes testId (str "::") then _ else _).
  set (withArgs := if nonEmpty (binaryArgs config) then _ else command).
  set (coverage := match coverageFilePath with Some f => _ | None => _ end).
  assert (forall pre, includes (pre ++ (if coverage
            then (withArgs ++ str " --xml") ++ str " --coverage --coverage-xml"
            else withArgs ++ str " --xml")) (str " --xml") = true) as H.
  { intros pre. destruct coverage.
    - rewrite <- app_assoc, app_assoc. apply includes_app.
    - rewrite <- (app_nil_r (str " --xml")) at 1. rewrite app_assoc.
      apply includes_app. }
  destruct (dockerEnabled config); [|apply (H [])].
  destruct (negb (nonEmpty (dockerContainer config))); [apply (H [])|].
  rewrite !app_assoc. rewrite <- !app_assoc. rewrite !app_assoc. apply H.
Qed.

Lemma splitOn_not_nil (sep s : jstring) (skip : nat) : splitOn sep s skip <> [].
Proof.
  revert skip. induction s as [|c s IH]; intros skip; [discriminate|].
  destruct skip as [|n]; cbn [splitOn]; [|apply IH].
  destruct (startsWith (c :: s) sep); [discriminate|].
  specialize (IH 0%nat). now destruct (splitOn sep s 0).
Qed.

Lemma splitOn_prefix (sep' pre rest : jstring) :
  colonFree pre = true ->
  splitOn (colon :: sep') (pre ++ rest) 0
  = match splitOn (colon :: sep') rest 0 with
    | l :: ls => (pre ++ l) :: ls
    | [] => [pre]
    end.
Proof.
  pose proof (splitOn_not_nil (colon :: sep') rest 0) as Hnn.
  induction pre as [|c pre IH]; intros Hp.
  - cbn [app]. now destruct (splitOn _ rest 0).
  - cbn [colonFree forallb] in Hp. apply andb_true_iff in Hp as [Hc Hp].
    cbn [app splitOn startsWith]. rewrite N.eqb_sym.
    apply negb_true_iff in Hc. rewrite Hc. cbn [andb].
    rewrite (IH Hp). now destruct (splitOn _ rest 0).
Qed.

Lemma splitOn_colonFree (sep' m : jstring) :
  colonFree m = true -> splitOn (colon :: sep') m 0 = [m].
Proof.
  intros H. rewrite <- (app_nil_r m) at 1.
  rewrite (splitOn_prefix sep' m [] H). cbn. now rewrite app_nil_r.
Qed.

Lemma split_file_id (suite file : jstring) :
  colonFree suite = true -> colonFree file = true ->
  splitOn (str ":") (suite ++ str ":" ++ file) 0 = [suite; file].
Proof.
  intros Hs Hf. change (str ":") with [colon].
  rewrite (splitOn_prefix [] suite _ Hs).
  change ([colon] ++ file) with (colon :: file).
  assert (splitOn [colon] (colon :: file) 0 = [[]; file]) as ->.
  { cbn [splitOn startsWith length Nat.sub]. rewrite N.eqb_refl.
    assert (startsWith file [] = true) as -> by now destruct file.
    cbn [andb]. now rewrite (splitOn_colonFree [] file Hf). }
  now rewrite app_nil_r.
Qed.

Lemma split_method_id (suite file method : jstring) :
  colonFree suite = true -> colonFree file = true -> file <> [] ->
  colonFree method = true ->
  splitOn (str "::") (suite ++ str ":" ++ file ++ str "::" ++ method) 0
  = [suite ++ str ":" ++ file; method].
Proof.
  intros Hs Hf Hne Hm. change (str "::") with [colon; colon].
  change (str ":") with [colon].
  rewrite (splitOn_prefix [colon] suite _ Hs).
  destruct file as [|c file]; [now destruct Hne|].
  cbn [colonFree forallb] in Hf. apply andb_true_iff in Hf as [Hc Hf].
  change ([colon] ++ (c :: file) ++ [colon; colon] ++ method)
    with (colon :: c :: file ++ [colon; colon] ++ method).
  assert (splitOn [colon; colon] (c :: file ++ [colon; colon] ++ method) 0
          = [c :: file; method]) as Hrest.
  { change (c :: file ++ [colon; colon] ++ method)
      with ((c :: file) ++ [colon; colon] ++ method).
    rewrite (splitOn_prefix [colon] (c :: file)).
    2:{ cbn [colonFree forallb]. now rewrite Hc. }
    assert (splitOn [colon; colon] ([colon; colon] ++ method) 0
            = [[]; method]) as ->.
    { cbn [app splitOn startsWith length Nat.sub]. rewrite !N.eqb_refl.
      assert (startsWith method [] = true) as -> by now destruct method.
      cbn [andb]. now rewrite (splitOn_colonFree [colon] method Hm). }
    now rewrite app_nil_r. }
  change [colon; colon] with (str "::") in *. rewrite splitOn_at.
  assert (startsWith (colon :: c :: file ++ str "::" ++ method) (str "::")
          = false) as ->.
  { apply negb_true_iff in Hc. change (str "::") with [colon; colon] at 2.
    cbn [startsWith]. now rewrite N.eqb_refl, (N.eqb_sym colon c), Hc. }
  now rewrite Hrest.
Qed.

Lemma includes_sep (suite file method : jstring) :
  includes (suite ++ str ":" ++ file ++ str "::" ++ method) (str "::") = true.
Proof.
  rewrite (app_assoc suite), (app_assoc (suite ++ str ":")).
  apply includes_app.
Qed.

(** For the identifier of a method, [suite:file::method] with parts free
    of colons, the command runs exactly that method of that file: the
    binary, [run], the suite, [file:method], the configured arguments
    and [--xml]. *)
Theorem buildTestCommand_of_method (workspaceRoot : jstring)
    (config : Settings) (binary suite file method : jstring) :
  colonFree suite = true -> colonFree file = true -> file <> [] ->
  colonFree method = true ->
  dockerEnabled config = false ->
  buildTestCommand workspaceRoot config binary
    (suite ++ str ":" ++ file ++ str "::" ++ method) None
  = (binary ++ str " run " ++ suite ++ str " " ++ file ++ str ":" ++ method)
    ++ (if nonEmpty (binaryArgs config) then str " " ++ binaryArgs config
        else [])
    ++ str " --xml".
Proof.
  intros Hs Hf Hne Hm Hd. unfold buildTestCommand.
  rewrite Hd, includes_sep, (split_method_id suite file method Hs Hf Hne Hm).
  cbn [element nth]. rewrite (split_file_id suite file Hs Hf).
  cbn [take element nth firstn].
  destruct (nonEmpty (binaryArgs config)).
  - now rewrite <- !app_assoc.
  - now rewrite <- !app_assoc.
Qed.

End Commands.

Lemma buildTestCommand_of_method_witness :
  buildTestCommand (str "/work") (mkSettings (str "--steps") false [] [])
    (str "vendor/bin/codecept")
    (str "unit" ++ str ":" ++ str "tests/unit/LoginTest.php" ++ str "::"
     ++ str "testLogin") None
  = str "vendor/bin/codecept run unit tests/unit/LoginTest.php:testLogin --steps --xml".
Proof.
  etransitivity;
    [apply (buildTestCommand_of_method (str "/work")
              (mkSettings (str "--steps") false [] [])
              (str "vendor/bin/codecept") (str "unit")
              (str "tests/unit/LoginTest.php") (str "testLogin"));
     reflexivity || discriminate|reflexivity].
Defined.

(** ** Completion *)

Section Completion.

Import Mention.

(** When the run completes, an item is reported [Passed] as soon as one
    of the names registered for it was not seen in the output and the
    report has no entry for it, whatever was streamed for it: an
    outcome streamed under one name of the item is overwritten through
    its other names. *)
Theorem unseen_name_marks_passed (cfg : Config) (testNameMap : JsMap.t path)
    (s : Streaming) (exitCode : Z) (testName : jstring) (p : path) :
  JsMap.get testNameMap testName = Some p ->
  testName ∉ seenTests s ->
  reported (reportOf cfg) testNameMap p = false ->
  p <> [] ->
  outcomeOf (run <$> onComplete cfg testNameMap s exitCode) p = Some Passed.
Proof.
  intros Hget Hseen Hrep Hp.
  pose proof (markUnseenTests_hit (seenTests s) p testNameMap (run s) testName
                (get_In _ _ _ Hget) Hseen) as Hm.
  unfold onComplete. rewrite reconcileWithXmlResults_eq.
  set (run1 := markUnseenTests (run s) (seenTests s) testNameMap) in *.
  match goal with
  | |- context [Ret (if ?c then ?a else ?b)] =>
      set (r := if c then a else b);
      assert (fst r !! p = run1 !! p) as Hr
        by (subst r; destruct c;
            [reflexivity|now apply reconcileLoop_frame])
  end.
  clearbody r. destruct r as [r sn]. cbn [fst] in Hr. cbn.
  f_equal. unfold stateOf in *.
  destruct (_ || _); unfold markFailed, markPassed;
    rewrite lookup_insert_ne by congruence; now rewrite Hr, Hm.
Qed.

End Completion.

Lemma unseen_name_marks_passed_witness :
  stateOf (run loginFailed) testLogin = Failed
  /\ outcomeOf (run <$> onComplete noReport (buildTestNameMap unitSuite)
                          loginFailed 1%Z) testLogin
     = Some Passed.
Proof.
  split; [reflexivity|].
  apply (unseen_name_marks_passed noReport (buildTestNameMap unitSuite)
           loginFailed 1%Z (str "testlogin") testLogin).
  - reflexivity.
  - vm_compute. discriminate.
  - reflexivity.
  - discriminate.
Defined.
